(** * CodeSprouts: the service layer (domains, lessons, authentication)

    A shallow embedding of [DomainsService], [LessonsService] and
    [AuthService] together with the properties stated for them.

    Conventions of the embedding:
    - a JavaScript [number] that holds a page index, a page size, a progress
      percentage or a count is an integer [Z]; the percentage handed to
      [updateProgress] is also taken as the double it is ([Numbers]), where
      the clamp is followed on fractions, the infinities and NaN;
    - a JavaScript string is a Rocq [string]: a sequence of code units below
      256 (the Latin-1 range), on which [toLowerCase] and [trim] are written
      out exactly;
    - an [async] method is a computation in the monad [M]: it threads the
      outside world (hosted tables, identity provider, network) and completes
      normally or by throwing; [try { .. } catch (error) { .. }] is
      [try_catch]. *)

From Stdlib Require Import ZArith Lia Bool Ascii String.
From Stdlib Require DecimalString QArith.
From stdpp Require Import gmap strings list sorting.

Local Open Scope Z_scope.

(* ===================================================================== *)
(** * Part I: definitions *)
(* ===================================================================== *)

(** ** JavaScript primitives used by the services *)

Module Js.

(** *** Strings *)

Definition code (c : ascii) : N := N_of_ascii c.

Definition between (lo hi : N) (c : ascii) : bool :=
  ((lo <=? code c) && (code c <=? hi))%N.

(** Code units with a lower-case counterpart: A-Z, and in the Latin-1
    supplement U+00C0..U+00DE except the multiplication sign U+00D7. *)
Definition is_upper (c : ascii) : bool :=
  between 65 90 c || (between 192 222 c && negb (code c =? 215)%N).

Definition lower_char (c : ascii) : ascii :=
  if is_upper c then ascii_of_N (code c + 32) else c.

(** [String.prototype.toLowerCase] *)
Fixpoint toLowerCase (s : string) : string :=
  match s with
  | EmptyString => EmptyString
  | String c s' => String (lower_char c) (toLowerCase s')
  end.

(** White space and line terminators below 256: TAB, LF, VT, FF, CR,
    SPACE and NO-BREAK SPACE. *)
Definition is_space (c : ascii) : bool :=
  between 9 13 c || (code c =? 32)%N || (code c =? 160)%N.

Definition is_empty (s : string) : bool :=
  match s with EmptyString => true | String _ _ => false end.

Fixpoint trimStart (s : string) : string :=
  match s with
  | EmptyString => EmptyString
  | String c s' => if is_space c then trimStart s' else s
  end.

Fixpoint trimEnd (s : string) : string :=
  match s with
  | EmptyString => EmptyString
  | String c s' =>
      let t := trimEnd s' in
      if is_space c && is_empty t then EmptyString else String c t
  end.

(** [String.prototype.trim] *)
Definition trim (s : string) : string := trimEnd (trimStart s).

(** [s.length] *)
Definition length (s : string) : Z := Z.of_nat (String.length s).

(** [s.startsWith(p)] *)
Fixpoint startsWith (p s : string) : bool :=
  match p, s with
  | EmptyString, _ => true
  | String _ _, EmptyString => false
  | String a p', String b s' => Ascii.eqb a b && startsWith p' s'
  end.

(** [s.endsWith(p)]: [p] is [s] itself or ends the rest of [s]. *)
Fixpoint endsWith (p s : string) : bool :=
  String.eqb s p ||
  match s with
  | EmptyString => false
  | String _ s' => endsWith p s'
  end.

(** The code units of a string. *)
Definition chars (s : string) : list ascii := list_ascii_of_string s.

(** Decimal rendering of a non-negative integer, as in a template
    literal. *)
Definition show (n : N) : string :=
  DecimalString.NilZero.string_of_uint (N.to_uint n).

(** *** Regular expressions

    The fragment of the regular-expression language the services use:
    character classes, sequence, alternative and iteration.  A pattern
    written between [^] and [$] (without the multiline flag) is tested
    against the whole subject string. *)

Inductive regex : Type :=
| ReNone
| ReEps
| ReClass (cls : ascii -> bool)
| ReSeq (r1 r2 : regex)
| ReAlt (r1 r2 : regex)
| ReStar (r : regex).

(** [r?] *)
Definition ReOpt (r : regex) : regex := ReAlt r ReEps.

Fixpoint nullable (r : regex) : bool :=
  match r with
  | ReNone => false
  | ReEps => true
  | ReClass _ => false
  | ReSeq r1 r2 => nullable r1 && nullable r2
  | ReAlt r1 r2 => nullable r1 || nullable r2
  | ReStar _ => true
  end.

(** The residual of [r] after reading the code unit [c]. *)
Fixpoint residual (c : ascii) (r : regex) : regex :=
  match r with
  | ReNone => ReNone
  | ReEps => ReNone
  | ReClass cls => if cls c then ReEps else ReNone
  | ReSeq r1 r2 =>
      if nullable r1
      then ReAlt (ReSeq (residual c r1) r2) (residual c r2)
      else ReSeq (residual c r1) r2
  | ReAlt r1 r2 => ReAlt (residual c r1) (residual c r2)
  | ReStar r1 => ReSeq (residual c r1) (ReStar r1)
  end.

(** [r.test(s)] for an anchored pattern [r]. *)
Fixpoint test (r : regex) (s : string) : bool :=
  match s with
  | EmptyString => nullable r
  | String c s' => test (residual c r) s'
  end.

(** The language of a pattern, independently of [test]. *)
Inductive Matches : regex -> string -> Prop :=
| MEps : Matches ReEps EmptyString
| MClass cls c : cls c = true -> Matches (ReClass cls) (String c EmptyString)
| MSeq r1 r2 s1 s2 :
    Matches r1 s1 -> Matches r2 s2 -> Matches (ReSeq r1 r2) (s1 +:+ s2)
| MAltL r1 r2 s : Matches r1 s -> Matches (ReAlt r1 r2) s
| MAltR r1 r2 s : Matches r2 s -> Matches (ReAlt r1 r2) s
| MStarNil r : Matches (ReStar r) EmptyString
| MStarApp r s1 s2 :
    Matches r s1 -> Matches (ReStar r) s2 -> Matches (ReStar r) (s1 +:+ s2).

(** *** Arrays *)

(** Relative index of [Array.prototype.slice]: a negative index counts
    from the end, and every index is clamped to [0, len]. *)
Definition relative (len k : Z) : Z :=
  if k <? 0 then Z.max (len + k) 0 else Z.min k len.

(** [l.slice(start, stop)] *)
Definition slice {A : Type} (l : list A) (start stop : Z) : list A :=
  let len := Z.of_nat (List.length l) in
  let k := relative len start in
  let final := relative len stop in
  take (Z.to_nat (final - k)) (drop (Z.to_nat k) l).

End Js.

(** ** Shared types

    The module [types] that declares the interfaces below is not among the
    sources; each record lists the fields the services read and write. *)

(** Modelled from the spec: the interface [ApiResponse<T>] of [types], the
    uniform result shape [{ success: boolean; data?: T; error?: string }]. *)
Record ApiResponse (T : Type) : Type := mkApiResponse {
  success : bool;
  data : option T;
  error : option string;
}.
Arguments mkApiResponse {T} _ _ _.
Arguments success {T} _.
Arguments data {T} _.
Arguments error {T} _.

(** Modelled from the spec: the interface [KenicRegistrar] of [types], a
    directory entry [{ id, name, phone, email }] as [kenicRegistrars] fills
    it. *)
Record KenicRegistrar : Type := mkRegistrar {
  reg_id : string;
  reg_name : string;
  reg_phone : string;
  reg_email : string;
}.

(** Modelled from the spec: the type [DomainExtension] of [types]; its
    values are the extensions [getDomainExtensions] lists: ".me.ke",
    ".co.ke", ".ke", ".or.ke" and ".ac.ke". *)
Inductive DomainExtension : Type :=
| ext_me_ke | ext_co_ke | ext_ke | ext_or_ke | ext_ac_ke.

(** ** The registrar directory ([config/registrars]) *)

Definition kenicRegistrars : list KenicRegistrar := [
  mkRegistrar "truehost" "Truehost Cloud Limited" "+25420 790 3111" "info@truehost.co.ke";
  mkRegistrar "kwe" "Kenya Website Experts" "0722 209 414" "info@kenyawebexperts.co.ke";
  mkRegistrar "sasahost" "Sasahost" "+254 20 2498888" "info@sasahost.co.ke";
  mkRegistrar "webhost" "Web Host Kenya" "0722 386 389" "info@webhostkenya.co.ke";
  mkRegistrar "hostpinnacle" "Host Pinnacle" "0700 000 000" "info@hostpinnacle.co.ke";
  mkRegistrar "kenic" "Kenya Network Information Centre (KeNIC)" "+254 20 387 4700" "info@kenic.or.ke";
  mkRegistrar "domainkenya" "Domain Kenya" "0722 000 000" "info@domainkenya.co.ke";
  mkRegistrar "hostingreview" "Hosting Review Kenya" "0700 123 456" "info@hostingreviewkenya.co.ke";
  mkRegistrar "smartweb" "Smart Web Kenya" "0722 500 500" "info@smartwebkenya.co.ke";
  mkRegistrar "webcom" "Webcom Kenya" "0722 700 700" "info@webcom.co.ke";
  mkRegistrar "hostpoa" "Host POA" "0722 800 800" "info@hostpoa.co.ke";
  mkRegistrar "digitalocean" "DigitalOcean Kenya" "0700 900 900" "support@digitalocean.co.ke";
  mkRegistrar "cloudflare" "Cloudflare Kenya" "0722 111 111" "support@cloudflare.co.ke";
  mkRegistrar "hostgator" "HostGator Kenya" "0700 222 222" "support@hostgator.co.ke";
  mkRegistrar "namecheap" "Namecheap Kenya" "0722 333 333" "support@namecheap.co.ke";
  mkRegistrar "godaddy" "GoDaddy Kenya" "0700 444 444" "support@godaddy.co.ke";
  mkRegistrar "bluehost" "Bluehost Kenya" "0722 555 555" "support@bluehost.co.ke";
  mkRegistrar "hostinger" "Hostinger Kenya" "0700 666 666" "support@hostinger.co.ke";
  mkRegistrar "siteground" "SiteGround Kenya" "0722 777 777" "support@siteground.co.ke";
  mkRegistrar "dreamhost" "DreamHost Kenya" "0700 888 888" "support@dreamhost.co.ke"
].

(** ** The pure operations of [DomainsService] *)

(** [{ isValid: boolean; error?: string }] *)
Record Validation : Type := mkValidation {
  isValid : bool;
  invalid_error : option string;
}.

(** [{ registrars, hasMore, total }] *)
Record RegistrarPage : Type := mkPage {
  registrars : list KenicRegistrar;
  hasMore : bool;
  total : Z;
}.

(** [[a-z0-9]] *)
Definition alnum (c : ascii) : bool := Js.between 97 122 c || Js.between 48 57 c.

(** [[a-z0-9-]] *)
Definition alnum_hyphen (c : ascii) : bool := alnum c || (Js.code c =? 45)%N.

(** [/^[a-z0-9]([a-z0-9-]*[a-z0-9])?$/] *)
Definition domainRegex : Js.regex :=
  Js.ReSeq (Js.ReClass alnum)
    (Js.ReOpt (Js.ReSeq (Js.ReStar (Js.ReClass alnum_hyphen)) (Js.ReClass alnum))).

Definition validateDomainName (domain : string) : Validation :=
  let cleanDomain := Js.trim (Js.toLowerCase domain) in
  if Js.is_empty cleanDomain then
    mkValidation false (Some "Domain name cannot be empty")
  else if Js.length cleanDomain <? 1 then
    mkValidation false (Some "Domain name is too short")
  else if 63 <? Js.length cleanDomain then
    mkValidation false (Some "Domain name is too long")
  else if negb (Js.test domainRegex cleanDomain) then
    mkValidation false (Some "Domain name contains invalid characters")
  else if Js.startsWith "-" cleanDomain || Js.endsWith "-" cleanDomain then
    mkValidation false (Some "Domain name cannot start or end with a hyphen")
  else
    mkValidation true None.

Definition getRegistrars : list KenicRegistrar := kenicRegistrars.

(** [getRegistrarsPaginated(page = 1, limit = 10)], with both arguments
    given. *)
Definition getRegistrarsPaginated (page limit : Z) : RegistrarPage :=
  let startIndex := (page - 1) * limit in
  let endIndex := startIndex + limit in
  let registrars := Js.slice kenicRegistrars startIndex endIndex in
  mkPage registrars
         (endIndex <? Z.of_nat (length kenicRegistrars))
         (Z.of_nat (length kenicRegistrars)).

(** ** The outside world and the monad of asynchronous methods *)

(** What a [catch (error)] clause can receive: an [Error] object with its
    message, or some other thrown value. *)
Inductive Thrown : Type :=
| ErrorObject (message : string)
| NotAnError.

(** How a computation completes.  [OutOfFuel] marks a loop cut off by its
    iteration budget; no method ever completes that way. *)
Inductive Completion (A : Type) : Type :=
| Normal (a : A)
| Throw (e : Thrown)
| OutOfFuel.
Arguments Normal {A} _.
Arguments Throw {A} _.
Arguments OutOfFuel {A}.

(** The error object of the hosted backend: [{ message, code }]. *)
Record BackendError : Type := mkBackendError {
  be_message : string;
  be_code : string;
}.

(** The [{ data, error }] pair every backend call resolves to. *)
Record Reply (A : Type) : Type := mkReply {
  reply_data : option A;
  reply_error : option BackendError;
}.
Arguments mkReply {A} _ _.
Arguments reply_data {A} _.
Arguments reply_error {A} _.

(** The behaviour of the backend on one call: it serves the call, answers
    with an error of its own, or the client library throws. *)
Inductive Fault : Type :=
| Healthy
| Refuses (e : BackendError)
| Crashes (e : Thrown).

(** Modelled from the spec: the interface [Profile] of [types], with the
    columns [createProfile] is given. *)
Record Profile : Type := mkProfile {
  profile_id : string;
  profile_email : string;
  first_name : string;
  last_name : string;
  role : string;
  organization : option string;
}.

(** The user object of the identity provider. *)
Record User : Type := mkUser {
  user_id_of : string;
  user_email : option string;
}.

(** Modelled from the spec: the interface [AuthUser] of [types]:
    [{ id, email, profile }]. *)
Record AuthUser : Type := mkAuthUser {
  auth_id : string;
  auth_email : string;
  auth_profile : option Profile;
}.

(** Modelled from the spec: the interface [Lesson] of [types], with the
    columns the queries name; [lesson_key] is the column [id] and
    [lesson_author] the joined [profiles] column. *)
Record Lesson : Type := mkLesson {
  lesson_key : string;
  title : string;
  category : string;
  difficulty : string;
  xp_reward : Z;
  status : string;
  created_at : Z;
  author_id : string;
  lesson_author : option (string * string);
}.

(** Modelled from the spec: the interface [UserProgress] of [types], a row
    of [user_lesson_progress] with the columns [updateProgress] writes. *)
Record UserProgress : Type := mkProgress {
  user_id : string;
  lesson_id : string;
  progress : Z;
  completed : bool;
  completed_at : option Z;
}.

(** Modelled from the spec: the interface [DomainLookupRequest] of [types]:
    [{ domain, domainType }]. *)
Record DomainLookupRequest : Type := mkLookup {
  req_domain : string;
  req_domainType : DomainExtension;
}.

(** The body of an HTTP response: [response.json()] throws, or yields a
    [DomainLookupResponse] with its [available] field. *)
Inductive Body : Type :=
| Garbled (e : Thrown)
| Json (available : bool).

Record Response : Type := mkResponse {
  status_code : N;
  body : Body;
}.

(** The network on one [fetch]: the call throws, or a response arrives. *)
Inductive Wire : Type :=
| Unreachable (e : Thrown)
| Answered (r : Response).

(** What the client does to the outside, in order. *)
Inductive Event : Type :=
| EvFetch (req : DomainLookupRequest)
| EvAllSettled (n : nat).

(** The outside world: the hosted backend, the identity provider and the
    network are services outside the repository, described here by what a
    call observes.  The hosted tables are keyed by their primary keys:
    [profiles] and [lessons] by id, [user_lesson_progress] by the pair
    (user, lesson), of which there is at most one row.  [faults] scripts the
    behaviour of the coming backend calls (none left: healthy), [wire] the
    outcome of a [fetch] issued as the n-th event. *)
Record World : Type := mkWorld {
  profiles : gmap string Profile;
  lessons : gmap string Lesson;
  user_lesson_progress : gmap (string * string) UserProgress;
  provider_user : option User;
  storage : gmap string string;
  now : Z;
  faults : list Fault;
  wire : nat -> DomainLookupRequest -> Wire;
  log : list Event;
}.

Definition with_profiles (t : gmap string Profile) (w : World) : World :=
  mkWorld t (lessons w) (user_lesson_progress w) (provider_user w)
          (storage w) (now w) (faults w) (wire w) (log w).

Definition with_progress (t : gmap (string * string) UserProgress)
    (w : World) : World :=
  mkWorld (profiles w) (lessons w) t (provider_user w)
          (storage w) (now w) (faults w) (wire w) (log w).

Definition with_storage (t : gmap string string) (w : World) : World :=
  mkWorld (profiles w) (lessons w) (user_lesson_progress w) (provider_user w)
          t (now w) (faults w) (wire w) (log w).

Definition with_faults (fs : list Fault) (w : World) : World :=
  mkWorld (profiles w) (lessons w) (user_lesson_progress w) (provider_user w)
          (storage w) (now w) fs (wire w) (log w).

Definition with_log (l : list Event) (w : World) : World :=
  mkWorld (profiles w) (lessons w) (user_lesson_progress w) (provider_user w)
          (storage w) (now w) (faults w) (wire w) l.

Definition M (A : Type) : Type := World -> Completion A * World.

Definition ret {A : Type} (a : A) : M A := fun w => (Normal a, w).

Definition throw {A : Type} (e : Thrown) : M A := fun w => (Throw e, w).

Definition bind {A B : Type} (m : M A) (k : A -> M B) : M B :=
  fun w =>
    match m w with
    | (Normal a, w') => k a w'
    | (Throw e, w') => (Throw e, w')
    | (OutOfFuel, w') => (OutOfFuel, w')
    end.

Notation "'let*' x ':=' m 'in' k" := (bind m (fun x => k))
  (at level 10, x name, m at level 100, k at level 200).

(** [try { body } catch (error) { handler }] *)
Definition try_catch {A : Type} (body : M A) (handler : Thrown -> M A) : M A :=
  fun w =>
    match body w with
    | (Throw e, w') => handler e w'
    | other => other
    end.

Definition ok {T : Type} (d : option T) : ApiResponse T :=
  mkApiResponse true d None.

Definition failure {T : Type} (msg : string) : ApiResponse T :=
  mkApiResponse false None (Some msg).

(** [error instanceof Error ? error.message : fallback] *)
Definition messageOr (e : Thrown) (fallback : string) : string :=
  match e with
  | ErrorObject m => m
  | NotAnError => fallback
  end.

(** [a || b] on strings: the empty string is falsy. *)
Definition orElse (a : option string) (b : string) : string :=
  match a with
  | Some s => if Js.is_empty s then b else s
  | None => b
  end.

(** One call of the backend client: the next entry of [faults] decides
    whether the call is served, refused or throws. *)
Definition backend {A : Type} (serve : World -> Reply A * World) : M (Reply A) :=
  fun w =>
    match faults w with
    | [] => let (r, w') := serve w in (Normal r, w')
    | Healthy :: fs =>
        let (r, w') := serve (with_faults fs w) in (Normal r, w')
    | Refuses e :: fs => (Normal (mkReply None (Some e)), with_faults fs w)
    | Crashes e :: fs => (Throw e, with_faults fs w)
    end.

(** ** [DomainsService]: the network operations *)

(** Modelled from the spec: the interface [DomainSearchResult] of [types]:
    [{ domain, extension, available, registrars? }]. *)
Record DomainSearchResult : Type := mkResult {
  res_domain : string;
  res_extension : DomainExtension;
  res_available : bool;
  res_registrars : option (list KenicRegistrar);
}.

(** [response.ok] *)
Definition response_ok (r : Response) : bool :=
  ((200 <=? status_code r) && (status_code r <=? 299))%N.

(** [fetch(EDGE_FUNCTIONS.WHOIS_LOOKUP, { method: 'POST', body })] *)
Definition fetch (req : DomainLookupRequest) : M Response :=
  fun w =>
    let w' := with_log (log w ++ [EvFetch req]) w in
    match wire w (length (log w)) req with
    | Unreachable e => (Throw e, w')
    | Answered r => (Normal r, w')
    end.

(** [response.json()] followed by the read of [data.available] *)
Definition json (r : Response) : M bool :=
  match body r with
  | Garbled e => throw e
  | Json available => ret available
  end.

Definition searchDomain (domain : string) (extension : DomainExtension)
  : M (ApiResponse DomainSearchResult) :=
  try_catch
    (let request := mkLookup (Js.trim (Js.toLowerCase domain)) extension in
     let* response := fetch request in
     if negb (response_ok response) then
       ret (failure ("HTTP error: " +:+ Js.show (status_code response)))
     else
       let* available := json response in
       let result :=
         mkResult (req_domain request) (req_domainType request) available
                  (if available then Some getRegistrars else None) in
       ret (ok (Some result)))
    (fun error => ret (failure (messageOr error "Domain lookup failed"))).

(** The outcome of a settled promise. *)
Inductive Settled (A : Type) : Type :=
| Fulfilled (value : A)
| Rejected (reason : Thrown).
Arguments Fulfilled {A} _.
Arguments Rejected {A} _.

Fixpoint settle_each {A : Type} (ps : list (M A)) : M (list (Settled A)) :=
  match ps with
  | [] => ret []
  | p :: ps' =>
      fun w =>
        match p w with
        | (Normal a, w') => (let* r := settle_each ps' in ret (Fulfilled a :: r)) w'
        | (Throw e, w') => (let* r := settle_each ps' in ret (Rejected e :: r)) w'
        | (OutOfFuel, w') => (OutOfFuel, w')
        end
  end.

(** [await Promise.allSettled(ps)]: the calls of [ps] are started in list
    order, every outcome is kept in its position, and the join is logged. *)
Definition allSettled {A : Type} (ps : list (M A)) : M (list (Settled A)) :=
  let* r := settle_each ps in
  fun w => (Normal r, with_log (log w ++ [EvAllSettled (length ps)]) w).

Definition batchSize : Z := 5.

(** The callback of [batchResults.forEach]: what is pushed for the promise
    at [index] of [batch].  The assertion [result.value.data!] is justified
    by [searchDomain_success_data]: a successful lookup carries its data. *)
Definition pushed (batch : list string) (extension : DomainExtension)
    (index : nat) (result : Settled (ApiResponse DomainSearchResult))
  : list DomainSearchResult :=
  let failed := [mkResult (default EmptyString (batch !! index)) extension false None] in
  match result with
  | Fulfilled value =>
      if success value then
        match data value with
        | Some d => [d]
        | None => failed
        end
      else failed
  | Rejected _ => failed
  end.

(** [for (let i = 0; i < domains.length; i += batchSize) { .. }] *)
Fixpoint batchLoop (fuel : nat) (i : Z) (domains : list string)
    (extension : DomainExtension) (results : list DomainSearchResult)
  : M (list DomainSearchResult) :=
  match fuel with
  | O => fun w => (OutOfFuel, w)
  | S fuel' =>
      if i <? Z.of_nat (length domains) then
        let batch := Js.slice domains i (i + batchSize) in
        let batchPromises := map (fun domain => searchDomain domain extension) batch in
        let* batchResults := allSettled batchPromises in
        batchLoop fuel' (i + batchSize) domains extension
                  (results ++ concat (imap (pushed batch extension) batchResults))
      else ret results
  end.

Definition checkMultipleDomains (domains : list string)
    (extension : DomainExtension) : M (ApiResponse (list DomainSearchResult)) :=
  try_catch
    (let* results := batchLoop (S (length domains)) 0 domains extension [] in
     ret (ok (Some results)))
    (fun error => ret (failure (messageOr error "Batch domain lookup failed"))).

(** ** The hosted tables, as the services query them *)

(** The error of [.single()] when the filter selects no row. *)
Definition PGRST116 : BackendError :=
  mkBackendError "JSON object requested, multiple (or no) rows returned" "PGRST116".

(** The error of an insert that repeats a primary key. *)
Definition duplicate_key : BackendError :=
  mkBackendError "duplicate key value violates unique constraint" "23505".

(** [.single()] on the row a key selects *)
Definition single {A : Type} (row : option A) : Reply A :=
  match row with
  | Some r => mkReply (Some r) None
  | None => mkReply None (Some PGRST116)
  end.

Definition rows_of {K A : Type} `{Countable K} (t : gmap K A) : list A :=
  map snd (map_to_list t).

(** Modelled from the spec: the interface [LessonFilter] of [types]:
    [{ category?, difficulty? }]. *)
Record LessonFilter : Type := mkFilter {
  filter_category : option string;
  filter_difficulty : option string;
}.

(** [if (value) query = query.eq(column, value)]: an absent or empty value
    adds no condition. *)
Definition eq_if_given (value : option string) (column : Lesson -> string)
    (l : Lesson) : bool :=
  match value with
  | Some v => Js.is_empty v || String.eqb (column l) v
  | None => true
  end.

Definition selected (filter : option LessonFilter) (l : Lesson) : bool :=
  String.eqb (status l) "published" &&
  match filter with
  | Some f => eq_if_given (filter_category f) category l &&
              eq_if_given (filter_difficulty f) difficulty l
  | None => true
  end.

Definition newer_first (a b : Lesson) : Prop := created_at b <= created_at a.

#[local] Instance newer_first_dec a b : Decision (newer_first a b) :=
  Z_le_dec (created_at b) (created_at a).

(** [.eq('status', 'published').order('created_at', { ascending: false })]
    with the conditions of the filter *)
Definition published (filter : option LessonFilter) (w : World) : list Lesson :=
  merge_sort newer_first (List.filter (selected filter) (rows_of (lessons w))).

Definition without_author (l : Lesson) : Lesson :=
  mkLesson (lesson_key l) (title l) (category l) (difficulty l) (xp_reward l)
           (status l) (created_at l) (author_id l) None.

(** The embedded [profiles!lessons_author_id_fkey (first_name, last_name)] *)
Definition with_author (w : World) (l : Lesson) : Lesson :=
  mkLesson (lesson_key l) (title l) (category l) (difficulty l) (xp_reward l)
           (status l) (created_at l) (author_id l)
           ((fun p => (first_name p, last_name p)) <$> profiles w !! author_id l).

Definition select_lessons_joined (filter : option LessonFilter) : M (Reply (list Lesson)) :=
  backend (fun w => (mkReply (Some (map (with_author w) (published filter w))) None, w)).

Definition select_lessons (filter : option LessonFilter) : M (Reply (list Lesson)) :=
  backend (fun w => (mkReply (Some (map without_author (published filter w))) None, w)).

Definition select_lesson (lessonId : string) : M (Reply Lesson) :=
  backend (fun w => (single (without_author <$> lessons w !! lessonId), w)).

Definition select_progress (userId lessonId : string) : M (Reply UserProgress) :=
  backend (fun w => (single (user_lesson_progress w !! (userId, lessonId)), w)).

Definition progress_of (userId : string) (w : World) : list UserProgress :=
  List.filter (fun p => String.eqb (user_id p) userId)
              (rows_of (user_lesson_progress w)).

Definition select_all_progress (userId : string) : M (Reply (list UserProgress)) :=
  backend (fun w => (mkReply (Some (progress_of userId w)) None, w)).

(** [.update(row).eq('user_id', u).eq('lesson_id', l).select().single()] *)
Definition update_progress (userId lessonId : string) (row : UserProgress)
  : M (Reply UserProgress) :=
  backend (fun w =>
    match user_lesson_progress w !! (userId, lessonId) with
    | Some _ =>
        let t := <[(user_id row, lesson_id row) := row]>
                   (delete (userId, lessonId) (user_lesson_progress w)) in
        (mkReply (Some row) None, with_progress t w)
    | None => (mkReply None (Some PGRST116), w)
    end).

(** [.insert([row]).select().single()] *)
Definition insert_progress (row : UserProgress) : M (Reply UserProgress) :=
  backend (fun w =>
    match user_lesson_progress w !! (user_id row, lesson_id row) with
    | Some _ => (mkReply None (Some duplicate_key), w)
    | None =>
        (mkReply (Some row) None,
         with_progress (<[(user_id row, lesson_id row) := row]> (user_lesson_progress w)) w)
    end).

Definition select_column (column : Lesson -> string) : M (Reply (list string)) :=
  backend (fun w =>
    (mkReply (Some (map column (List.filter (fun l => String.eqb (status l) "published")
                                            (rows_of (lessons w))))) None, w)).

(** [new Date().toISOString()] *)
Definition current_time : M Z := fun w => (Normal (now w), w).

(** [[...new Set(items)]]: the first occurrence of every item, in order. *)
Fixpoint distinct (seen items : list string) : list string :=
  match items with
  | [] => []
  | x :: rest =>
      if bool_decide (x ∈ seen) then distinct seen rest
      else x :: distinct (x :: seen) rest
  end.

(** ** [LessonsService] *)

(** Modelled from the spec: the interface [UserStats] of [types]:
    [{ totalXP, level, completedLessons, streakDays, badgesEarned }]. *)
Record UserStats : Type := mkStats {
  totalXP : Z;
  level : Z;
  completedLessons : Z;
  streakDays : Z;
  badgesEarned : Z;
}.

Definition fetchLessons (filter : option LessonFilter) : M (ApiResponse (list Lesson)) :=
  try_catch
    (let* first := select_lessons_joined filter in
     let* final :=
       match reply_error first with
       | Some _ => select_lessons filter
       | None => ret first
       end in
     match reply_error final with
     | Some error => ret (failure (be_message error))
     | None => ret (ok (Some (default [] (reply_data final))))
     end)
    (fun error => ret (failure (messageOr error "Failed to fetch lessons"))).

Definition getLesson (lessonId : string) : M (ApiResponse Lesson) :=
  try_catch
    (let* r := select_lesson lessonId in
     match reply_error r with
     | Some error => ret (failure (be_message error))
     | None => ret (ok (reply_data r))
     end)
    (fun error => ret (failure (messageOr error "Failed to fetch lesson"))).

Definition getUserProgress (userId lessonId : string) : M (ApiResponse UserProgress) :=
  try_catch
    (let* r := select_progress userId lessonId in
     match reply_error r with
     | Some error =>
         if negb (String.eqb (be_code error) "PGRST116")
         then ret (failure (be_message error))
         else ret (ok (reply_data r))
     | None => ret (ok (reply_data r))
     end)
    (fun error => ret (failure (messageOr error "Failed to fetch user progress"))).

Definition getAllUserProgress (userId : string) : M (ApiResponse (list UserProgress)) :=
  try_catch
    (let* r := select_all_progress userId in
     match reply_error r with
     | Some error => ret (failure (be_message error))
     | None => ret (ok (reply_data r))
     end)
    (fun error => ret (failure (messageOr error "Failed to fetch user progress"))).

(** The [progressData] object of [updateProgress], for an integer
    percentage. *)
Definition progressData (userId lessonId : string) (progress : Z) (date : Z)
  : UserProgress :=
  mkProgress userId lessonId
             (Z.min (Z.max progress 0) 100)
             (100 <=? progress)
             (if 100 <=? progress then Some date else None).

Definition updateProgress (userId lessonId : string) (progress : Z)
  : M (ApiResponse UserProgress) :=
  try_catch
    (let* existingProgress := getUserProgress userId lessonId in
     let* date := current_time in
     let row := progressData userId lessonId progress date in
     let* result :=
       match data existingProgress with
       | Some _ => update_progress userId lessonId row
       | None => insert_progress row
       end in
     match reply_error result with
     | Some error => ret (failure (be_message error))
     | None => ret (ok (reply_data result))
     end)
    (fun error => ret (failure (messageOr error "Failed to update progress"))).

(** *** The percentage as the double it is

    [updateProgress] receives a JavaScript [number], an IEEE double, and does
    no arithmetic on it: it only compares ([>=]) and selects ([Math.max],
    [Math.min]).  For that a double is the value it denotes: a finite double
    is a rational number, and beside the finite doubles there are the two
    infinities and NaN.  The two zeros denote the same value;
    [Math.max(-0, 0)] is [+0], so no negative zero leaves the clamp. *)

Module Numbers.

Inductive number : Type :=
| NaN
| Infinity (negative : bool)
| Finite (value : QArith_base.Q).

Definition of_Z (z : Z) : number := Finite (QArith_base.inject_Z z).

(** [a <= b]: false as soon as one side is NaN. *)
Definition le (a b : number) : bool :=
  match a, b with
  | NaN, _ | _, NaN => false
  | Infinity true, _ => true
  | _, Infinity false => true
  | Infinity false, _ => false
  | _, Infinity true => false
  | Finite x, Finite y => QArith_base.Qle_bool x y
  end.

(** [a >= b]. *)
Definition ge (a b : number) : bool := le b a.

(** [Math.max(a, b)]: NaN as soon as one argument is NaN. *)
Definition Math_max (a b : number) : number :=
  match a, b with
  | NaN, _ | _, NaN => NaN
  | _, _ => if le a b then b else a
  end.

(** [Math.min(a, b)]: NaN as soon as one argument is NaN. *)
Definition Math_min (a b : number) : number :=
  match a, b with
  | NaN, _ | _, NaN => NaN
  | _, _ => if le a b then a else b
  end.

(** The object [progressData] that [updateProgress] builds (l. 387-393)
    and hands to [update] or [insert], with [progress] as the number it
    is. *)
Record ProgressData : Type := mkProgressData {
  user_id : string;
  lesson_id : string;
  progress : number;
  completed : bool;
  completed_at : option Z;
}.

Definition progressData (userId lessonId : string) (progress : number) (date : Z)
  : ProgressData :=
  mkProgressData userId lessonId
                 (Math_min (Math_max progress (of_Z 0)) (of_Z 100))
                 (ge progress (of_Z 100))
                 (if ge progress (of_Z 100) then Some date else None).

End Numbers.

(** A row with an integer percentage, as the object that is written. *)
Definition written (row : UserProgress) : Numbers.ProgressData :=
  Numbers.mkProgressData (user_id row) (lesson_id row)
                         (Numbers.of_Z (progress row))
                         (completed row) (completed_at row).

Definition completeLesson (userId lessonId : string) : M (ApiResponse UserProgress) :=
  try_catch
    (let* lessonResult := getLesson lessonId in
     if negb (success lessonResult) || negb (bool_decide (is_Some (data lessonResult)))
     then ret (failure "Lesson not found")
     else
       let* progressResult := updateProgress userId lessonId 100 in
       if negb (success progressResult) then ret progressResult
       else ret progressResult)
    (fun error => ret (failure (messageOr error "Failed to complete lesson"))).

Definition getUserStats (userId : string) : M (ApiResponse UserStats) :=
  try_catch
    (let* progressResult := getAllUserProgress userId in
     if negb (success progressResult) then
       ret (failure (orElse (error progressResult) "Failed to fetch user stats"))
     else
       let allProgress := default [] (data progressResult) in
       let completedLessons := Z.of_nat (length (List.filter completed allProgress)) in
       let totalXP := completedLessons * 50 in
       let level := totalXP / 200 + 1 in
       let stats := mkStats totalXP level completedLessons 0 (completedLessons / 5) in
       ret (ok (Some stats)))
    (fun error => ret (failure (messageOr error "Failed to calculate user stats"))).

(** [data.map(..)] on the reply of a column query; [data] is null only
    together with an error, and reading [map] of null throws. *)
Definition column_values (r : Reply (list string)) : M (list string) :=
  match reply_data r with
  | Some items => ret items
  | None => throw (ErrorObject "Cannot read property 'map' of null")
  end.

Definition getCategories : M (ApiResponse (list string)) :=
  try_catch
    (let* r := select_column category in
     match reply_error r with
     | Some error => ret (failure (be_message error))
     | None =>
         let* items := column_values r in
         ret (ok (Some (distinct [] items)))
     end)
    (fun error => ret (failure (messageOr error "Failed to fetch categories"))).

Definition getDifficultyLevels : M (ApiResponse (list string)) :=
  try_catch
    (let* r := select_column difficulty in
     match reply_error r with
     | Some error => ret (failure (be_message error))
     | None =>
         let* items := column_values r in
         ret (ok (Some (distinct [] items)))
     end)
    (fun error => ret (failure (messageOr error "Failed to fetch difficulty levels"))).

(** ** [AuthService] *)

(** Modelled from the spec: the interface [LoginForm] of [types]. *)
Record LoginForm : Type := mkLogin {
  login_email : string;
  login_password : string;
}.

(** Modelled from the spec: the interface [SignUpForm] of [types]. *)
Record SignUpForm : Type := mkSignUp {
  signup_email : string;
  signup_password : string;
  firstName : string;
  lastName : string;
  signup_organization : string;
}.

(** [Partial<Profile>] *)
Record ProfileUpdates : Type := mkUpdates {
  upd_id : option string;
  upd_email : option string;
  upd_first_name : option string;
  upd_last_name : option string;
  upd_role : option string;
  upd_organization : option (option string);
}.

Definition apply_updates (u : ProfileUpdates) (p : Profile) : Profile :=
  mkProfile (default (profile_id p) (upd_id u))
            (default (profile_email p) (upd_email u))
            (default (first_name p) (upd_first_name u))
            (default (last_name p) (upd_last_name u))
            (default (role p) (upd_role u))
            (default (organization p) (upd_organization u)).

(** The identity provider answers a sign-in, a sign-up and [getUser] with
    the user it holds for the caller, if any. *)
Definition auth_signInWithPassword (email password : string) : M (Reply User) :=
  backend (fun w => (mkReply (provider_user w) None, w)).

Definition auth_signUp (email password : string) (metadata : Profile) : M (Reply User) :=
  backend (fun w => (mkReply (provider_user w) None, w)).

(** The client of [src/supabase.ts] is created with [storage: AsyncStorage]
    and [persistSession: true]: the provider's library keeps the session in
    the local storage, under keys that begin with its storage key, which is
    "sb-", the project reference of [supabaseUrl] and "-auth-token" unless
    the options name another (they do not). *)
Definition storageKey : string := "sb-qcweatwzraxnngihypth-auth-token".

Definition provider_entry (key : string) : bool := Js.startsWith storageKey key.

(** The storage without the entries of the provider. *)
Definition without_session (store : gmap string string) : gmap string string :=
  filter (fun entry => provider_entry entry.1 = false) store.

(** A sign-out the provider accepts removes the session from the storage. *)
Definition auth_signOut : M (Reply unit) :=
  backend (fun w =>
             (mkReply (Some tt) None,
              with_storage (without_session (storage w)) w)).

Definition auth_getUser : M (Reply User) :=
  backend (fun w => (mkReply (provider_user w) None, w)).

(** [AsyncStorage.clear()]: a rejected promise is thrown by [await]. *)
Definition asyncStorage_clear : M unit :=
  let* r := backend (fun w => (mkReply (Some tt) None, with_storage ∅ w)) in
  match reply_error r with
  | Some error => throw (ErrorObject (be_message error))
  | None => ret tt
  end.

Definition select_profile (userId : string) : M (Reply Profile) :=
  backend (fun w => (single (profiles w !! userId), w)).

Definition insert_profile (profile : Profile) : M (Reply Profile) :=
  backend (fun w =>
    match profiles w !! profile_id profile with
    | Some _ => (mkReply None (Some duplicate_key), w)
    | None =>
        (mkReply (Some profile) None,
         with_profiles (<[profile_id profile := profile]> (profiles w)) w)
    end).

Definition update_profile (userId : string) (updates : ProfileUpdates)
  : M (Reply Profile) :=
  backend (fun w =>
    match profiles w !! userId with
    | Some old =>
        let new := apply_updates updates old in
        let others := delete userId (profiles w) in
        match others !! profile_id new with
        | Some _ => (mkReply None (Some duplicate_key), w)
        | None =>
            (mkReply (Some new) None,
             with_profiles (<[profile_id new := new]> others) w)
        end
    | None => (mkReply None (Some PGRST116), w)
    end).

Definition getProfile (userId : string) : M (ApiResponse Profile) :=
  try_catch
    (let* r := select_profile userId in
     match reply_error r with
     | Some error => ret (failure (be_message error))
     | None => ret (ok (reply_data r))
     end)
    (fun error => ret (failure (messageOr error "Failed to fetch profile"))).

Definition createProfile (profile : Profile) : M (ApiResponse Profile) :=
  try_catch
    (let* r := insert_profile profile in
     match reply_error r with
     | Some error => ret (failure (be_message error))
     | None => ret (ok (reply_data r))
     end)
    (fun error => ret (failure (messageOr error "Failed to create profile"))).

Definition updateProfile (userId : string) (updates : ProfileUpdates)
  : M (ApiResponse Profile) :=
  try_catch
    (let* r := update_profile userId updates in
     match reply_error r with
     | Some error => ret (failure (be_message error))
     | None => ret (ok (reply_data r))
     end)
    (fun error => ret (failure (messageOr error "Failed to update profile"))).

Definition signIn (credentials : LoginForm) : M (ApiResponse AuthUser) :=
  try_catch
    (let* r := auth_signInWithPassword (login_email credentials)
                                       (login_password credentials) in
     match reply_error r with
     | Some error => ret (failure (be_message error))
     | None =>
         match reply_data r with
         | None => ret (failure "Authentication failed")
         | Some user =>
             let* profile := getProfile (user_id_of user) in
             let authUser := mkAuthUser (user_id_of user)
                                        (orElse (user_email user) "")
                                        (data profile) in
             ret (ok (Some authUser))
         end
     end)
    (fun error => ret (failure (messageOr error "Authentication failed"))).

Definition signUp (formData : SignUpForm) : M (ApiResponse AuthUser) :=
  try_catch
    (let* r := auth_signUp (signup_email formData) (signup_password formData)
                 (mkProfile "" (signup_email formData) (firstName formData)
                            (lastName formData) "student"
                            (Some (signup_organization formData))) in
     match reply_error r with
     | Some error => ret (failure (be_message error))
     | None =>
         match reply_data r with
         | None => ret (failure "Registration failed")
         | Some user =>
             let* profileResult :=
               createProfile
                 (mkProfile (user_id_of user) (signup_email formData)
                            (firstName formData) (lastName formData) "student"
                            (Some (signup_organization formData))) in
             let authUser := mkAuthUser (user_id_of user)
                                        (orElse (user_email user) "")
                                        (data profileResult) in
             ret (ok (Some authUser))
         end
     end)
    (fun error => ret (failure (messageOr error "Registration failed"))).

Definition signOut : M (ApiResponse unit) :=
  try_catch
    (let* r := auth_signOut in
     match reply_error r with
     | Some error => ret (failure (be_message error))
     | None =>
         let* _ := asyncStorage_clear in
         ret (ok None)
     end)
    (fun error => ret (failure (messageOr error "Sign out failed"))).

Definition getCurrentUser : M (ApiResponse AuthUser) :=
  try_catch
    (let* r := auth_getUser in
     match reply_data r with
     | None => ret (ok None)
     | Some user =>
         let* profile := getProfile (user_id_of user) in
         let authUser := mkAuthUser (user_id_of user)
                                    (orElse (user_email user) "")
                                    (data profile) in
         ret (ok (Some authUser))
     end)
    (fun error => ret (failure (messageOr error "Failed to get current user"))).

(** ** The operations of the three services, and the shape of what they
    return *)

(** The property names of a returned object. *)
Class JsObject (A : Type) : Type := keys : A -> list string.

Definition present {A : Type} (name : string) (field : option A) : list string :=
  match field with
  | Some _ => [name]
  | None => []
  end.

#[export] Instance ApiResponse_object (T : Type) : JsObject (ApiResponse T) :=
  fun r => "success" :: present "data" (data r) ++ present "error" (error r).

#[export] Instance Validation_object : JsObject Validation :=
  fun v => "isValid" :: present "error" (invalid_error v).

#[export] Instance RegistrarPage_object : JsObject RegistrarPage :=
  fun _ => ["registrars"; "hasMore"; "total"].

(** The uniform result shape [{ success: boolean, data?, error?: string }]. *)
Definition uniform_shape {A : Type} `{JsObject A} (a : A) : Prop :=
  "success" ∈ keys a ∧ ∀ k : string, k ∈ keys a → k ∈ ["success"; "data"; "error"].

(** The asynchronous methods of [AuthService], [LessonsService] and
    [DomainsService], with their arguments. *)
Inductive Operation : Type :=
| OpSignIn (credentials : LoginForm)
| OpSignUp (formData : SignUpForm)
| OpSignOut
| OpGetCurrentUser
| OpGetProfile (userId : string)
| OpCreateProfile (profile : Profile)
| OpUpdateProfile (userId : string) (updates : ProfileUpdates)
| OpFetchLessons (filter : option LessonFilter)
| OpGetLesson (lessonId : string)
| OpGetUserProgress (userId lessonId : string)
| OpGetAllUserProgress (userId : string)
| OpUpdateProgress (userId lessonId : string) (progress : Z)
| OpCompleteLesson (userId lessonId : string)
| OpGetUserStats (userId : string)
| OpGetCategories
| OpGetDifficultyLevels
| OpSearchDomain (domain : string) (extension : DomainExtension)
| OpCheckMultipleDomains (domains : list string) (extension : DomainExtension).

(** The result of a method with its payload forgotten. *)
Definition outline {T : Type} (m : M (ApiResponse T)) : M (ApiResponse unit) :=
  let* r := m in
  ret (mkApiResponse (success r) ((fun _ => tt) <$> data r) (error r)).

Definition perform (op : Operation) : M (ApiResponse unit) :=
  match op with
  | OpSignIn credentials => outline (signIn credentials)
  | OpSignUp formData => outline (signUp formData)
  | OpSignOut => outline signOut
  | OpGetCurrentUser => outline getCurrentUser
  | OpGetProfile userId => outline (getProfile userId)
  | OpCreateProfile profile => outline (createProfile profile)
  | OpUpdateProfile userId updates => outline (updateProfile userId updates)
  | OpFetchLessons filter => outline (fetchLessons filter)
  | OpGetLesson lessonId => outline (getLesson lessonId)
  | OpGetUserProgress userId lessonId => outline (getUserProgress userId lessonId)
  | OpGetAllUserProgress userId => outline (getAllUserProgress userId)
  | OpUpdateProgress userId lessonId progress =>
      outline (updateProgress userId lessonId progress)
  | OpCompleteLesson userId lessonId => outline (completeLesson userId lessonId)
  | OpGetUserStats userId => outline (getUserStats userId)
  | OpGetCategories => outline getCategories
  | OpGetDifficultyLevels => outline getDifficultyLevels
  | OpSearchDomain domain extension => outline (searchDomain domain extension)
  | OpCheckMultipleDomains domains extension =>
      outline (checkMultipleDomains domains extension)
  end.

(** A world with empty tables, a healthy backend and an unreachable
    network. *)
Definition quiet : World :=
  mkWorld ∅ ∅ ∅ None ∅ 0 [] (fun _ _ => Unreachable (ErrorObject "Network request failed")) [].

(** ** Notions used to state the properties *)

(** The string [validateDomainName] examines. *)
Definition cleaned (domain : string) : string := Js.trim (Js.toLowerCase domain).

(** First and last code unit of a string. *)
Definition first_char (s : string) : option ascii :=
  match s with
  | EmptyString => None
  | String c _ => Some c
  end.

Fixpoint last_char (s : string) : option ascii :=
  match s with
  | EmptyString => None
  | String c EmptyString => Some c
  | String _ s' => last_char s'
  end.

Definition hyphen : ascii := ascii_of_N 45.

(** Acceptance decided on the lower-cased input alone, without trimming. *)
Definition accepts_lowercased_label (s : string) : Prop :=
  isValid (validateDomainName s) = true <->
  Js.Matches domainRegex (Js.toLowerCase s) /\ 1 <= Js.length s <= 63.

(** The pages of the directory for a page size: pages 1 to [pageCount]. *)
Definition pageCount (limit : Z) : Z :=
  (Z.of_nat (length kenicRegistrars) + limit - 1) / limit.

Definition out_of_range (page limit : Z) : Prop :=
  page < 1 \/ pageCount limit < page.

(** An out-of-range page is empty and is not followed by another. *)
Definition empty_when_out_of_range (page limit : Z) : Prop :=
  out_of_range page limit ->
  registrars (getRegistrarsPaginated page limit) = [] /\
  hasMore (getRegistrarsPaginated page limit) = false.

(** The slices of pages 1, 2, .., n, one after the other. *)
Fixpoint pages_upto (n : nat) (limit : Z) : list KenicRegistrar :=
  match n with
  | O => []
  | S n' => pages_upto n' limit ++ registrars (getRegistrarsPaginated (Z.of_nat n) limit)
  end.

(** A list cut into consecutive pieces of [n] elements, the last one
    possibly shorter. *)
Fixpoint chunks {A : Type} (fuel n : nat) (l : list A) : list (list A) :=
  match fuel with
  | O => []
  | S fuel' =>
      match l with
      | [] => []
      | _ :: _ => take n l :: chunks fuel' n (drop n l)
      end
  end.

Definition batches (domains : list string) : list (list string) :=
  chunks (S (length domains)) 5 domains.

Definition lookup_request (extension : DomainExtension) (label : string)
  : DomainLookupRequest :=
  mkLookup (cleaned label) extension.

(** The events of one batch: its lookups in order, then the join. *)
Definition batch_events (extension : DomainExtension) (batch : list string)
  : list Event :=
  map (fun d => EvFetch (lookup_request extension d)) batch
  ++ [EvAllSettled (length batch)].

(** The place in the log of the lookup of the label at [position]: the
    lookups of the labels before it and the joins of the batches completed
    before it precede it. *)
Definition issued_at (w : World) (position : nat) : nat :=
  length (log w) + position + position / 5.

(** The entry that stands for a failed lookup. *)
Definition unavailable (label : string) (extension : DomainExtension)
  : DomainSearchResult :=
  mkResult label extension false None.

(** What [searchDomain] resolves to, by the outcome of its request. *)
Definition answer (label : string) (extension : DomainExtension) (outcome : Wire)
  : ApiResponse DomainSearchResult :=
  match outcome with
  | Unreachable e => failure (messageOr e "Domain lookup failed")
  | Answered r =>
      if response_ok r then
        match body r with
        | Garbled e => failure (messageOr e "Domain lookup failed")
        | Json available =>
            ok (Some (mkResult (cleaned label) extension available
                               (if available then Some kenicRegistrars else None)))
        end
      else failure ("HTTP error: " +:+ Js.show (status_code r))
  end.

(** The entry of a label whose lookup resolved to [r]. *)
Definition entry_for (label : string) (extension : DomainExtension)
    (r : ApiResponse DomainSearchResult) : DomainSearchResult :=
  if success r then default (unavailable label extension) (data r)
  else unavailable label extension.

(** A world with one published lesson, six progress rows of user "u1"
    (five of them completed), one row of user "u2", a healthy backend and
    a network that answers every lookup with "available". *)
Definition classroom : World :=
  mkWorld ∅
    {[ "l1" := mkLesson "l1" "Variables" "basics" "beginner" 50 "published" 1 "a1" None ]}
    (list_to_map [
       (("u1", "l1"), mkProgress "u1" "l1" 100 true (Some 3));
       (("u1", "l2"), mkProgress "u1" "l2" 100 true (Some 4));
       (("u1", "l3"), mkProgress "u1" "l3" 100 true (Some 5));
       (("u1", "l4"), mkProgress "u1" "l4" 100 true (Some 6));
       (("u1", "l5"), mkProgress "u1" "l5" 100 true (Some 7));
       (("u1", "l6"), mkProgress "u1" "l6" 40 false None);
       (("u2", "l1"), mkProgress "u2" "l1" 100 true (Some 8)) ])
    None ∅ 9 [] (fun _ _ => Answered (mkResponse 200 (Json true))) [].

(** A result either succeeds without an error message or fails with
    one. *)
Definition well_formed {T : Type} (r : ApiResponse T) : Prop :=
  (success r = true /\ error r = None) \/
  (success r = false /\ is_Some (error r)).

(** [m] always completes normally, with a value that satisfies [P]. *)
Definition returns {A : Type} (P : A -> Prop) (m : M A) : Prop :=
  forall w, exists a w', m w = (Normal a, w') /\ P a.

(** [m] always completes, normally with a value that satisfies [P] or by
    throwing. *)
Definition completes {A : Type} (P : A -> Prop) (m : M A) : Prop :=
  forall w, (exists a w', m w = (Normal a, w') /\ P a) \/
            (exists e w', m w = (Throw e, w')).

Definition anything {A : Type} (a : A) : Prop := True.

(** The next backend call is served. *)
Definition served (w : World) : Prop :=
  match faults w with
  | [] | Healthy :: _ => True
  | _ => False
  end.

(** The world after the next backend call has been served. *)
Definition after_call (w : World) : World :=
  match faults w with
  | [] => w
  | _ :: fs => with_faults fs w
  end.

(** ** The remaining operations of [DomainsService] *)

(** [s.split(separator)] for a separator of one code unit: the pieces
    between the occurrences of the separator, at least one piece. *)
Fixpoint split (separator : ascii) (s : string) : list string :=
  match s with
  | EmptyString => [EmptyString]
  | String c s' =>
      if Ascii.eqb c separator then EmptyString :: split separator s'
      else
        match split separator s' with
        | piece :: pieces => String c piece :: pieces
        | [] => [String c EmptyString]
        end
  end.

(** A value placed in a template literal: [undefined] prints as
    "undefined". *)
Definition printed (value : option string) : string :=
  default "undefined" value.

(** [kenicRegistrars.find(registrar => registrar.id === id) || null] *)
Definition getRegistrar (id : string) : option KenicRegistrar :=
  List.find (fun registrar => String.eqb (reg_id registrar) id) kenicRegistrars.

(** [formatRegistrarUrl], of [DomainsService] and of [config/registrars]
    alike. *)
Definition formatRegistrarUrl (email : string) : string :=
  let domain := split "@" email !! 1%nat in
  "https://" +:+ printed domain.

Definition getSuggestedDomains (baseDomain : string) : list string :=
  let suggestions := [
    baseDomain;
    baseDomain +:+ "ke";
    baseDomain +:+ "online";
    "my" +:+ baseDomain;
    baseDomain +:+ "site";
    baseDomain +:+ "web"
  ] in
  List.filter (fun suggestion => isValid (validateDomainName suggestion)) suggestions.

(** Decimal rendering of an integer, as in a template literal. *)
Definition showZ (z : Z) : string :=
  if z <? 0 then "-" +:+ Js.show (Z.to_N (- z)) else Js.show (Z.to_N z).

(** ** [AuthContext]: the session state shared by the screens *)

Module AuthContext.

(** [AuthState]: [{ user, loading, error }] *)
Record AuthState : Type := mkAuthState {
  state_user : option AuthUser;
  state_loading : bool;
  state_error : option string;
}.

(** What [signIn] and [signUp] resolve to: [{ success, error? }]. *)
Record Outcome : Type := mkOutcome {
  outcome_success : bool;
  outcome_error : option string;
}.

(** The effect of the start-up check on the state. *)
Definition checkAuthState : M AuthState :=
  try_catch
    (let* result := getCurrentUser in
     ret (mkAuthState (data result) false
            (if success result then None
             else Some (orElse (error result) "Authentication check failed"))))
    (fun error =>
       ret (mkAuthState None false
              (Some (messageOr error "Authentication check failed")))).

Definition signIn (email password : string) (authState : AuthState)
  : M (Outcome * AuthState) :=
  let prev := mkAuthState (state_user authState) true None in
  try_catch
    (let* result := signIn (mkLogin email password) in
     if success result then
       ret (mkOutcome true None, mkAuthState (data result) false None)
     else
       ret (mkOutcome false (error result),
            mkAuthState (state_user prev) false
                        (Some (orElse (error result) "Sign in failed"))))
    (fun error =>
       let errorMessage := messageOr error "Sign in failed" in
       ret (mkOutcome false (Some errorMessage),
            mkAuthState (state_user prev) false (Some errorMessage))).

Definition signUp (formData : SignUpForm) (authState : AuthState)
  : M (Outcome * AuthState) :=
  let prev := mkAuthState (state_user authState) true None in
  try_catch
    (let* result := signUp formData in
     if success result then
       ret (mkOutcome true None, mkAuthState (data result) false None)
     else
       ret (mkOutcome false (error result),
            mkAuthState (state_user prev) false
                        (Some (orElse (error result) "Sign up failed"))))
    (fun error =>
       let errorMessage := messageOr error "Sign up failed" in
       ret (mkOutcome false (Some errorMessage),
            mkAuthState (state_user prev) false (Some errorMessage))).

Definition signOut (authState : AuthState) : M AuthState :=
  let prev := mkAuthState (state_user authState) true (state_error authState) in
  try_catch
    (let* _ := signOut in
     ret (mkAuthState None false None))
    (fun error =>
       ret (mkAuthState (state_user prev) false
                        (Some (messageOr error "Sign out failed")))).

Definition refreshUser (authState : AuthState) : M AuthState :=
  match state_user authState with
  | None => ret authState
  | Some _ =>
      try_catch
        (let* result := getCurrentUser in
         if success result then
           match data result with
           | Some user =>
               ret (mkAuthState (Some user) (state_loading authState)
                                (state_error authState))
           | None => ret authState
           end
         else ret authState)
        (fun _ => ret authState)
  end.

End AuthContext.

(** ** [DomainsScreen] *)

Module DomainsScreen.

(** The state of the screen, one field per [useState]. *)
Record Screen : Type := mkScreen {
  searchTerm : string;
  selectedExtension : DomainExtension;
  searchResult : option DomainSearchResult;
  listed : list KenicRegistrar;       (* [registrars] *)
  loading : bool;
  message : option string;            (* [error] *)
  showRegistrars : bool;
  registrarPage : Z;
}.

Definition setError (e : option string) (st : Screen) : Screen :=
  mkScreen (searchTerm st) (selectedExtension st) (searchResult st) (listed st)
           (loading st) e (showRegistrars st) (registrarPage st).

Definition setLoading (b : bool) (st : Screen) : Screen :=
  mkScreen (searchTerm st) (selectedExtension st) (searchResult st) (listed st)
           b (message st) (showRegistrars st) (registrarPage st).

Definition setSearchResult (r : option DomainSearchResult) (st : Screen) : Screen :=
  mkScreen (searchTerm st) (selectedExtension st) r (listed st)
           (loading st) (message st) (showRegistrars st) (registrarPage st).

Definition setRegistrars (l : list KenicRegistrar) (st : Screen) : Screen :=
  mkScreen (searchTerm st) (selectedExtension st) (searchResult st) l
           (loading st) (message st) (showRegistrars st) (registrarPage st).

Definition setShowRegistrars (b : bool) (st : Screen) : Screen :=
  mkScreen (searchTerm st) (selectedExtension st) (searchResult st) (listed st)
           (loading st) (message st) b (registrarPage st).

Definition setRegistrarPage (n : Z) (st : Screen) : Screen :=
  mkScreen (searchTerm st) (selectedExtension st) (searchResult st) (listed st)
           (loading st) (message st) (showRegistrars st) n.

(** The body of the [try] block of [handleSearch], from the state [st]
    reached before it.  A result without data makes the read of
    [result.data!.available] throw after the search result has been set;
    that path ends in the [catch] clause and is written out here. *)
Definition searched (st : Screen) : M Screen :=
  let* result := searchDomain (Js.trim (Js.toLowerCase (searchTerm st)))
                              (selectedExtension st) in
  if success result then
    match data result with
    | Some found =>
        let st1 := setSearchResult (Some found) st in
        if res_available found then
          let allRegistrars := registrars (getRegistrarsPaginated 1 20) in
          ret (setRegistrarPage 1 (setShowRegistrars true (setRegistrars allRegistrars st1)))
        else ret (setShowRegistrars false st1)
    | None =>
        ret (setError (Some "An unexpected error occurred") (setSearchResult None st))
    end
  else ret (setError (Some (orElse (error result) "Search failed")) st).

Definition handleSearch (st : Screen) : M Screen :=
  let validation := validateDomainName (searchTerm st) in
  if negb (isValid validation) then
    ret (setError (Some (orElse (invalid_error validation) "Invalid domain name")) st)
  else
    let st1 := setError None (setLoading true st) in
    let* st2 :=
      try_catch (searched st1)
        (fun _ => ret (setError (Some "An unexpected error occurred") st1)) in
    ret (setLoading false st2).

Definition loadMoreRegistrars (st : Screen) : Screen :=
  let nextPage := registrarPage st + 1 in
  let page := getRegistrarsPaginated nextPage 10 in
  if hasMore page then
    setRegistrarPage nextPage (setRegistrars (listed st ++ registrars page) st)
  else st.

End DomainsScreen.

(** ** [LessonDetailScreen] *)

Module LessonDetailScreen.

(** [Alert.alert(title, message)] *)
Record Alert : Type := mkAlert {
  alert_title : string;
  alert_message : string;
}.

(** The state of the screen the handlers read and write. *)
Record Screen : Type := mkScreen {
  lesson : option Lesson;
  shown : option UserProgress;        (* [progress] *)
  updating : bool;
}.

Definition setProgress (p : option UserProgress) (st : Screen) : Screen :=
  mkScreen (lesson st) p (updating st).

Definition setUpdating (b : bool) (st : Screen) : Screen :=
  mkScreen (lesson st) (shown st) b.

Definition handleStartLesson (user : option AuthUser) (st : Screen)
  : M (Screen * option Alert) :=
  match user, lesson st with
  | Some user, Some lesson =>
      let st1 := setUpdating true st in
      let* r :=
        try_catch
          (let* result := updateProgress (auth_id user) (lesson_key lesson) 10 in
           if success result then
             ret (setProgress (data result) st1,
                  Some (mkAlert "Lesson Started"
                                "You have started this lesson. Good luck!"))
           else
             ret (st1, Some (mkAlert "Error"
                               (orElse (error result) "Failed to start lesson"))))
          (fun _ => ret (st1, Some (mkAlert "Error" "An unexpected error occurred"))) in
      ret (setUpdating false (fst r), snd r)
  | _, _ => ret (st, None)
  end.

Definition handleContinueLesson (user : option AuthUser) (st : Screen)
  : M (Screen * option Alert) :=
  match user, lesson st, shown st with
  | Some user, Some lesson, Some current =>
      let st1 := setUpdating true st in
      let* r :=
        try_catch
          (let newProgress := Z.min (progress current + 20) 100 in
           let* result := updateProgress (auth_id user) (lesson_key lesson) newProgress in
           if success result then
             ret (setProgress (data result) st1,
                  Some (if 100 <=? newProgress then
                          mkAlert "Congratulations!"
                            ("You completed this lesson and earned "
                             +:+ showZ (xp_reward lesson) +:+ " XP!")
                        else
                          mkAlert "Progress Updated"
                            ("Lesson progress: " +:+ showZ newProgress +:+ "%")))
           else
             ret (st1, Some (mkAlert "Error"
                               (orElse (error result) "Failed to update progress"))))
          (fun _ => ret (st1, Some (mkAlert "Error" "An unexpected error occurred"))) in
      ret (setUpdating false (fst r), snd r)
  | _, _, _ => ret (st, None)
  end.

End LessonDetailScreen.

(** ** Display names *)

Module DashboardScreen.

Definition getDisplayName (user : option AuthUser) : string :=
  match user ≫= auth_profile with
  | Some profile =>
      if negb (Js.is_empty (first_name profile)) then first_name profile
      else orElse ((fun u => default EmptyString (split "@" (auth_email u) !! 0%nat)) <$> user)
                  "Student"
  | None =>
      orElse ((fun u => default EmptyString (split "@" (auth_email u) !! 0%nat)) <$> user)
             "Student"
  end.

End DashboardScreen.

Module ProfileScreen.

Definition getDisplayName (user : option AuthUser) : string :=
  match user ≫= auth_profile with
  | Some profile =>
      if negb (Js.is_empty (first_name profile)) && negb (Js.is_empty (last_name profile))
      then first_name profile +:+ " " +:+ last_name profile
      else orElse (auth_email <$> user) "Student"
  | None => orElse (auth_email <$> user) "Student"
  end.

End ProfileScreen.

(** ** Notions used to state the further properties *)

(** Every row of [user_lesson_progress] is filed under its own pair. *)
Definition consistent (w : World) : Prop :=
  forall k row,
    user_lesson_progress w !! k = Some row -> k = (user_id row, lesson_id row).

(** The number of completed rows of a user. *)
Definition completedCount (userId : string) (w : World) : Z :=
  Z.of_nat (length (List.filter completed (progress_of userId w))).

(* ===================================================================== *)
(** * Part II: properties *)
(* ===================================================================== *)

(** ** Strings and regular expressions *)

Section JsFacts.
Import Js.

Lemma append_cons c (s t : string) : String c s +:+ t = String c (s +:+ t).
Proof. reflexivity. Qed.

Lemma append_empty_l (s : string) : EmptyString +:+ s = s.
Proof. reflexivity. Qed.

Lemma append_empty_r (s : string) : s +:+ EmptyString = s.
Proof.
  induction s as [|c s IH]; [reflexivity |].
  rewrite append_cons. now f_equal.
Qed.

Lemma append_is_empty (s1 s2 : string) :
  s1 +:+ s2 = EmptyString -> s1 = EmptyString /\ s2 = EmptyString.
Proof.
  destruct s1; [rewrite append_empty_l; tauto |].
  rewrite append_cons. discriminate.
Qed.

Lemma append_is_cons (s1 s2 : string) c s :
  s1 +:+ s2 = String c s ->
  (s1 = EmptyString /\ s2 = String c s) \/
  (exists s1', s1 = String c s1' /\ s = s1' +:+ s2).
Proof.
  destruct s1 as [|d s1]; [rewrite append_empty_l; now left |].
  rewrite append_cons. intros E.
  injection E as -> <-. right. now exists s1.
Qed.

Lemma nullable_matches (r : regex) :
  nullable r = true <-> Matches r EmptyString.
Proof.
  split.
  - induction r; simpl; intros E; try discriminate.
    + constructor.
    + apply andb_true_iff in E as [E1 E2].
      change EmptyString with (EmptyString +:+ EmptyString).
      constructor; auto.
    + apply orb_true_iff in E as [E|E]; [apply MAltL | apply MAltR]; auto.
    + constructor.
  - intros H. remember EmptyString as s eqn:Es.
    induction H; simpl; try reflexivity; try discriminate.
    + apply append_is_empty in Es as [-> ->].
      rewrite IHMatches1, IHMatches2; auto.
    + rewrite IHMatches; auto.
    + rewrite IHMatches; auto. apply orb_true_r.
Qed.

Lemma residual_sound (r : regex) c s :
  Matches (residual c r) s -> Matches r (String c s).
Proof.
  revert s. induction r; simpl; intros s H.
  - inversion H.
  - inversion H.
  - destruct (cls c) eqn:E; inversion H; subst. now constructor.
  - destruct (nullable r1) eqn:N.
    + inversion H as [| |? ? ? ? | ? ? ? H1 | ? ? ? H1 | |]; subst.
      * inversion H1; subst.
        change (String c (s1 +:+ s2)) with (String c s1 +:+ s2).
        constructor; auto.
      * change (String c s) with (EmptyString +:+ String c s).
        constructor; auto. now apply nullable_matches.
    + inversion H; subst.
      change (String c (s1 +:+ s2)) with (String c s1 +:+ s2).
      constructor; auto.
  - inversion H; subst; [apply MAltL | apply MAltR]; auto.
  - inversion H; subst.
    change (String c (s1 +:+ s2)) with (String c s1 +:+ s2).
    constructor; auto.
Qed.

Lemma residual_complete (r : regex) c s :
  Matches r (String c s) -> Matches (residual c r) s.
Proof.
  intros H. remember (String c s) as t eqn:Et. revert s Et.
  induction H; intros t Et; simpl; try discriminate.
  - injection Et as -> <-. rewrite H. constructor.
  - apply append_is_cons in Et as [[-> ->] | (s1' & -> & ->)].
    + assert (N : nullable r1 = true) by now apply nullable_matches.
      rewrite N. apply MAltR. auto.
    + destruct (nullable r1); [apply MAltL |]; constructor; auto.
  - apply MAltL. auto.
  - apply MAltR. auto.
  - apply append_is_cons in Et as [[-> ->] | (s1' & -> & ->)].
    + apply IHMatches2. reflexivity.
    + constructor; auto.
Qed.

(** [test] decides the language of the pattern. *)
Lemma test_matches (r : regex) (s : string) :
  test r s = true <-> Matches r s.
Proof.
  revert r. induction s as [|c s IH]; intros r; simpl.
  - apply nullable_matches.
  - rewrite IH. split; [apply residual_sound | apply residual_complete].
Qed.

End JsFacts.

(** ** [validateDomainName] *)

Section Labels.
Import Js.

Lemma chars_append (s t : string) : chars (s +:+ t) = chars s ++ chars t.
Proof.
  induction s as [|c s IH]; [reflexivity |].
  rewrite append_cons. unfold chars in *. simpl. now f_equal.
Qed.

Lemma last_char_append (s : string) c : last_char (s +:+ String c EmptyString) = Some c.
Proof.
  induction s as [|d s IH]; [reflexivity |].
  rewrite append_cons. simpl. rewrite IH.
  destruct s; reflexivity.
Qed.

Lemma matches_class (cls : ascii -> bool) (s : string) :
  Matches (ReClass cls) s <-> exists c, s = String c EmptyString /\ cls c = true.
Proof.
  split.
  - intros H. inversion H; subst. eauto.
  - intros (c & -> & E). now constructor.
Qed.

Lemma matches_star_class (cls : ascii -> bool) (s : string) :
  Matches (ReStar (ReClass cls)) s <-> Forall (fun c => cls c = true) (chars s).
Proof.
  split.
  - intros H. remember (ReStar (ReClass cls)) as r eqn:Er.
    induction H; try discriminate.
    + constructor.
    + injection Er as ->. rewrite chars_append. apply Forall_app. split.
      * apply matches_class in H as (c & -> & E). repeat constructor. exact E.
      * auto.
  - induction s as [|c s IH]; intros H.
    + constructor.
    + apply Forall_cons in H as [E H].
      change (String c s) with (String c EmptyString +:+ s).
      constructor; [now constructor | auto].
Qed.

(** The shape of the strings of [domainRegex]. *)
Lemma domain_label (s : string) :
  Matches domainRegex s <->
  exists c rest,
    s = String c rest /\ alnum c = true /\
    (rest = EmptyString \/
     exists mid d, rest = mid +:+ String d EmptyString /\
                   Forall (fun x => alnum_hyphen x = true) (chars mid) /\
                   alnum d = true).
Proof.
  unfold domainRegex, ReOpt. split.
  - intros H. inversion H as [| |? ? s1 s2 H1 H2| | | |]; subst.
    apply matches_class in H1 as (c & -> & Ec).
    exists c, s2. split; [reflexivity | split; [exact Ec |]].
    inversion H2 as [| | |? ? ? H3|? ? ? H3| |]; subst.
    + right. inversion H3 as [| |? ? m l Hm Hl| | | |]; subst.
      apply matches_class in Hl as (d & -> & Ed).
      exists m, d. repeat split; auto. now apply matches_star_class.
    + left. now inversion H3.
  - intros (c & rest & -> & Ec & Hrest).
    change (String c rest) with (String c EmptyString +:+ rest).
    constructor; [now constructor |].
    destruct Hrest as [-> | (mid & d & -> & Hmid & Ed)].
    + apply MAltR. constructor.
    + apply MAltL. constructor; [now apply matches_star_class | now constructor].
Qed.

Lemma alnum_is_allowed c : alnum c = true -> alnum_hyphen c = true.
Proof. unfold alnum_hyphen. intros ->. reflexivity. Qed.

Lemma hyphen_not_alnum : alnum hyphen = false.
Proof. reflexivity. Qed.

Lemma label_first (s : string) :
  Matches domainRegex s -> exists c, first_char s = Some c /\ alnum c = true.
Proof. intros (c & rest & -> & Ec & _)%domain_label. simpl. eauto. Qed.

Lemma label_last (s : string) :
  Matches domainRegex s -> exists c, last_char s = Some c /\ alnum c = true.
Proof.
  intros (c & rest & -> & Ec & [-> | (mid & d & -> & _ & Ed)])%domain_label.
  - simpl. eauto.
  - exists d. split; [| exact Ed].
    change (String c (mid +:+ String d EmptyString))
      with (String c mid +:+ String d EmptyString).
    apply last_char_append.
Qed.

Lemma label_chars (s : string) :
  Matches domainRegex s -> Forall (fun c => alnum_hyphen c = true) (chars s).
Proof.
  intros (c & rest & -> & Ec & Hrest)%domain_label.
  change (chars (String c rest)) with (c :: chars rest).
  constructor; [now apply alnum_is_allowed |].
  destruct Hrest as [-> | (mid & d & -> & Hmid & Ed)]; [constructor |].
  rewrite chars_append. apply Forall_app. split; [exact Hmid |].
  repeat constructor. now apply alnum_is_allowed.
Qed.

Lemma startsWith_hyphen (s : string) :
  startsWith "-" s = true -> first_char s = Some hyphen.
Proof.
  destruct s as [|c s]; cbn [startsWith first_char]; [discriminate |].
  destruct (Ascii.eqb_spec "-" c) as [<- | ne]; [reflexivity | discriminate].
Qed.

Lemma endsWith_hyphen (s : string) :
  endsWith "-" s = true -> last_char s = Some hyphen.
Proof.
  induction s as [|c s IH]; [vm_compute; discriminate |].
  cbn [endsWith]. intros [E | E]%orb_true_iff.
  - apply String.eqb_eq in E. injection E as -> ->. reflexivity.
  - specialize (IH E). destruct s; [discriminate | exact IH].
Qed.

Lemma label_no_hyphen_ends (s : string) :
  Matches domainRegex s -> startsWith "-" s || endsWith "-" s = false.
Proof.
  intros H. apply orb_false_iff. split; apply not_true_is_false; intros E.
  - apply startsWith_hyphen in E. apply label_first in H as (c & Hc & Ec).
    rewrite E in Hc. injection Hc as <-. now rewrite hyphen_not_alnum in Ec.
  - apply endsWith_hyphen in E. apply label_last in H as (c & Hc & Ec).
    rewrite E in Hc. injection Hc as <-. now rewrite hyphen_not_alnum in Ec.
Qed.

Lemma is_empty_true (s : string) : is_empty s = true <-> s = EmptyString.
Proof. destruct s; simpl; split; congruence. Qed.


(** The verdict of [validateDomainName] in terms of the cleaned input. *)
Lemma validateDomainName_verdict (s : string) :
  isValid (validateDomainName s) = true <->
  Matches domainRegex (cleaned s) /\ 1 <= Js.length (cleaned s) <= 63.
Proof.
  unfold validateDomainName. fold (cleaned s).
  destruct (is_empty (cleaned s)) eqn:E0.
  { apply is_empty_true in E0. rewrite E0. simpl. split; [discriminate |].
    intros [_ [H _]]. unfold Js.length in H. simpl in H. lia. }
  destruct (Z.ltb_spec (Js.length (cleaned s)) 1) as [L1 | L1].
  { simpl. split; [discriminate | lia]. }
  destruct (Z.ltb_spec 63 (Js.length (cleaned s))) as [L2 | L2].
  { simpl. split; [discriminate | lia]. }
  destruct (test domainRegex (cleaned s)) eqn:T; cbn [negb].
  - apply test_matches in T. rewrite (label_no_hyphen_ends _ T).
    cbn [isValid]. split; [intros _; split; [exact T | lia] | reflexivity].
  - cbn [isValid]. split; [discriminate |]. intros [H _].
    apply test_matches in H. congruence.
Qed.

End Labels.

Section Validation.
Import Js.

Lemma lower_char_idempotent c : lower_char (lower_char c) = lower_char c.
Proof. destruct c as [[] [] [] [] [] [] [] []]; reflexivity. Qed.

Lemma toLowerCase_idempotent (s : string) :
  toLowerCase (toLowerCase s) = toLowerCase s.
Proof.
  induction s as [|c s IH]; simpl; [reflexivity |].
  now rewrite lower_char_idempotent, IH.
Qed.

Lemma rejected_unless (s : string) :
  ~ (Matches domainRegex (cleaned s) /\ 1 <= Js.length (cleaned s) <= 63) ->
  isValid (validateDomainName s) = false.
Proof.
  intros H. apply not_true_is_false. intros V.
  now apply validateDomainName_verdict in V.
Qed.

(** C3 (amended): [validateDomainName] accepts exactly the inputs whose
    lower-cased and trimmed form matches
    [^[a-z0-9]([a-z0-9-]*[a-z0-9])?$] and has 1 to 63 code units; the
    verdict does not depend on the case of the input; and the input is
    rejected when its cleaned form is empty, is longer than 63, starts or
    ends with a hyphen, or holds a code unit outside [[a-z0-9-]]. *)
Theorem validateDomainName_accepts_cleaned_labels (s : string) :
  (isValid (validateDomainName s) = true <->
     Matches domainRegex (cleaned s) /\ 1 <= Js.length (cleaned s) <= 63)
  /\ validateDomainName (toLowerCase s) = validateDomainName s
  /\ (cleaned s = EmptyString -> isValid (validateDomainName s) = false)
  /\ (63 < Js.length (cleaned s) -> isValid (validateDomainName s) = false)
  /\ (startsWith "-" (cleaned s) = true \/ endsWith "-" (cleaned s) = true ->
        isValid (validateDomainName s) = false)
  /\ ((exists c, c ∈ chars (cleaned s) /\ alnum_hyphen c = false) ->
        isValid (validateDomainName s) = false).
Proof.
  split; [apply validateDomainName_verdict |].
  split; [unfold validateDomainName; now rewrite toLowerCase_idempotent |].
  repeat split.
  - intros E. apply rejected_unless. rewrite E. intros [_ [H _]].
    unfold Js.length in H. simpl in H. lia.
  - intros L. apply rejected_unless. lia.
  - intros H. apply rejected_unless. intros [L%label_no_hyphen_ends _].
    apply orb_false_iff in L as [L1 L2]. destruct H; congruence.
  - intros (c & Hc & Ec). apply rejected_unless. intros [L%label_chars _].
    rewrite Forall_forall in L. specialize (L c Hc). congruence.
Qed.

Lemma validateDomainName_accepts_cleaned_labels_witness :
  isValid (validateDomainName " My-Site ") = true
  /\ isValid (validateDomainName "-bad") = false
  /\ isValid (validateDomainName "a b") = false.
Proof.
  destruct (validateDomainName_accepts_cleaned_labels " My-Site ") as ([_ H1] & _).
  destruct (validateDomainName_accepts_cleaned_labels "-bad") as (_ & _ & _ & _ & H2 & _).
  destruct (validateDomainName_accepts_cleaned_labels "a b") as (_ & _ & _ & _ & _ & H3).
  split; [| split].
  - apply H1. split; [apply test_matches; reflexivity | vm_compute; split; discriminate].
  - apply H2. left. reflexivity.
  - apply H3. exists " "%char. split; [| reflexivity].
    apply list_elem_of_In. vm_compute. tauto.
Defined.

(** C3 (as stated) fails: [" abc"] is accepted although, lower-cased, it
    does not match the pattern. *)
Lemma padded_label_is_accepted : ~ accepts_lowercased_label " abc".
Proof.
  unfold accepts_lowercased_label. intros [H _].
  destruct (H eq_refl) as [L _].
  apply test_matches in L. vm_compute in L. discriminate.
Qed.

(** C9: no input makes [validateDomainName] answer "Domain name cannot
    start or end with a hyphen": every string that passes the test of the
    pattern neither starts nor ends with a hyphen. *)
Theorem hyphen_message_is_unreachable (s : string) :
  invalid_error (validateDomainName s)
    <> Some "Domain name cannot start or end with a hyphen"
  /\ (test domainRegex (cleaned s) = true ->
      startsWith "-" (cleaned s) || endsWith "-" (cleaned s) = false).
Proof.
  split.
  - unfold validateDomainName. fold (cleaned s).
    destruct (is_empty (cleaned s)); [discriminate |].
    destruct (Js.length (cleaned s) <? 1); [discriminate |].
    destruct (63 <? Js.length (cleaned s)); [discriminate |].
    destruct (test domainRegex (cleaned s)) eqn:T; cbn [negb]; [| discriminate].
    apply test_matches in T. rewrite (label_no_hyphen_ends _ T). discriminate.
  - intros T%test_matches. now apply label_no_hyphen_ends.
Qed.

Lemma hyphen_message_is_unreachable_witness :
  test domainRegex (cleaned "De-F ") = true /\
  startsWith "-" (cleaned "De-F ") || endsWith "-" (cleaned "De-F ") = false.
Proof.
  split; [reflexivity |].
  apply (proj2 (hyphen_message_is_unreachable "De-F ")). reflexivity.
Defined.

End Validation.

(** ** [getRegistrarsPaginated] *)

Section Pagination.

Lemma directory_size : Z.of_nat (length kenicRegistrars) = 20.
Proof. reflexivity. Qed.

Lemma slice_forward {A : Type} (l : list A) (a b : Z) :
  0 <= a <= b ->
  Js.slice l a b = take (Z.to_nat (b - a)) (drop (Z.to_nat a) l).
Proof.
  intros H. unfold Js.slice, Js.relative.
  destruct (Z.ltb_spec a 0); [lia |]. destruct (Z.ltb_spec b 0); [lia |].
  destruct (Z_le_gt_dec (Z.of_nat (length l)) a) as [Ha | Ha].
  - rewrite !drop_ge by lia. now rewrite !take_nil.
  - rewrite (Z.min_l a) by lia.
    destruct (Z_le_gt_dec b (Z.of_nat (length l))) as [Hb | Hb].
    + now rewrite Z.min_l by lia.
    + rewrite Z.min_r by lia.
      rewrite !take_ge; [reflexivity | |]; rewrite length_drop; lia.
Qed.

Lemma page_slice (page limit : Z) :
  1 <= page -> 1 <= limit ->
  registrars (getRegistrarsPaginated page limit) =
  take (Z.to_nat limit) (drop (Z.to_nat ((page - 1) * limit)) kenicRegistrars).
Proof.
  intros Hp Hl. unfold getRegistrarsPaginated. cbn [registrars].
  rewrite slice_forward by nia. f_equal. f_equal. lia.
Qed.

Lemma hasMore_iff (page limit : Z) :
  hasMore (getRegistrarsPaginated page limit) = true <->
  page * limit < Z.of_nat (length kenicRegistrars).
Proof.
  unfold getRegistrarsPaginated. cbn [hasMore]. rewrite Z.ltb_lt.
  replace ((page - 1) * limit + limit) with (page * limit) by lia. reflexivity.
Qed.

Lemma pageCount_bounds (limit : Z) :
  1 <= limit ->
  (pageCount limit - 1) * limit < 20 <= pageCount limit * limit.
Proof.
  intros Hl. unfold pageCount. rewrite directory_size.
  pose proof (Z.div_mod (20 + limit - 1) limit ltac:(lia)) as E.
  pose proof (Z.mod_pos_bound (20 + limit - 1) limit ltac:(lia)) as B.
  nia.
Qed.

Lemma no_more_iff (page limit : Z) :
  1 <= limit ->
  hasMore (getRegistrarsPaginated page limit) = false <-> pageCount limit <= page.
Proof.
  intros Hl. pose proof (pageCount_bounds limit Hl) as B.
  rewrite <- not_true_iff_false, hasMore_iff, directory_size. nia.
Qed.

Lemma pages_upto_take (n : nat) (limit : Z) :
  1 <= limit ->
  pages_upto n limit = take (n * Z.to_nat limit) kenicRegistrars.
Proof.
  intros Hl. induction n as [|n IH]; [reflexivity |].
  cbn [pages_upto]. rewrite IH, page_slice by lia.
  replace (Z.to_nat ((Z.of_nat (S n) - 1) * limit)) with (n * Z.to_nat limit)%nat by nia.
  rewrite take_take_drop. f_equal. lia.
Qed.

End Pagination.

(** ** The monad *)

Section MonadFacts.
Context {A B : Type}.

Lemma completes_ret (P : A -> Prop) (a : A) : P a -> completes P (ret a).
Proof. intros H w. left. now exists a, w. Qed.

Lemma completes_throw (P : A -> Prop) (e : Thrown) : completes P (throw e).
Proof. intros w. right. now exists e, w. Qed.

Lemma completes_bind (Q : A -> Prop) (P : B -> Prop) (m : M A) (k : A -> M B) :
  completes Q m -> (forall a, Q a -> completes P (k a)) -> completes P (bind m k).
Proof.
  intros Hm Hk w. unfold bind.
  destruct (Hm w) as [(a & w' & -> & Ha) | (e & w' & ->)].
  - apply (Hk a Ha).
  - right. now exists e, w'.
Qed.

Lemma returns_completes (P : A -> Prop) (m : M A) : returns P m -> completes P m.
Proof. intros H w. left. apply H. Qed.



(** A method whose body is wrapped in [try]/[catch] returns as soon as
    its handler does. *)
Lemma returns_try_catch (P : A -> Prop) (body : M A) (handler : Thrown -> M A) :
  completes P body -> (forall e, returns P (handler e)) ->
  returns P (try_catch body handler).
Proof.
  intros Hb Hh w. unfold try_catch.
  destruct (Hb w) as [(a & w' & -> & Ha) | (e & w' & ->)].
  - now exists a, w'.
  - apply Hh.
Qed.

Lemma returns_ret (P : A -> Prop) (a : A) : P a -> returns P (ret a).
Proof. intros H w. now exists a, w. Qed.

Lemma completes_backend (serve : World -> Reply A * World) :
  completes anything (backend serve).
Proof.
  intros w. unfold backend. destruct (faults w) as [|[|e|e] fs].
  - destruct (serve w) as [r w']. left. now exists r, w'.
  - destruct (serve (with_faults fs w)) as [r w']. left. now exists r, w'.
  - left. now eexists _, _.
  - right. now eexists _, _.
Qed.

End MonadFacts.

Lemma failure_well_formed {T : Type} (msg : string) : well_formed (@failure T msg).
Proof. right. split; [reflexivity | now exists msg]. Qed.

Lemma ok_well_formed {T : Type} (d : option T) : well_formed (ok d).
Proof. now left. Qed.

Lemma try_catch_converts {T : Type} (body : M (ApiResponse T)) (fallback : string)
    (w w' : World) (e : Thrown) :
  body w = (Throw e, w') ->
  try_catch body (fun error => ret (failure (messageOr error fallback))) w
  = (Normal (failure (messageOr e fallback)), w').
Proof. intros E. unfold try_catch. now rewrite E. Qed.

Create HintDb methods.

#[local] Hint Resolve failure_well_formed ok_well_formed : methods.

(** Runs through the body of a method: every backend call completes, every
    branch ends in a well-formed result or in a throw. *)
Ltac walk :=
  repeat first
    [ apply completes_throw
    | apply completes_ret; auto with methods
    | eapply completes_bind;
        [ first [ apply completes_backend
                | apply returns_completes; solve [eauto with methods] ]
        | intros ? ? ]
    | match goal with
      | |- completes _ (match ?x with _ => _ end) => destruct x eqn:?
      end ].

Ltac method := apply returns_try_catch;
  [ walk | intros ?; apply returns_ret; auto with methods ].

(** ** Every method of [LessonsService] and [AuthService] returns *)

Section Methods.

Lemma current_time_returns : returns anything current_time.
Proof. intros w. now exists (now w), w. Qed.

Lemma asyncStorage_clear_completes : completes anything asyncStorage_clear.
Proof.
  unfold asyncStorage_clear. eapply completes_bind; [apply completes_backend |].
  intros r _. destruct (reply_error r);
    [apply completes_throw | now apply completes_ret].
Qed.

Lemma column_values_completes r : completes anything (column_values r).
Proof.
  unfold column_values. destruct (reply_data r);
    [now apply completes_ret | apply completes_throw].
Qed.

Lemma getProfile_returns userId : returns well_formed (getProfile userId).
Proof. unfold getProfile. method. Qed.

Lemma createProfile_returns profile : returns well_formed (createProfile profile).
Proof. unfold createProfile. method. Qed.

Lemma updateProfile_returns userId updates :
  returns well_formed (updateProfile userId updates).
Proof. unfold updateProfile. method. Qed.

#[local] Hint Resolve getProfile_returns createProfile_returns : methods.

Lemma signIn_returns credentials : returns well_formed (signIn credentials).
Proof. unfold signIn. method. Qed.

Lemma signUp_returns formData : returns well_formed (signUp formData).
Proof. unfold signUp. method. Qed.

Lemma signOut_returns : returns well_formed signOut.
Proof.
  unfold signOut. apply returns_try_catch;
    [| intros ?; apply returns_ret; auto with methods].
  eapply completes_bind; [apply completes_backend |]. intros r _.
  destruct (reply_error r); [apply completes_ret; auto with methods |].
  eapply completes_bind; [apply asyncStorage_clear_completes |].
  intros _ _. apply completes_ret; auto with methods.
Qed.

Lemma getCurrentUser_returns : returns well_formed getCurrentUser.
Proof. unfold getCurrentUser. method. Qed.

Lemma fetchLessons_returns filter : returns well_formed (fetchLessons filter).
Proof.
  unfold fetchLessons. apply returns_try_catch;
    [| intros ?; apply returns_ret; auto with methods].
  eapply completes_bind; [apply completes_backend |]. intros first _.
  eapply (completes_bind anything).
  - destruct (reply_error first);
      [apply completes_backend | now apply completes_ret].
  - intros final _. destruct (reply_error final);
      apply completes_ret; auto with methods.
Qed.

Lemma getLesson_returns lessonId : returns well_formed (getLesson lessonId).
Proof. unfold getLesson. method. Qed.

Lemma getUserProgress_returns userId lessonId :
  returns well_formed (getUserProgress userId lessonId).
Proof. unfold getUserProgress. method. Qed.

Lemma getAllUserProgress_returns userId :
  returns well_formed (getAllUserProgress userId).
Proof. unfold getAllUserProgress. method. Qed.

#[local] Hint Resolve getLesson_returns getUserProgress_returns
  getAllUserProgress_returns current_time_returns : methods.

Lemma updateProgress_returns userId lessonId progress :
  returns well_formed (updateProgress userId lessonId progress).
Proof.
  unfold updateProgress. apply returns_try_catch;
    [| intros ?; apply returns_ret; auto with methods].
  eapply completes_bind;
    [apply returns_completes, getUserProgress_returns |]. intros existing _.
  eapply completes_bind; [apply returns_completes, current_time_returns |].
  intros date _.
  eapply (completes_bind anything).
  - destruct (data existing); apply completes_backend.
  - intros result _. destruct (reply_error result);
      apply completes_ret; auto with methods.
Qed.

#[local] Hint Resolve updateProgress_returns : methods.

Lemma completeLesson_returns userId lessonId :
  returns well_formed (completeLesson userId lessonId).
Proof.
  unfold completeLesson. apply returns_try_catch;
    [| intros ?; apply returns_ret; auto with methods].
  eapply completes_bind; [apply returns_completes, getLesson_returns |].
  intros lessonResult _.
  destruct (negb (success lessonResult) || _);
    [apply completes_ret; auto with methods |].
  eapply completes_bind; [apply returns_completes, updateProgress_returns |].
  intros progressResult W.
  destruct (negb (success progressResult)); now apply completes_ret.
Qed.

Lemma getUserStats_returns userId : returns well_formed (getUserStats userId).
Proof.
  unfold getUserStats. apply returns_try_catch;
    [| intros ?; apply returns_ret; auto with methods].
  eapply completes_bind; [apply returns_completes, getAllUserProgress_returns |].
  intros progressResult _.
  destruct (negb (success progressResult)); apply completes_ret; auto with methods.
Qed.

Lemma getCategories_returns : returns well_formed getCategories.
Proof.
  unfold getCategories. apply returns_try_catch;
    [| intros ?; apply returns_ret; auto with methods].
  eapply completes_bind; [apply completes_backend |]. intros r _.
  destruct (reply_error r); [apply completes_ret; auto with methods |].
  eapply completes_bind; [apply column_values_completes |].
  intros items _. apply completes_ret; auto with methods.
Qed.

Lemma getDifficultyLevels_returns : returns well_formed getDifficultyLevels.
Proof.
  unfold getDifficultyLevels. apply returns_try_catch;
    [| intros ?; apply returns_ret; auto with methods].
  eapply completes_bind; [apply completes_backend |]. intros r _.
  destruct (reply_error r); [apply completes_ret; auto with methods |].
  eapply completes_bind; [apply column_values_completes |].
  intros items _. apply completes_ret; auto with methods.
Qed.

End Methods.

(** ** [searchDomain] and [checkMultipleDomains] *)

Section Lookups.
Variable extension : DomainExtension.

Lemma searchDomain_run (label : string) (w : World) :
  searchDomain label extension w =
  (Normal (answer label extension
             (wire w (length (log w)) (lookup_request extension label))),
   with_log (log w ++ [EvFetch (lookup_request extension label)]) w).
Proof.
  unfold searchDomain, try_catch, bind, fetch, answer, lookup_request, cleaned.
  cbn [req_domain req_domainType].
  destruct (wire w _ _) as [e | r]; [reflexivity |].
  destruct (response_ok r); cbn [negb]; [| reflexivity].
  unfold json. destruct (body r); reflexivity.
Qed.

Lemma searchDomain_success_data (label : string) (w : World) r w' :
  searchDomain label extension w = (Normal r, w') ->
  success r = true -> is_Some (data r).
Proof.
  rewrite searchDomain_run. intros [= <- _]. unfold answer.
  destruct (wire w _ _) as [e | rsp]; [discriminate |].
  destruct (response_ok rsp); [| discriminate].
  destruct (body rsp); [discriminate | intros _; now eexists].
Qed.

Lemma searchDomain_returns (label : string) :
  returns well_formed (searchDomain label extension).
Proof.
  intros w. rewrite searchDomain_run. eexists _, _. split; [reflexivity |].
  unfold answer. destruct (wire w _ _) as [e | rsp]; auto with methods.
  destruct (response_ok rsp); auto with methods.
  destruct (body rsp); auto with methods.
Qed.

(** The promises of a batch, settled: all are fulfilled, and the one of
    the label at index [j] carries the answer to the request issued [j]
    events later. *)
Lemma settle_batch (batch : list string) (w : World) :
  settle_each (map (fun domain => searchDomain domain extension) batch) w =
  (Normal (imap (fun j d =>
             Fulfilled (answer d extension
                          (wire w (length (log w) + j) (lookup_request extension d))))
             batch),
   with_log (log w ++ map (fun d => EvFetch (lookup_request extension d)) batch) w).
Proof.
  revert w. induction batch as [|d batch IH]; intros w.
  - cbn. unfold ret. rewrite app_nil_r. now destruct w.
  - cbn [map settle_each]. rewrite searchDomain_run. unfold bind at 1.
    rewrite IH. unfold ret. cbn [with_log log wire].
    rewrite length_app, <- app_assoc. cbn [length app].
    f_equal. f_equal. rewrite imap_cons. f_equal.
    + now rewrite Nat.add_0_r.
    + apply imap_ext. intros j x _. cbn. do 3 f_equal. lia.
Qed.

Lemma allSettled_batch (batch : list string) (w : World) :
  allSettled (map (fun domain => searchDomain domain extension) batch) w =
  (Normal (imap (fun j d =>
             Fulfilled (answer d extension
                          (wire w (length (log w) + j) (lookup_request extension d))))
             batch),
   with_log (log w ++ batch_events extension batch) w).
Proof.
  unfold allSettled, bind. rewrite settle_batch. cbn [with_log log].
  unfold batch_events. now rewrite length_map, <- app_assoc.
Qed.

(** What [forEach] pushes is one entry per promise. *)
Lemma pushed_one (batch : list string) j (r : Settled (ApiResponse DomainSearchResult)) :
  pushed batch extension j r =
  [match r with
   | Fulfilled value => entry_for (default EmptyString (batch !! j)) extension value
   | Rejected _ => unavailable (default EmptyString (batch !! j)) extension
   end].
Proof.
  unfold pushed, entry_for, unavailable. destruct r as [v | e]; [| reflexivity].
  destruct (success v); [| reflexivity]. now destruct (data v).
Qed.

Lemma concat_imap_singletons {A B : Type} (f : nat -> A -> list B)
    (g : nat -> A -> B) (l : list A) :
  (forall j x, f j x = [g j x]) -> concat (imap f l) = imap g l.
Proof.
  revert f g. induction l as [|x l IH]; intros f g H; [reflexivity |].
  rewrite !imap_cons. cbn [concat]. rewrite H. cbn [app]. f_equal.
  apply IH. intros j y. apply H.
Qed.

Lemma pushed_batch (batch : list string) (w : World) :
  concat (imap (pushed batch extension)
            (imap (fun j d =>
               Fulfilled (answer d extension
                            (wire w (length (log w) + j) (lookup_request extension d))))
               batch)) =
  imap (fun j d =>
          entry_for d extension
            (answer d extension
               (wire w (length (log w) + j) (lookup_request extension d))))
       batch.
Proof.
  rewrite (concat_imap_singletons _ _ _ (pushed_one batch)).
  apply list_eq. intros j. rewrite !list_lookup_imap.
  destruct (batch !! j) as [d|] eqn:E; reflexivity.
Qed.

Lemma slice_batch (domains : list string) (i : nat) :
  Js.slice domains (Z.of_nat i) (Z.of_nat i + batchSize) = take 5 (drop i domains).
Proof.
  unfold batchSize. rewrite slice_forward by lia. f_equal; [lia |].
  f_equal. lia.
Qed.

Lemma chunks_cons {A : Type} (n fuel : nat) (l : list A) :
  l <> [] -> chunks (S fuel) n l = take n l :: chunks fuel n (drop n l).
Proof. destruct l; [congruence | reflexivity]. Qed.

Lemma quotient_step (j : nat) : (5 <= j -> j / 5 = S ((j - 5) / 5))%nat.
Proof.
  intros H. replace j with ((j - 5) + 1 * 5)%nat at 1 by lia.
  rewrite Nat.div_add by lia. lia.
Qed.

Lemma quotient_small (j : nat) : (j < 5 -> j / 5 = 0)%nat.
Proof. apply Nat.div_small. Qed.

(** The loop, from index [i] on: it ends normally, has logged the events
    of the remaining batches, and has appended one entry per remaining
    label, in order. *)
Lemma batchLoop_run (domains : list string) :
  forall (fuel i : nat) (results : list DomainSearchResult) (w : World),
    (length domains - i < fuel)%nat ->
    exists more w',
      batchLoop fuel (Z.of_nat i) domains extension results w
        = (Normal (results ++ more), w')
      /\ wire w' = wire w
      /\ log w' = log w ++ concat (map (batch_events extension)
                                       (chunks fuel 5 (drop i domains)))
      /\ length more = length (drop i domains)
      /\ forall j label,
           drop i domains !! j = Some label ->
           more !! j =
           Some (entry_for label extension
                   (answer label extension
                      (wire w (length (log w) + j + j / 5)
                            (lookup_request extension label)))).
Proof.
  induction fuel as [|fuel IH]; intros i results w Hfuel; [lia |].
  cbn [batchLoop].
  destruct (Z.ltb_spec (Z.of_nat i) (Z.of_nat (length domains))) as [Hi | Hi].
  - rewrite slice_batch. set (batch := take 5 (drop i domains)).
    unfold bind at 1. rewrite allSettled_batch, pushed_batch.
    set (w1 := with_log (log w ++ batch_events extension batch) w).
    set (here := imap _ batch).
    replace (Z.of_nat i + batchSize) with (Z.of_nat (i + 5)) by (unfold batchSize; lia).
    destruct (IH (i + 5)%nat (results ++ here) w1 ltac:(lia))
      as (more & w' & E & Hwire & Hlog & Hlen & Hmore).
    assert (Hbatch : length batch = Nat.min 5 (length domains - i)).
    { unfold batch. now rewrite length_take, length_drop. }
    assert (Hhere : length here = length batch) by apply length_imap.
    assert (Hlog1 : length (log w1) = (length (log w) + length batch + 1)%nat).
    { unfold w1, batch_events. cbn [with_log log].
      rewrite !length_app, length_map. cbn [length]. lia. }
    exists (here ++ more), w'. rewrite app_assoc. split; [exact E |].
    split; [exact Hwire |]. split; [| split].
    + rewrite Hlog. unfold w1. cbn [with_log log].
      rewrite (chunks_cons 5 fuel (drop i domains)).
      2:{ intros D. apply (f_equal length) in D. rewrite length_drop in D.
          cbn in D. lia. }
      cbn [map concat]. fold batch.
      rewrite drop_drop, <- app_assoc. reflexivity.
    + rewrite length_app, Hlen, Hhere, Hbatch, !length_drop. lia.
    + intros j label Hj.
      destruct (Nat.lt_ge_cases j (length batch)) as [Hlt | Hge].
      * rewrite lookup_app_l by lia. unfold here. rewrite list_lookup_imap.
        unfold batch at 1. rewrite lookup_take_lt by lia. rewrite Hj.
        cbn [fmap option_fmap option_map].
        rewrite (quotient_small j) by lia. now rewrite Nat.add_0_r.
      * assert (Hj' := lookup_lt_Some _ _ _ Hj). rewrite length_drop in Hj'.
        rewrite lookup_app_r by lia. rewrite Hhere.
        assert (Hfull : length batch = 5%nat) by lia. rewrite Hfull.
        rewrite (Hmore (j - 5)%nat label).
        2:{ rewrite lookup_drop in *. rewrite <- Hj. f_equal. lia. }
        cbn [with_log wire]. rewrite Hlog1, Hfull, (quotient_step j) by lia.
        do 4 f_equal. lia.
  - unfold ret. exists [], w. rewrite app_nil_r.
    rewrite drop_ge by lia. cbn [chunks map concat length].
    rewrite app_nil_r. repeat split. intros j label H. discriminate.
Qed.

Lemma checkMultipleDomains_run (domains : list string) (w : World) :
  exists results w',
    checkMultipleDomains domains extension w = (Normal (ok (Some results)), w')
    /\ log w' = log w ++ concat (map (batch_events extension) (batches domains))
    /\ length results = length domains
    /\ forall j label,
         domains !! j = Some label ->
         results !! j =
         Some (entry_for label extension
                 (answer label extension
                    (wire w (issued_at w j) (lookup_request extension label)))).
Proof.
  destruct (batchLoop_run domains (S (length domains)) 0 [] w ltac:(lia))
    as (more & w' & E & _ & Hlog & Hlen & Hmore).
  exists more, w'. unfold checkMultipleDomains, try_catch, bind.
  change 0 with (Z.of_nat 0). rewrite E. cbn [app].
  rewrite drop_0 in *. repeat split; auto.
Qed.

End Lookups.

(** Cutting a list into pieces. *)

Section Chunks.
Context {A : Type}.

Lemma chunks_concat (n : nat) :
  forall (fuel : nat) (l : list A),
    (length l < fuel)%nat -> (1 <= n)%nat -> concat (chunks fuel n l) = l.
Proof.
  induction fuel as [|fuel IH]; intros l Hl Hn; [lia |].
  destruct l as [|x l]; [reflexivity |].
  cbn [chunks concat]. rewrite IH; [apply take_drop | | exact Hn].
  rewrite length_drop. cbn [length] in *. lia.
Qed.

(** Every piece but the last has [n] elements; the last has from 1 to
    [n]. *)
Lemma chunks_sizes (n : nat) :
  forall (fuel : nat) (l : list A) (k : nat) (piece : list A),
    (1 <= n)%nat ->
    chunks fuel n l !! k = Some piece ->
    (1 <= length piece <= n)%nat /\
    (S k < length (chunks fuel n l) -> length piece = n)%nat.
Proof.
  induction fuel as [|fuel IH]; intros l k piece Hn H; [discriminate |].
  destruct l as [|x l]; [discriminate |]. cbn [chunks] in *.
  destruct k as [|k].
  - injection H as <-. rewrite length_take. cbn [length]. split; [lia |].
    intros Hk. destruct fuel as [|fuel]; [cbn in Hk; lia |].
    destruct (drop n (x :: l)) as [|y rest] eqn:D; [cbn in Hk; lia |].
    apply (f_equal length) in D. rewrite length_drop in D. cbn [length] in *. lia.
  - cbn [lookup list_lookup] in H. destruct (IH _ _ _ Hn H) as [H1 H2].
    split; [exact H1 |]. intros Hk. apply H2. cbn [length] in Hk. lia.
Qed.

End Chunks.

(** ** The registrar directory, page by page *)

Section PaginationClaims.

(** C4 (amended): for a page size of at least 1, every page after the
    last page of the directory is an empty slice with [hasMore = false]
    (and the full total); the function is total, so no page raises. *)
Theorem page_after_the_last_is_empty (page limit : Z) :
  1 <= limit -> pageCount limit < page ->
  registrars (getRegistrarsPaginated page limit) = []
  /\ hasMore (getRegistrarsPaginated page limit) = false
  /\ total (getRegistrarsPaginated page limit) = 20.
Proof.
  intros Hl Hp. pose proof (pageCount_bounds limit Hl) as B.
  split; [| split; [| reflexivity]].
  - rewrite page_slice by nia. rewrite drop_ge; [apply take_nil |].
    pose proof directory_size. nia.
  - apply no_more_iff; lia.
Qed.

Lemma page_after_the_last_is_empty_witness :
  registrars (getRegistrarsPaginated 3 10) = []
  /\ hasMore (getRegistrarsPaginated 3 10) = false
  /\ total (getRegistrarsPaginated 3 10) = 20.
Proof. apply page_after_the_last_is_empty; [lia | vm_compute; reflexivity]. Defined.

(** C4 (as stated) fails: page 0 is outside the pages of the directory,
    and it is answered with [hasMore = true]. *)
Lemma page_zero_has_more : ~ empty_when_out_of_range 0 10.
Proof.
  intros H. destruct H as [_ H]; [left; lia |]. vm_compute in H. discriminate.
Qed.

(** A negative page wraps around: page -1 is answered with the first ten
    registrars. *)
Lemma negative_page_wraps_around :
  registrars (getRegistrarsPaginated (-1) 10) = take 10 kenicRegistrars.
Proof. reflexivity. Qed.

(** C5: for page >= 1 and pageSize >= 1 the slice is the contiguous run
    of at most pageSize registrars that starts at (page-1)*pageSize; the
    slices of pages 1, 2, .. n make up the first n*pageSize registrars,
    hence the whole directory, once and in order, from the last page on;
    [hasMore] is true iff page*pageSize is before the end of the
    directory, it is false from the last page on, so among the pages of
    the directory exactly on the last; [total] is the length of the
    directory. *)
Theorem pages_make_up_the_directory (page limit : Z) :
  1 <= page -> 1 <= limit ->
  registrars (getRegistrarsPaginated page limit)
    = take (Z.to_nat limit) (drop (Z.to_nat ((page - 1) * limit)) kenicRegistrars)
  /\ Z.of_nat (length (registrars (getRegistrarsPaginated page limit))) <= limit
  /\ (forall n : nat,
        pages_upto n limit = take (n * Z.to_nat limit) kenicRegistrars)
  /\ (forall n : nat,
        pageCount limit <= Z.of_nat n -> pages_upto n limit = kenicRegistrars)
  /\ (hasMore (getRegistrarsPaginated page limit) = true <->
        page * limit < Z.of_nat (length kenicRegistrars))
  /\ (hasMore (getRegistrarsPaginated page limit) = false <->
        pageCount limit <= page)
  /\ (page <= pageCount limit ->
        (hasMore (getRegistrarsPaginated page limit) = false <->
           page = pageCount limit))
  /\ total (getRegistrarsPaginated page limit) = Z.of_nat (length kenicRegistrars).
Proof.
  intros Hp Hl. pose proof (pageCount_bounds limit Hl) as B.
  split; [now apply page_slice |].
  split; [rewrite page_slice, length_take by lia; lia |].
  split; [intros n; now apply pages_upto_take |].
  split.
  { intros n Hn. rewrite pages_upto_take by lia. apply take_ge.
    pose proof directory_size. nia. }
  split; [apply hasMore_iff |].
  split; [now apply no_more_iff |].
  split; [| reflexivity].
  intros Hlast. rewrite no_more_iff by lia. lia.
Qed.

Lemma pages_make_up_the_directory_witness :
  registrars (getRegistrarsPaginated 3 8) = drop 16 kenicRegistrars
  /\ pages_upto 3 8 = kenicRegistrars
  /\ hasMore (getRegistrarsPaginated 3 8) = false.
Proof.
  destruct (pages_make_up_the_directory 3 8 ltac:(lia) ltac:(lia))
    as (H1 & _ & _ & H4 & _ & H6 & _).
  split; [rewrite H1; reflexivity |].
  split; [apply (H4 3%nat); vm_compute; discriminate |].
  apply H6. vm_compute. discriminate.
Defined.

End PaginationClaims.

(** ** Lesson progress *)

Section Progress.


(** The read that precedes a write leaves the table and the clock as
    they are; against a healthy backend it finds the row of the pair. *)
Lemma getUserProgress_run (userId lessonId : string) (w : World) :
  exists r w1,
    getUserProgress userId lessonId w = (Normal r, w1)
    /\ user_lesson_progress w1 = user_lesson_progress w
    /\ now w1 = now w
    /\ (faults w = [] ->
        w1 = w /\ data r = user_lesson_progress w !! (userId, lessonId)).
Proof.
  unfold getUserProgress, try_catch, bind, select_progress, backend.
  destruct (faults w) as [|[|e|e] fs] eqn:F.
  - destruct (user_lesson_progress w !! (userId, lessonId)) as [row|] eqn:L;
      cbn; eexists _, _; repeat split; reflexivity.
  - cbn [with_faults user_lesson_progress].
    destruct (user_lesson_progress w !! (userId, lessonId)) as [row|];
      cbn; eexists _, _; repeat split; discriminate.
  - cbn [reply_error]. destruct (negb _); cbn; eexists _, _; repeat split; discriminate.
  - cbn. eexists _, _; repeat split; discriminate.
Qed.

(** Either write ends in a throw, in an error, or with the row stored
    under its pair. *)
Lemma write_run (row : UserProgress) (write : M (Reply UserProgress)) :
  write = update_progress (user_id row) (lesson_id row) row \/
  write = insert_progress row ->
  forall w,
    (exists e w', write w = (Throw e, w')) \/
    (exists r w', write w = (Normal r, w') /\
       (reply_error r = None ->
          reply_data r = Some row /\
          user_lesson_progress w' !! (user_id row, lesson_id row) = Some row)).
Proof.
  intros [-> | ->] w; unfold update_progress, insert_progress, backend;
    destruct (faults w) as [|[|e|e] fs];
    try (right; eexists _, _; split; [reflexivity | discriminate]);
    try (left; eexists _, _; reflexivity);
    cbn [with_faults user_lesson_progress];
    destruct (user_lesson_progress w !! (user_id row, lesson_id row)) eqn:L;
    right; eexists _, _; (split; [reflexivity |]);
    cbn [reply_error reply_data with_progress user_lesson_progress];
    try discriminate; intros _; (split; [reflexivity |]);
    apply lookup_insert_eq.
Qed.

(** Against a healthy backend both writes go through when they are
    chosen by the preceding read. *)
Lemma write_served (row : UserProgress) (w : World) :
  faults w = [] ->
  exists w',
    match user_lesson_progress w !! (user_id row, lesson_id row) with
    | Some _ => update_progress (user_id row) (lesson_id row) row
    | None => insert_progress row
    end w = (Normal (mkReply (Some row) None), w').
Proof.
  intros F. unfold update_progress, insert_progress, backend.
  destruct (user_lesson_progress w !! (user_id row, lesson_id row)) eqn:L;
    rewrite F, L; eexists; reflexivity.
Qed.

Lemma progressData_facts (userId lessonId : string) (p date : Z) :
  let row := progressData userId lessonId p date in
  user_id row = userId /\ lesson_id row = lessonId
  /\ progress row = Z.min (Z.max p 0) 100
  /\ 0 <= progress row <= 100
  /\ (completed row = true <-> 100 <= progress row)
  /\ (completed_at row <> None <-> completed row = true).
Proof.
  unfold progressData. cbn.
  split; [reflexivity |]. split; [reflexivity |]. split; [reflexivity |].
  split; [lia |]. split.
  - rewrite Z.leb_le. lia.
  - destruct (100 <=? p); split; congruence.
Qed.

(** *** The clamp on numbers *)

Lemma le_of_Z (a b : Z) :
  Numbers.le (Numbers.of_Z a) (Numbers.of_Z b) = (a <=? b).
Proof.
  cbn. unfold QArith_base.Qle_bool. cbn. now rewrite !Z.mul_1_r.
Qed.

Lemma Math_max_of_Z (a b : Z) :
  Numbers.Math_max (Numbers.of_Z a) (Numbers.of_Z b) = Numbers.of_Z (Z.max a b).
Proof.
  change (Numbers.Math_max (Numbers.of_Z a) (Numbers.of_Z b))
    with (if Numbers.le (Numbers.of_Z a) (Numbers.of_Z b)
          then Numbers.of_Z b else Numbers.of_Z a).
  rewrite le_of_Z. destruct (Z.leb_spec a b).
  - now rewrite Z.max_r.
  - now rewrite Z.max_l by lia.
Qed.

Lemma Math_min_of_Z (a b : Z) :
  Numbers.Math_min (Numbers.of_Z a) (Numbers.of_Z b) = Numbers.of_Z (Z.min a b).
Proof.
  change (Numbers.Math_min (Numbers.of_Z a) (Numbers.of_Z b))
    with (if Numbers.le (Numbers.of_Z a) (Numbers.of_Z b)
          then Numbers.of_Z a else Numbers.of_Z b).
  rewrite le_of_Z. destruct (Z.leb_spec a b).
  - now rewrite Z.min_l.
  - now rewrite Z.min_r by lia.
Qed.

(** On an integer the object built is the row of the integer model. *)
Lemma progressData_of_integer (userId lessonId : string) (p date : Z) :
  Numbers.progressData userId lessonId (Numbers.of_Z p) date
  = written (progressData userId lessonId p date).
Proof.
  unfold Numbers.progressData, written, progressData, Numbers.ge.
  cbn [user_id lesson_id progress completed completed_at].
  now rewrite Math_max_of_Z, Math_min_of_Z, le_of_Z.
Qed.

Lemma le_finite_integer (n : Z) (d : positive) (k : Z) :
  Numbers.le (Numbers.Finite (QArith_base.Qmake n d)) (Numbers.of_Z k)
  = (n <=? k * Z.pos d).
Proof.
  cbn. unfold QArith_base.Qle_bool. cbn. now rewrite Z.mul_1_r.
Qed.

Lemma le_integer_finite (k n : Z) (d : positive) :
  Numbers.le (Numbers.of_Z k) (Numbers.Finite (QArith_base.Qmake n d))
  = (k * Z.pos d <=? n).
Proof.
  cbn. unfold QArith_base.Qle_bool. cbn. now rewrite Z.mul_1_r.
Qed.

(** The clamp of a finite number. *)
Lemma clamp_finite (q : QArith_base.Q) :
  let p := Numbers.Finite q in
  let clamped := Numbers.Math_min (Numbers.Math_max p (Numbers.of_Z 0))
                                  (Numbers.of_Z 100) in
  clamped = (if Numbers.le p (Numbers.of_Z 0) then Numbers.of_Z 0
             else if Numbers.le p (Numbers.of_Z 100) then p
                  else Numbers.of_Z 100)
  /\ Numbers.le (Numbers.of_Z 0) clamped = true
  /\ Numbers.le clamped (Numbers.of_Z 100) = true
  /\ Numbers.ge clamped (Numbers.of_Z 100) = Numbers.ge p (Numbers.of_Z 100).
Proof.
  destruct q as [n d]. intros p clamped. unfold clamped, Numbers.ge.
  change (Numbers.Math_max p (Numbers.of_Z 0))
    with (if Numbers.le p (Numbers.of_Z 0) then Numbers.of_Z 0 else p).
  unfold p. rewrite !le_finite_integer, le_integer_finite.
  destruct (Z.leb_spec n (0 * Z.pos d)) as [H0 | H0].
  - rewrite Math_min_of_Z, !le_of_Z. change (Z.min 0 100) with 0.
    repeat split. symmetry. apply Z.leb_gt. lia.
  - change (Numbers.Math_min (Numbers.Finite (QArith_base.Qmake n d))
                             (Numbers.of_Z 100))
      with (if Numbers.le (Numbers.Finite (QArith_base.Qmake n d))
                          (Numbers.of_Z 100)
            then Numbers.Finite (QArith_base.Qmake n d) else Numbers.of_Z 100).
    rewrite le_finite_integer.
    destruct (Z.leb_spec n (100 * Z.pos d)) as [H1 | H1].
    + rewrite le_integer_finite, le_finite_integer, le_integer_finite.
      repeat split; apply Z.leb_le; lia.
    + rewrite !le_of_Z. repeat split. symmetry. apply Z.leb_le. lia.
Qed.

(** C1: handed NaN, [updateProgress] builds and writes an object whose
    progress is NaN: [Math.min(Math.max(NaN, 0), 100)] is NaN, which is
    neither at least 0 nor at most 100, although the line announces
    "Clamp between 0-100".  The object is not completed and has no
    completion time. *)
Theorem updateProgress_lets_NaN_through (userId lessonId : string) (date : Z) :
  let row := Numbers.progressData userId lessonId Numbers.NaN date in
  Numbers.progress row = Numbers.NaN
  /\ Numbers.ge (Numbers.progress row) (Numbers.of_Z 0) = false
  /\ Numbers.le (Numbers.progress row) (Numbers.of_Z 100) = false
  /\ Numbers.completed row = false
  /\ Numbers.completed_at row = None
  /\ forall row' : UserProgress, written row' <> row.
Proof.
  cbn. repeat split; try reflexivity. intros row'. discriminate.
Qed.

(** X29: for every number other than NaN (fractions and both infinities
    included) the object [updateProgress] builds has a progress within
    [0,100]: 0 for a number that is at most 0, 100 for one above 100 and
    the number itself in between; it is completed iff that progress is at
    least 100 and has a completion time iff it is completed.  On an integer
    it is the row of the integer model, which [updateProgress] stores. *)
Theorem updateProgress_clamps_every_other_number (userId lessonId : string)
    (p : Numbers.number) (date : Z) :
  p <> Numbers.NaN ->
  let row := Numbers.progressData userId lessonId p date in
  (Numbers.le (Numbers.of_Z 0) (Numbers.progress row) = true
   /\ Numbers.le (Numbers.progress row) (Numbers.of_Z 100) = true)
  /\ Numbers.progress row
     = (if Numbers.le p (Numbers.of_Z 0) then Numbers.of_Z 0
        else if Numbers.le p (Numbers.of_Z 100) then p
             else Numbers.of_Z 100)
  /\ (Numbers.completed row = true
      <-> Numbers.ge (Numbers.progress row) (Numbers.of_Z 100) = true)
  /\ (Numbers.completed_at row <> None <-> Numbers.completed row = true)
  /\ (forall z : Z,
        p = Numbers.of_Z z ->
        row = written (progressData userId lessonId z date)).
Proof.
  intros Hp row.
  assert (Hat : Numbers.completed_at row <> None <-> Numbers.completed row = true).
  { unfold row, Numbers.progressData. cbn [Numbers.completed_at Numbers.completed].
    destruct (Numbers.ge p (Numbers.of_Z 100)); split; congruence. }
  assert (Hint : forall z : Z,
             p = Numbers.of_Z z ->
             row = written (progressData userId lessonId z date)).
  { intros z ->. apply progressData_of_integer. }
  destruct p as [| [|] | q]; [contradiction | | |].
  - split; [split; reflexivity |]. split; [reflexivity |].
    split; [| split; [exact Hat | exact Hint]]. cbn. split; discriminate.
  - split; [split; reflexivity |]. split; [reflexivity |].
    split; [| split; [exact Hat | exact Hint]]. cbn. split; reflexivity.
  - destruct (clamp_finite q) as (E & H0 & H100 & Hge).
    split; [split; [exact H0 | exact H100] |]. split; [exact E |].
    split; [| split; [exact Hat | exact Hint]].
    unfold row, Numbers.progressData. cbn [Numbers.completed Numbers.progress].
    now rewrite Hge.
Qed.

Lemma updateProgress_clamps_every_other_number_witness :
  Numbers.progress
    (Numbers.progressData "u1" "l6" (Numbers.Finite (QArith_base.Qmake 91 2)) 9)
  = Numbers.Finite (QArith_base.Qmake 91 2)
  /\ Numbers.progress
       (Numbers.progressData "u1" "l6" (Numbers.Infinity false) 9)
     = Numbers.of_Z 100.
Proof.
  split.
  - destruct (updateProgress_clamps_every_other_number
                "u1" "l6" (Numbers.Finite (QArith_base.Qmake 91 2)) 9
                ltac:(discriminate)) as (_ & E & _).
    exact E.
  - destruct (updateProgress_clamps_every_other_number
                "u1" "l6" (Numbers.Infinity false) 9
                ltac:(discriminate)) as (_ & E & _).
    exact E.
Defined.

(** X30: on integer percentages, [updateProgress(u, l, p)] always returns;
    the row it writes has progress min(max(p,0),100), which lies in
    [0,100], is completed iff that value is at least 100, and has a
    completion time iff it is completed; whenever the call succeeds this
    row is the one returned and the one stored for (u, l), and against a
    healthy backend the call succeeds.  For p = 130 the row has progress
    100, completed = true and a completion time. *)
Theorem updateProgress_stores_clamped (userId lessonId : string) (p : Z)
    (w : World) :
  let row := progressData userId lessonId p (now w) in
  (progress row = Z.min (Z.max p 0) 100
   /\ 0 <= progress row <= 100
   /\ (completed row = true <-> 100 <= progress row)
   /\ (completed_at row <> None <-> completed row = true))
  /\ progressData userId lessonId 130 (now w)
       = mkProgress userId lessonId 100 true (Some (now w))
  /\ exists r w',
       updateProgress userId lessonId p w = (Normal r, w')
       /\ (success r = true ->
             data r = Some row /\
             user_lesson_progress w' !! (userId, lessonId) = Some row)
       /\ (faults w = [] -> success r = true).
Proof.
  intros row.
  destruct (progressData_facts userId lessonId p (now w))
    as (Hu & Hl & F1 & F2 & F3 & F4).
  split; [exact (conj F1 (conj F2 (conj F3 F4))) |]. split; [reflexivity |].
  destruct (getUserProgress_run userId lessonId w)
    as (existing & w1 & E & Htable & Hnow & Hhealthy).
  unfold updateProgress, try_catch, bind at 1. rewrite E.
  unfold bind at 1, current_time. rewrite Hnow. fold row.
  set (write := match data existing with
                | Some _ => update_progress userId lessonId row
                | None => insert_progress row
                end).
  assert (Hwrite : write = update_progress (user_id row) (lesson_id row) row \/
                   write = insert_progress row).
  { unfold write. destruct (data existing); [left | right]; reflexivity. }
  unfold bind.
  destruct (write_run row write Hwrite w1) as [(e & w' & Ew) | (r & w' & Ew & Hr)];
    rewrite Ew.
  - eexists _, _. split; [reflexivity |]. split; [discriminate |].
    intros Fw. destruct (Hhealthy Fw) as [-> Hdata].
    destruct (write_served row w Fw) as (w2 & E2).
    change (user_id row) with userId in E2.
    change (lesson_id row) with lessonId in E2.
    unfold write in Ew. rewrite Hdata in Ew. rewrite E2 in Ew. discriminate.
  - destruct (reply_error r) as [err|] eqn:Er.
    + eexists _, _. split; [reflexivity |]. split; [discriminate |].
      intros Fw. destruct (Hhealthy Fw) as [-> Hdata].
      destruct (write_served row w Fw) as (w2 & E2).
      change (user_id row) with userId in E2.
      change (lesson_id row) with lessonId in E2.
      unfold write in Ew. rewrite Hdata in Ew. rewrite E2 in Ew.
      injection Ew as <- _. discriminate.
    + destruct (Hr eq_refl) as [Hd Hs].
      eexists _, _. split; [reflexivity |]. split; [| reflexivity].
      intros _. split; [exact Hd | exact Hs].
Qed.

Lemma updateProgress_stores_clamped_witness :
  exists r w',
    updateProgress "u1" "l6" 130 classroom = (Normal r, w')
    /\ success r = true
    /\ user_lesson_progress w' !! ("u1", "l6")
       = Some (mkProgress "u1" "l6" 100 true (Some 9)).
Proof.
  destruct (updateProgress_stores_clamped "u1" "l6" 130 classroom)
    as (_ & _ & r & w' & E & Hstored & Hhealthy).
  exists r, w'. split; [exact E |].
  split; [apply Hhealthy; reflexivity |].
  apply Hstored, Hhealthy. reflexivity.
Defined.

(** C2: when the read of the user's progress rows is served and c of
    them are completed, [getUserStats] returns totalXP = 50c,
    level = floor(50c/200)+1 = floor(c/4)+1, completedLessons = c,
    streakDays = 0 and badgesEarned = floor(c/5); with c = 0 that is
    totalXP 0, level 1, 0 completed lessons and 0 badges. *)
Theorem getUserStats_formulas (userId : string) (w : World) (c : Z) :
  served w ->
  c = Z.of_nat (length (List.filter completed (progress_of userId w))) ->
  0 <= c
  /\ (exists w',
        getUserStats userId w
        = (Normal (ok (Some (mkStats (50 * c) (50 * c / 200 + 1) c 0 (c / 5)))), w'))
  /\ 50 * c / 200 + 1 = c / 4 + 1
  /\ (c = 0 ->
        mkStats (50 * c) (50 * c / 200 + 1) c 0 (c / 5) = mkStats 0 1 0 0 0).
Proof.
  intros Hs ->. set (c := Z.of_nat _).
  assert (Hdiv : 50 * c / 200 + 1 = c / 4 + 1).
  { f_equal. replace 200 with (50 * 4) by reflexivity.
    rewrite Z.div_mul_cancel_l by lia. reflexivity. }
  split; [lia |]. split; [| split; [exact Hdiv | intros ->; reflexivity]].
  unfold getUserStats, try_catch, bind at 1, getAllUserProgress, try_catch,
    bind at 1, select_all_progress, backend.
  unfold served in Hs.
  destruct (faults w) as [|[|e|e] fs]; try contradiction;
    cbn [reply_error reply_data ret ok success negb data default];
    eexists; unfold ret, id, progress_of;
    cbn [with_faults user_lesson_progress];
    fold (progress_of userId w); fold c; rewrite (Z.mul_comm c 50);
    reflexivity.
Qed.

Lemma getUserStats_formulas_witness :
  exists w',
    getUserStats "u1" classroom = (Normal (ok (Some (mkStats 250 2 5 0 1))), w').
Proof.
  destruct (getUserStats_formulas "u1" classroom 5 I eq_refl) as (_ & H & _).
  exact H.
Defined.

Lemma getLesson_run (lessonId : string) (w : World) :
  exists r w1,
    getLesson lessonId w = (Normal r, w1)
    /\ user_lesson_progress w1 = user_lesson_progress w
    /\ (lessons w !! lessonId = None -> success r = false)
    /\ (forall lesson, lessons w !! lessonId = Some lesson -> served w ->
          r = ok (Some (without_author lesson)) /\ w1 = after_call w).
Proof.
  unfold getLesson, try_catch, bind, select_lesson, backend, served, after_call.
  destruct (faults w) as [|[|e|e] fs];
    cbn [with_faults lessons user_lesson_progress].
  - destruct (lessons w !! lessonId) as [lesson|] eqn:L; cbn;
      eexists _, _; (split; [reflexivity |]); (split; [reflexivity |]).
    + split; [discriminate |]. intros ? [= <-] _. split; reflexivity.
    + split; [reflexivity | discriminate].
  - destruct (lessons w !! lessonId) as [lesson|] eqn:L; cbn;
      eexists _, _; (split; [reflexivity |]); (split; [reflexivity |]).
    + split; [discriminate |]. intros ? [= <-] _. split; reflexivity.
    + split; [reflexivity | discriminate].
  - cbn. eexists _, _. split; [reflexivity |]. split; [reflexivity |].
    split; [reflexivity | contradiction].
  - cbn. eexists _, _. split; [reflexivity |]. split; [reflexivity |].
    split; [reflexivity | contradiction].
Qed.

(** C6: [completeLesson(u, l)] first looks the lesson up.  When there is
    no such lesson it returns the failure "Lesson not found" and leaves
    the progress table as it was; when the lookup finds the lesson the
    call is [updateProgress(u, l, 100)] run after the lookup. *)
Theorem completeLesson_needs_the_lesson (userId lessonId : string) (w : World) :
  (lessons w !! lessonId = None ->
     exists w',
       completeLesson userId lessonId w = (Normal (failure "Lesson not found"), w')
       /\ user_lesson_progress w' = user_lesson_progress w)
  /\ (forall lesson,
        lessons w !! lessonId = Some lesson -> served w ->
        getLesson lessonId w = (Normal (ok (Some (without_author lesson))), after_call w)
        /\ completeLesson userId lessonId w
           = updateProgress userId lessonId 100 (after_call w)).
Proof.
  destruct (getLesson_run lessonId w) as (r & w1 & E & Htable & Habsent & Hfound).
  split.
  - intros L. exists w1. split; [| exact Htable].
    unfold completeLesson, try_catch, bind. rewrite E, (Habsent L). reflexivity.
  - intros lesson L Hs. destruct (Hfound lesson L Hs) as [-> ->].
    split; [exact E |].
    unfold completeLesson, try_catch, bind at 1. rewrite E.
    cbn [ok success data negb orb]. rewrite bool_decide_eq_true_2 by (now eexists).
    cbn [negb]. unfold bind.
    destruct (updateProgress_returns userId lessonId 100 (after_call w))
      as (r' & w' & -> & _).
    destruct (negb (success r')); reflexivity.
Qed.

Lemma completeLesson_needs_the_lesson_witness :
  (exists w',
     completeLesson "u1" "l9" classroom = (Normal (failure "Lesson not found"), w')
     /\ user_lesson_progress w' = user_lesson_progress classroom)
  /\ completeLesson "u1" "l1" classroom
     = updateProgress "u1" "l1" 100 (after_call classroom).
Proof.
  destruct (completeLesson_needs_the_lesson "u1" "l9" classroom) as [H _].
  destruct (completeLesson_needs_the_lesson "u1" "l1" classroom) as [_ H'].
  split.
  - apply H. vm_compute. reflexivity.
  - eapply H'; [vm_compute; reflexivity | exact I].
Defined.

End Progress.

(** ** Batches of lookups *)

Section Batches.

(** C7: [checkMultipleDomains] cuts the labels into consecutive batches
    of 5 (the last one possibly shorter), runs the batches one after the
    other, each with one lookup per label followed by the join of the
    batch, and returns one entry per label in the order of the labels:
    the data of the label's lookup when it succeeded, and the entry
    {domain: label, extension, available: false} when it failed. *)
Theorem checkMultipleDomains_in_batches (domains : list string)
    (extension : DomainExtension) (w : World) :
  exists results w',
    checkMultipleDomains domains extension w = (Normal (ok (Some results)), w')
    /\ concat (batches domains) = domains
    /\ (forall k batch,
          batches domains !! k = Some batch ->
          (1 <= length batch <= 5)%nat /\
          (S k < length (batches domains) -> length batch = 5)%nat)
    /\ log w' = log w ++ concat (map (batch_events extension) (batches domains))
    /\ length results = length domains
    /\ forall j label,
         domains !! j = Some label ->
         forall wj,
           wire wj = wire w -> length (log wj) = issued_at w j ->
           exists r wj',
             searchDomain label extension wj = (Normal r, wj')
             /\ (success r = true -> results !! j = data r)
             /\ (success r = false ->
                   results !! j = Some (mkResult label extension false None)).
Proof.
  destruct (checkMultipleDomains_run extension domains w)
    as (results & w' & E & Hlog & Hlen & Hentry).
  exists results, w'. split; [exact E |].
  split; [apply chunks_concat; lia |].
  split; [intros k batch; apply chunks_sizes; lia |].
  split; [exact Hlog |]. split; [exact Hlen |].
  intros j label Hj wj Hwire Hpos.
  rewrite (Hentry j label Hj). rewrite searchDomain_run, Hwire, Hpos.
  eexists _, _. split; [reflexivity |].
  unfold entry_for. split; intros S; rewrite S; [| reflexivity].
  destruct (searchDomain_success_data extension label wj _ _
              (searchDomain_run extension label wj)) as [d Hd].
  { now rewrite Hwire, Hpos. }
  rewrite Hwire, Hpos in Hd. now rewrite Hd.
Qed.

Lemma checkMultipleDomains_in_batches_witness :
  exists results w',
    checkMultipleDomains ["abc"; "de-f"; "-bad"] ext_ke quiet
      = (Normal (ok (Some results)), w')
    /\ results !! 2%nat = Some (mkResult "-bad" ext_ke false None).
Proof.
  destruct (checkMultipleDomains_in_batches ["abc"; "de-f"; "-bad"] ext_ke quiet)
    as (results & w' & E & _ & _ & _ & _ & H).
  exists results, w'. split; [exact E |].
  destruct (H 2%nat "-bad" eq_refl
              (with_log [EvFetch (lookup_request ext_ke "abc");
                         EvFetch (lookup_request ext_ke "de-f")] quiet)
              eq_refl eq_refl) as (r & wj' & Er & _ & Hfail).
  apply Hfail. vm_compute in Er. injection Er as <- _. reflexivity.
Defined.

(** C10: whatever the outcome of each lookup, [checkMultipleDomains]
    returns a success, never the failure branch, with exactly one entry
    per label. *)
Theorem checkMultipleDomains_always_succeeds (domains : list string)
    (extension : DomainExtension) (w : World) :
  exists r w' results,
    checkMultipleDomains domains extension w = (Normal r, w')
    /\ success r = true /\ error r = None
    /\ data r = Some results
    /\ length results = length domains.
Proof.
  destruct (checkMultipleDomains_run extension domains w)
    as (results & w' & E & _ & Hlen & _).
  exists (ok (Some results)), w', results. repeat split; auto.
Qed.

End Batches.

(** ** The shape of what the operations return *)

Section Shapes.

Lemma ApiResponse_uniform {T : Type} (r : ApiResponse T) : uniform_shape r.
Proof.
  unfold uniform_shape, keys, ApiResponse_object, present. split.
  - apply list_elem_of_here.
  - intros k. destruct (data r), (error r); cbn;
      rewrite ?elem_of_cons, ?elem_of_nil; tauto.
Qed.

Lemma outline_returns {T : Type} (m : M (ApiResponse T)) :
  returns well_formed m -> returns well_formed (outline m).
Proof.
  intros H w. unfold outline, bind. destruct (H w) as (r & w' & -> & Hr).
  eexists _, _. split; [reflexivity |]. exact Hr.
Qed.

Lemma checkMultipleDomains_returns domains extension :
  returns well_formed (checkMultipleDomains domains extension).
Proof.
  intros w. destruct (checkMultipleDomains_run extension domains w)
    as (results & w' & E & _).
  exists (ok (Some results)), w'. split; [exact E | apply ok_well_formed].
Qed.



End Shapes.


(* ===================================================================== *)
(** * Part III: further properties of the services and of their callers *)
(* ===================================================================== *)

(** ** More on strings *)

Section MoreStrings.
Import Js.

Lemma append_assoc (a b c : string) : (a +:+ b) +:+ c = a +:+ (b +:+ c).
Proof.
  induction a as [|x a IH]; [reflexivity |].
  rewrite !append_cons. now f_equal.
Qed.

Lemma length_append (a b : string) :
  Js.length (a +:+ b) = Js.length a + Js.length b.
Proof.
  unfold Js.length. induction a as [|x a IH]; [reflexivity |].
  rewrite append_cons. cbn [String.length]. lia.
Qed.

Lemma toLowerCase_append (a b : string) :
  toLowerCase (a +:+ b) = toLowerCase a +:+ toLowerCase b.
Proof.
  induction a as [|x a IH]; [reflexivity |].
  rewrite append_cons. cbn [toLowerCase]. rewrite append_cons. now f_equal.
Qed.

Lemma first_char_append (a b : string) :
  first_char (a +:+ b) =
  match first_char a with
  | Some c => Some c
  | None => first_char b
  end.
Proof. destruct a; reflexivity. Qed.

Lemma last_char_cons c (s : string) :
  last_char (String c s) =
  match last_char s with
  | Some d => Some d
  | None => Some c
  end.
Proof.
  destruct s as [|d s]; [reflexivity |].
  change (last_char (String c (String d s))) with (last_char (String d s)).
  destruct (last_char (String d s)) eqn:E; [reflexivity |]. exfalso.
  revert d E. induction s as [|e s IH]; intros d E; [discriminate |].
  apply (IH e). exact E.
Qed.

Lemma last_char_append_any (a b : string) :
  last_char (a +:+ b) =
  match last_char b with
  | Some d => Some d
  | None => last_char a
  end.
Proof.
  induction a as [|x a IH].
  - rewrite append_empty_l. now destruct (last_char b).
  - rewrite append_cons, !last_char_cons, IH.
    destruct (last_char b); [reflexivity |]. reflexivity.
Qed.

Lemma last_char_none (s : string) : last_char s = None -> s = EmptyString.
Proof.
  destruct s as [|c s]; [reflexivity |]. rewrite last_char_cons.
  destruct (last_char s); discriminate.
Qed.

Lemma last_char_split (s : string) d :
  last_char s = Some d -> exists mid, s = mid +:+ String d EmptyString.
Proof.
  induction s as [|c s IH]; [discriminate |]. rewrite last_char_cons.
  destruct (last_char s) as [e|] eqn:E.
  - intros [= ->]. destruct (IH eq_refl) as [mid ->].
    exists (String c mid). now rewrite append_cons.
  - intros [= ->]. apply last_char_none in E as ->. now exists EmptyString.
Qed.

(** A string is a label exactly when its first and last code units are in
    [[a-z0-9]] and all of them in [[a-z0-9-]]. *)
Lemma label_by_ends (s : string) :
  Matches domainRegex s <->
  (exists c, first_char s = Some c /\ alnum c = true) /\
  (exists d, last_char s = Some d /\ alnum d = true) /\
  Forall (fun x => alnum_hyphen x = true) (chars s).
Proof.
  split.
  - intros H. repeat split; [now apply label_first | now apply label_last
                           | now apply label_chars].
  - intros ((c & Hc & Ec) & (d & Hd & Ed) & Hall).
    apply domain_label. destruct s as [|c' rest]; [discriminate |].
    injection Hc as ->. exists c, rest. split; [reflexivity |]. split; [exact Ec |].
    destruct rest as [|x rest]; [now left |]. right.
    rewrite last_char_cons in Hd.
    destruct (last_char (String x rest)) as [e|] eqn:E; [| now apply last_char_none in E].
    injection Hd as ->. destruct (last_char_split _ _ E) as [mid Hmid].
    exists mid, d. split; [exact Hmid |]. split; [| exact Ed].
    change (chars (String c (String x rest))) with (c :: chars (String x rest)) in Hall.
    apply Forall_cons in Hall as [_ Hall]. rewrite Hmid, chars_append in Hall.
    now apply Forall_app in Hall as [Hall _].
Qed.

Lemma trimStart_fixed (s : string) c :
  first_char s = Some c -> is_space c = false -> trimStart s = s.
Proof. destruct s; [discriminate |]. intros [= ->] E. cbn [trimStart]. now rewrite E. Qed.

Lemma trimEnd_fixed (s : string) d :
  last_char s = Some d -> is_space d = false -> trimEnd s = s.
Proof.
  revert d. induction s as [|c s IH]; intros d; [discriminate |].
  rewrite last_char_cons. cbn [trimEnd].
  destruct (last_char s) as [e|] eqn:E.
  - intros [= ->] Hd. rewrite (IH d eq_refl Hd).
    destruct s; [discriminate |]. cbn [is_empty]. now rewrite andb_false_r.
  - intros [= ->] Hd. apply last_char_none in E as ->. cbn [trimEnd is_empty].
    now rewrite Hd.
Qed.

Lemma alnum_not_space c : alnum c = true -> is_space c = false.
Proof. destruct c as [[] [] [] [] [] [] [] []]; vm_compute; congruence. Qed.

Lemma alnum_hyphen_lower c : alnum_hyphen c = true -> lower_char c = c.
Proof. destruct c as [[] [] [] [] [] [] [] []]; vm_compute; congruence. Qed.

Lemma label_trim_fixed (s : string) : Matches domainRegex s -> trim s = s.
Proof.
  intros ((c & Hc & Ec) & (d & Hd & Ed) & _)%label_by_ends. unfold trim.
  rewrite (trimStart_fixed s c Hc (alnum_not_space c Ec)).
  apply (trimEnd_fixed s d Hd (alnum_not_space d Ed)).
Qed.

Lemma allowed_lower_fixed (s : string) :
  Forall (fun x => alnum_hyphen x = true) (chars s) -> toLowerCase s = s.
Proof.
  induction s as [|c s IH]; [reflexivity |].
  change (chars (String c s)) with (c :: chars s). intros [Hc Hs]%Forall_cons.
  cbn [toLowerCase]. now rewrite (alnum_hyphen_lower c Hc), IH.
Qed.

End MoreStrings.

(** ** Cleaning a label *)

Section Cleaning.
Import Js.

Lemma lower_char_space c : is_space (lower_char c) = is_space c.
Proof. destruct c as [[] [] [] [] [] [] [] []]; reflexivity. Qed.

Lemma toLowerCase_is_empty (s : string) : is_empty (toLowerCase s) = is_empty s.
Proof. destruct s; reflexivity. Qed.

Lemma toLowerCase_trimStart (s : string) :
  toLowerCase (trimStart s) = trimStart (toLowerCase s).
Proof.
  induction s as [|c s IH]; [reflexivity |].
  cbn [trimStart toLowerCase]. rewrite lower_char_space.
  destruct (is_space c); [exact IH | reflexivity].
Qed.

Lemma toLowerCase_trimEnd (s : string) :
  toLowerCase (trimEnd s) = trimEnd (toLowerCase s).
Proof.
  induction s as [|c s IH]; [reflexivity |].
  cbn [trimEnd toLowerCase]. rewrite lower_char_space, <- IH, toLowerCase_is_empty.
  destruct (is_space c && is_empty (trimEnd s)); reflexivity.
Qed.

Lemma trimStart_first (s : string) c :
  first_char (trimStart s) = Some c -> is_space c = false.
Proof.
  induction s as [|x s IH]; [discriminate |]. cbn [trimStart].
  destruct (is_space x) eqn:E; [exact IH |]. now intros [= <-].
Qed.

Lemma trimEnd_first (s : string) c :
  first_char (trimEnd s) = Some c -> first_char s = Some c.
Proof.
  destruct s as [|x s]; [discriminate |]. cbn [trimEnd].
  destruct (is_space x && is_empty (trimEnd s)); [discriminate | now intros [= <-]].
Qed.

Lemma trimEnd_last (s : string) d :
  last_char (trimEnd s) = Some d -> is_space d = false.
Proof.
  revert d. induction s as [|x s IH]; intros d; [discriminate |]. cbn [trimEnd].
  destruct (is_space x && is_empty (trimEnd s)) eqn:E; [discriminate |].
  rewrite last_char_cons. destruct (last_char (trimEnd s)) as [e|] eqn:L.
  - intros [= <-]. now apply IH.
  - intros [= <-]. apply last_char_none in L. rewrite L in E. cbn in E.
    now rewrite andb_true_r in E.
Qed.

Lemma trim_idempotent (s : string) : trim (trim s) = trim s.
Proof.
  unfold trim at 1. set (y := trim s).
  destruct (first_char y) as [c|] eqn:F.
  - assert (Hc : is_space c = false).
    { apply (trimStart_first s c). now apply trimEnd_first. }
    rewrite (trimStart_fixed y c F Hc).
    destruct (last_char y) as [d|] eqn:L.
    + apply (trimEnd_fixed y d L). now apply (trimEnd_last (trimStart s)).
    + apply last_char_none in L. now rewrite L.
  - destruct y; [reflexivity | discriminate].
Qed.

(** Cleaning a cleaned label changes nothing. *)
Lemma cleaned_idempotent (s : string) : cleaned (cleaned s) = cleaned s.
Proof.
  unfold cleaned, trim. rewrite toLowerCase_trimEnd, toLowerCase_trimStart.
  rewrite toLowerCase_idempotent. apply trim_idempotent.
Qed.

Lemma toLowerCase_length (s : string) : Js.length (toLowerCase s) = Js.length s.
Proof.
  unfold Js.length. induction s as [|c s IH]; [reflexivity |].
  cbn [toLowerCase String.length]. lia.
Qed.

Lemma forall_alnum_allowed (s : string) :
  Forall (fun x => alnum x = true) (chars s) ->
  Forall (fun x => alnum_hyphen x = true) (chars s).
Proof.
  intros H. eapply Forall_impl; [exact H |]. intros x. apply alnum_is_allowed.
Qed.

Lemma forall_alnum_first (s : string) c :
  Forall (fun x => alnum x = true) (chars s) -> first_char s = Some c -> alnum c = true.
Proof.
  destruct s as [|x s]; [discriminate |].
  change (chars (String x s)) with (x :: chars s).
  intros [H _]%Forall_cons [= <-]. exact H.
Qed.

Lemma forall_alnum_last (s : string) d :
  Forall (fun x => alnum x = true) (chars s) -> last_char s = Some d -> alnum d = true.
Proof.
  intros H L. destruct (last_char_split s d L) as [mid ->].
  rewrite chars_append in H. apply Forall_app in H as [_ H].
  now apply Forall_cons in H as [H _].
Qed.

(** A label wrapped in letters and digits: its cleaned form, and the
    verdict on it. *)
Lemma wrapped_label_cleaned (pre base post : string) :
  Matches domainRegex (toLowerCase base) ->
  Forall (fun x => alnum x = true) (chars pre) ->
  Forall (fun x => alnum x = true) (chars post) ->
  cleaned (pre +:+ base +:+ post) = pre +:+ toLowerCase base +:+ post
  /\ Matches domainRegex (pre +:+ toLowerCase base +:+ post).
Proof.
  intros Hb Hpre Hpost.
  assert (Hm : Matches domainRegex (pre +:+ toLowerCase base +:+ post)).
  { apply label_by_ends in Hb as ((c & Hc & Ec) & (d & Hd & Ed) & Hall).
    apply label_by_ends. repeat split.
    - rewrite first_char_append. destruct (first_char pre) as [x|] eqn:F.
      + exists x. split; [reflexivity | now apply (forall_alnum_first pre)].
      + rewrite first_char_append, Hc. now exists c.
    - rewrite !last_char_append_any. destruct (last_char post) as [x|] eqn:L.
      + exists x. split; [reflexivity | now apply (forall_alnum_last post)].
      + rewrite Hd. now exists d.
    - rewrite !chars_append. repeat (apply Forall_app; split);
        auto using forall_alnum_allowed. }
  split; [| exact Hm].
  unfold cleaned. rewrite !toLowerCase_append.
  rewrite (allowed_lower_fixed pre) by now apply forall_alnum_allowed.
  rewrite (allowed_lower_fixed post) by now apply forall_alnum_allowed.
  now apply label_trim_fixed.
Qed.

Lemma wrapped_label_verdict (pre base post : string) :
  Matches domainRegex (toLowerCase base) ->
  Forall (fun x => alnum x = true) (chars pre) ->
  Forall (fun x => alnum x = true) (chars post) ->
  isValid (validateDomainName (pre +:+ base +:+ post))
  = (Js.length pre + Js.length base + Js.length post <=? 63).
Proof.
  intros Hb Hpre Hpost.
  destruct (wrapped_label_cleaned pre base post Hb Hpre Hpost) as [Hc Hm].
  assert (Hlen : Js.length (cleaned (pre +:+ base +:+ post))
                 = Js.length pre + Js.length base + Js.length post).
  { rewrite Hc, !length_append, toLowerCase_length. lia. }
  assert (Hpos : 1 <= Js.length base).
  { rewrite <- toLowerCase_length. apply label_first in Hb as (c & Hc' & _).
    destruct (toLowerCase base); [discriminate |]. unfold Js.length.
    cbn [String.length]. lia. }
  assert (Hnn : forall t, 0 <= Js.length t) by (intros t; unfold Js.length; lia).
  pose proof (Hnn pre). pose proof (Hnn post).
  destruct (Z.leb_spec (Js.length pre + Js.length base + Js.length post) 63).
  - apply validateDomainName_verdict. rewrite Hlen, Hc. split; [exact Hm | lia].
  - apply rejected_unless. rewrite Hlen. lia.
Qed.

End Cleaning.

(** ** The registrar directory and the suggestions *)

Section Directory.
Import Js.

(** X1: every registrar of the directory is found by its id (the ids are
    pairwise distinct), a registrar that is found carries the id asked for
    and belongs to the directory, and an id that no registrar carries gives
    null. *)
Theorem getRegistrar_finds_by_id :
  (forall r, r ∈ kenicRegistrars -> getRegistrar (reg_id r) = Some r)
  /\ (forall id r, getRegistrar id = Some r -> reg_id r = id /\ r ∈ kenicRegistrars)
  /\ (forall id, getRegistrar id = None <-> id ∉ map reg_id kenicRegistrars).
Proof.
  split; [| split].
  - apply Forall_forall. unfold kenicRegistrars. repeat constructor.
  - intros id r H. apply find_some in H as [Hin Hid].
    split; [now apply String.eqb_eq | now apply list_elem_of_In].
  - intros id. unfold getRegistrar. split.
    + intros H Hin. apply list_elem_of_In, in_map_iff in Hin as (r & <- & Hr).
      apply (find_none _ _ H) in Hr. now rewrite String.eqb_refl in Hr.
    + intros H. destruct (find _ _) as [r|] eqn:F; [| reflexivity].
      apply find_some in F as [Hin Hid]. apply String.eqb_eq in Hid as <-.
      exfalso. apply H, list_elem_of_In, in_map. exact Hin.
Qed.

Lemma split_without (separator : ascii) (s : string) :
  separator ∉ chars s -> split separator s = [s].
Proof.
  induction s as [|c s IH]; [reflexivity |].
  change (chars (String c s)) with (c :: chars s). intros H.
  apply not_elem_of_cons in H as [Hc Hs]. cbn [split].
  destruct (Ascii.eqb_spec c separator) as [-> | _]; [contradiction |].
  now rewrite (IH Hs).
Qed.

Lemma split_nonempty (separator : ascii) (s : string) : split separator s <> [].
Proof.
  destruct s as [|c s]; cbn [split]; [discriminate |].
  destruct (Ascii.eqb c separator); [discriminate |].
  destruct (split separator s); discriminate.
Qed.

Lemma split_at_first (separator : ascii) (a b : string) :
  separator ∉ chars a ->
  split separator (a +:+ String separator b) = a :: split separator b.
Proof.
  induction a as [|c a IH].
  - intros _. rewrite append_empty_l. cbn [split]. now rewrite Ascii.eqb_refl.
  - change (chars (String c a)) with (c :: chars a). intros H.
    apply not_elem_of_cons in H as [Hc Ha]. rewrite append_cons. cbn [split].
    destruct (Ascii.eqb_spec c separator) as [-> | _]; [contradiction |].
    now rewrite (IH Ha).
Qed.

(** X2: [formatRegistrarUrl] answers "https://" followed by what stands
    between the first and the second "@" of the e-mail address: the host of
    an address local@host, only the middle part of an address with two
    "@", and the text "undefined" for an address without "@". *)
Theorem formatRegistrarUrl_takes_what_follows_the_at :
  (forall local host : string,
     "@"%char ∉ chars local -> "@"%char ∉ chars host ->
     formatRegistrarUrl (local +:+ "@" +:+ host) = "https://" +:+ host)
  /\ (forall local host rest : string,
        "@"%char ∉ chars local -> "@"%char ∉ chars host ->
        formatRegistrarUrl (local +:+ "@" +:+ host +:+ "@" +:+ rest)
        = "https://" +:+ host)
  /\ (forall email : string,
        "@"%char ∉ chars email -> formatRegistrarUrl email = "https://undefined").
Proof.
  unfold formatRegistrarUrl. split; [| split].
  - intros local host Hl Hh.
    change ("@" +:+ host) with (String "@" host).
    now rewrite (split_at_first _ _ _ Hl), (split_without _ _ Hh).
  - intros local host rest Hl Hh.
    change ("@" +:+ host +:+ "@" +:+ rest)
      with (String "@" (host +:+ String "@" rest)).
    now rewrite (split_at_first _ _ _ Hl), (split_at_first _ _ _ Hh).
  - intros email H. now rewrite (split_without _ _ H).
Qed.

Lemma formatRegistrarUrl_takes_what_follows_the_at_witness :
  formatRegistrarUrl "info@kenic.or.ke" = "https://kenic.or.ke"
  /\ formatRegistrarUrl "a@b@c" = "https://b"
  /\ formatRegistrarUrl "kenic.or.ke" = "https://undefined".
Proof.
  destruct formatRegistrarUrl_takes_what_follows_the_at as (H1 & H2 & H3).
  assert (D : forall (c : ascii) (l : list ascii), bool_decide (c ∈ l) = false -> c ∉ l)
    by (intros c l; apply bool_decide_eq_false).
  split; [| split].
  - apply (H1 "info" "kenic.or.ke"); apply D; reflexivity.
  - apply (H2 "a" "b" "c"); apply D; reflexivity.
  - apply H3, D. reflexivity.
Defined.

Lemma verdict_suffixed (base post : string) :
  Matches domainRegex (toLowerCase base) ->
  Forall (fun x => alnum x = true) (chars post) ->
  isValid (validateDomainName (base +:+ post))
  = (Js.length base + Js.length post <=? 63).
Proof.
  intros Hb Hp.
  exact (wrapped_label_verdict EmptyString base post Hb (Forall_nil_2 _) Hp).
Qed.

Lemma verdict_prefixed (pre base : string) :
  Matches domainRegex (toLowerCase base) ->
  Forall (fun x => alnum x = true) (chars pre) ->
  isValid (validateDomainName (pre +:+ base))
  = (Js.length pre + Js.length base <=? 63).
Proof.
  intros Hb Hp.
  pose proof (wrapped_label_verdict pre base EmptyString Hb Hp (Forall_nil_2 _)) as H.
  rewrite append_empty_r in H. rewrite H. f_equal. unfold Js.length. cbn. lia.
Qed.

Lemma verdict_bare (base : string) :
  Matches domainRegex (toLowerCase base) ->
  isValid (validateDomainName base) = (Js.length base <=? 63).
Proof.
  intros Hb. pose proof (verdict_prefixed EmptyString base Hb (Forall_nil_2 _)) as H.
  exact H.
Qed.

(** X3: [getSuggestedDomains] offers only names that [validateDomainName]
    accepts, chosen among the base and its five variants.  For a base that
    is a label up to case: all six are offered, the base first, when the
    base has at most 57 characters; only the base when it has 62 or 63; and
    none when it has more.  For the empty base the five affixes alone are
    offered. *)
Theorem getSuggestedDomains_of_a_label (base : string) :
  (forall s, s ∈ getSuggestedDomains base ->
     isValid (validateDomainName s) = true /\
     s ∈ [base; base +:+ "ke"; base +:+ "online"; "my" +:+ base;
          base +:+ "site"; base +:+ "web"])
  /\ (Matches domainRegex (toLowerCase base) ->
      (Js.length base <= 57 ->
         getSuggestedDomains base
         = [base; base +:+ "ke"; base +:+ "online"; "my" +:+ base;
            base +:+ "site"; base +:+ "web"])
      /\ (61 < Js.length base <= 63 -> getSuggestedDomains base = [base])
      /\ (63 < Js.length base -> getSuggestedDomains base = []))
  /\ getSuggestedDomains "" = ["ke"; "online"; "my"; "site"; "web"].
Proof.
  split; [| split; [| reflexivity]].
  - intros s Hs. unfold getSuggestedDomains in Hs.
    apply list_elem_of_In, filter_In in Hs as [Hin Hv].
    split; [exact Hv | now apply list_elem_of_In].
  - intros Hb.
    assert (A : forall t : string, bool_decide (Forall (fun x => alnum x = true) (chars t)) = true
                -> Forall (fun x => alnum x = true) (chars t))
      by (intros t; apply bool_decide_eq_true).
    unfold getSuggestedDomains. cbn [List.filter].
    rewrite (verdict_bare base Hb).
    rewrite (verdict_suffixed base "ke" Hb), (verdict_suffixed base "online" Hb),
      (verdict_prefixed "my" base Hb), (verdict_suffixed base "site" Hb),
      (verdict_suffixed base "web" Hb) by (apply A; reflexivity).
    change (Js.length "ke") with 2. change (Js.length "online") with 6.
    change (Js.length "my") with 2. change (Js.length "site") with 4.
    change (Js.length "web") with 3.
    repeat split; intros H.
    + rewrite !(proj2 (Z.leb_le _ _)) by lia. reflexivity.
    + rewrite (proj2 (Z.leb_le (Js.length base) 63)) by lia.
      rewrite !(proj2 (Z.leb_gt _ _)) by lia. reflexivity.
    + rewrite !(proj2 (Z.leb_gt _ _)) by lia. reflexivity.
Qed.

Lemma getSuggestedDomains_of_a_label_witness :
  getSuggestedDomains "MyShop"
  = ["MyShop"; "MyShopke"; "MyShoponline"; "myMyShop"; "MyShopsite"; "MyShopweb"].
Proof.
  destruct (getSuggestedDomains_of_a_label "MyShop") as (_ & H & _).
  apply H; [apply test_matches; reflexivity | vm_compute; discriminate].
Defined.

End Directory.

(** ** One lookup *)

Section OneLookup.

(** X4: [searchDomain] issues exactly one request, for the cleaned label
    and the given extension, and touches nothing else; a success names the
    cleaned label and the extension and lists the whole directory exactly
    when the name is available; a response with a status outside 200..299
    gives the failure "HTTP error: " followed by the status. *)
Theorem searchDomain_asks_once (label : string) (extension : DomainExtension)
    (w : World) :
  exists r w',
    searchDomain label extension w = (Normal r, w')
    /\ log w' = log w ++ [EvFetch (mkLookup (cleaned label) extension)]
    /\ (user_lesson_progress w' = user_lesson_progress w
        /\ lessons w' = lessons w /\ profiles w' = profiles w
        /\ storage w' = storage w /\ faults w' = faults w)
    /\ (success r = true ->
        exists found,
          data r = Some found
          /\ res_domain found = cleaned label
          /\ res_extension found = extension
          /\ res_registrars found
             = (if res_available found then Some kenicRegistrars else None))
    /\ (forall response,
          wire w (length (log w)) (mkLookup (cleaned label) extension) = Answered response ->
          response_ok response = false ->
          r = failure ("HTTP error: " +:+ Js.show (status_code response))).
Proof.
  rewrite searchDomain_run. eexists _, _. split; [reflexivity |].
  split; [reflexivity |]. split; [now repeat split |].
  unfold lookup_request, answer. split.
  - destruct (wire w _ _) as [e | rsp]; [discriminate |].
    destruct (response_ok rsp); [| discriminate].
    destruct (body rsp) as [e | available]; [discriminate |].
    intros _. eexists. split; [reflexivity |]. now repeat split.
  - intros response -> Hok. now rewrite Hok.
Qed.

Lemma searchDomain_asks_once_witness :
  fst (searchDomain " Shop " ext_co_ke
         (with_log [] (mkWorld ∅ ∅ ∅ None ∅ 0 []
                         (fun _ _ => Answered (mkResponse 404 (Json false))) [])))
  = Normal (failure "HTTP error: 404").
Proof.
  destruct (searchDomain_asks_once " Shop " ext_co_ke
              (with_log [] (mkWorld ∅ ∅ ∅ None ∅ 0 []
                              (fun _ _ => Answered (mkResponse 404 (Json false))) [])))
    as (r & w' & E & _ & _ & _ & H).
  rewrite E. cbn [fst]. f_equal. apply (H (mkResponse 404 (Json false))); reflexivity.
Defined.

(** X5: cleaning is idempotent, so handing [searchDomain] or
    [validateDomainName] a label that was already lower-cased and trimmed,
    as the search screen does, gives the outcome of the raw label. *)
Theorem cleaning_twice_is_harmless (label : string) (extension : DomainExtension)
    (w : World) :
  cleaned (cleaned label) = cleaned label
  /\ searchDomain (Js.trim (Js.toLowerCase label)) extension w
     = searchDomain label extension w
  /\ validateDomainName (Js.trim (Js.toLowerCase label)) = validateDomainName label.
Proof.
  pose proof (cleaned_idempotent label) as H.
  split; [exact H |]. split.
  - fold (cleaned label). rewrite !searchDomain_run.
    unfold lookup_request, answer. now rewrite H.
  - fold (cleaned label). unfold validateDomainName.
    fold (cleaned (cleaned label)). fold (cleaned label). now rewrite H.
Qed.

End OneLookup.

(** ** Reading and writing progress *)

Section ProgressRows.

(** X6: [getUserProgress] never writes; when the read is served it
    succeeds with the row of the pair, or with null when there is none; a
    "not found" error (code PGRST116) is a success with null, any other
    error a failure with its message, and a thrown error a failure with the
    message of the error. *)
Theorem getUserProgress_treats_not_found_as_empty (userId lessonId : string)
    (w : World) :
  exists r w',
    getUserProgress userId lessonId w = (Normal r, w')
    /\ user_lesson_progress w' = user_lesson_progress w
    /\ (served w -> r = ok (user_lesson_progress w !! (userId, lessonId)))
    /\ (forall e fs,
          faults w = Refuses e :: fs ->
          r = if String.eqb (be_code e) "PGRST116" then ok None
              else failure (be_message e))
    /\ (forall e fs,
          faults w = Crashes e :: fs ->
          r = failure (messageOr e "Failed to fetch user progress")).
Proof.
  unfold getUserProgress, try_catch, bind, select_progress, backend, served.
  destruct (faults w) as [|[|e|e] fs];
    cbn [with_faults user_lesson_progress].
  - destruct (user_lesson_progress w !! (userId, lessonId)) as [row|]; cbn;
      eexists _, _; (split; [reflexivity |]); (split; [reflexivity |]);
      (split; [reflexivity |]); split; discriminate.
  - destruct (user_lesson_progress w !! (userId, lessonId)) as [row|]; cbn;
      eexists _, _; (split; [reflexivity |]); (split; [reflexivity |]);
      (split; [reflexivity |]); split; discriminate.
  - cbn [reply_error reply_data].
    destruct (String.eqb (be_code e) "PGRST116") eqn:C; cbn [negb ret];
      eexists _, _; (split; [reflexivity |]); (split; [reflexivity |]);
      (split; [contradiction |]); (split; [| discriminate]);
      intros e' fs' [= <- _]; now rewrite C.
  - cbn. eexists _, _. split; [reflexivity |]. split; [reflexivity |].
    split; [contradiction |]. split; [discriminate |].
    now intros e' fs' [= <- _].
Qed.

Lemma getUserProgress_treats_not_found_as_empty_witness :
  fst (getUserProgress "u1" "l9" classroom) = Normal (ok None)
  /\ fst (getUserProgress "u1" "l6" classroom)
     = Normal (ok (Some (mkProgress "u1" "l6" 40 false None))).
Proof.
  destruct (getUserProgress_treats_not_found_as_empty "u1" "l9" classroom)
    as (r & w' & E & _ & H & _).
  destruct (getUserProgress_treats_not_found_as_empty "u1" "l6" classroom)
    as (r2 & w2 & E2 & _ & H2 & _).
  rewrite E, E2. cbn [fst]. split; f_equal.
  - rewrite (H I). reflexivity.
  - rewrite (H2 I). reflexivity.
Defined.

Lemma getUserProgress_healthy (userId lessonId : string) (w : World) :
  faults w = [] ->
  getUserProgress userId lessonId w
  = (Normal (ok (user_lesson_progress w !! (userId, lessonId))), w).
Proof.
  intros F. unfold getUserProgress, try_catch, bind, select_progress, backend.
  rewrite F. destruct (user_lesson_progress w !! (userId, lessonId)); reflexivity.
Qed.

Lemma updateProgress_healthy (userId lessonId : string) (p : Z) (w : World) :
  faults w = [] ->
  updateProgress userId lessonId p w
  = (Normal (ok (Some (progressData userId lessonId p (now w)))),
     with_progress (<[(userId, lessonId) := progressData userId lessonId p (now w)]>
                      (user_lesson_progress w)) w).
Proof.
  intros F. unfold updateProgress, try_catch, bind at 1.
  rewrite (getUserProgress_healthy _ _ _ F).
  unfold bind, current_time, update_progress, insert_progress, backend.
  cbn [ok data user_id lesson_id progressData].
  destruct (user_lesson_progress w !! (userId, lessonId)) as [old|] eqn:L;
    rewrite F, L; cbn [reply_error reply_data ret]; [| reflexivity].
  now rewrite insert_delete_eq.
Qed.

Lemma consistent_insert (w : World) (row : UserProgress) :
  consistent w ->
  consistent (with_progress (<[(user_id row, lesson_id row) := row]>
                               (user_lesson_progress w)) w).
Proof.
  intros H k r. cbn [with_progress user_lesson_progress].
  rewrite lookup_insert. case_decide as E.
  - intros [= <-]. now symmetry.
  - apply H.
Qed.

(** X7: against a healthy backend [updateProgress] is an upsert: the row it
    built is returned and becomes the one row of the pair (user, lesson),
    whether or not there was one; every other row stays as it was; reading
    the pair back gives the row; and rows stay filed under their own
    pair. *)
Theorem updateProgress_upserts (userId lessonId : string) (p : Z) (w : World) :
  faults w = [] ->
  exists w',
    updateProgress userId lessonId p w
      = (Normal (ok (Some (progressData userId lessonId p (now w)))), w')
    /\ user_lesson_progress w'
       = <[(userId, lessonId) := progressData userId lessonId p (now w)]>
           (user_lesson_progress w)
    /\ (forall k, k <> (userId, lessonId) ->
          user_lesson_progress w' !! k = user_lesson_progress w !! k)
    /\ getUserProgress userId lessonId w'
       = (Normal (ok (Some (progressData userId lessonId p (now w)))), w')
    /\ (consistent w -> consistent w').
Proof.
  intros F. eexists. split; [apply (updateProgress_healthy _ _ _ _ F) |].
  split; [reflexivity |]. split; [| split].
  - intros k Hk. cbn [with_progress user_lesson_progress].
    now rewrite lookup_insert_ne.
  - rewrite getUserProgress_healthy by exact F.
    cbn [with_progress user_lesson_progress]. now rewrite lookup_insert_eq.
  - apply (consistent_insert w (progressData userId lessonId p (now w))).
Qed.

Lemma updateProgress_upserts_witness :
  exists w',
    updateProgress "u2" "l1" 55 classroom
      = (Normal (ok (Some (mkProgress "u2" "l1" 55 false None))), w')
    /\ user_lesson_progress w' !! ("u1", "l6")
       = Some (mkProgress "u1" "l6" 40 false None).
Proof.
  destruct (updateProgress_upserts "u2" "l1" 55 classroom eq_refl)
    as (w' & E & _ & H & _).
  exists w'. split; [exact E |]. rewrite H; [reflexivity | discriminate].
Defined.

(** X8: a read that does not produce the row (an error or a throw of the
    backend) does not stop [updateProgress]: it goes on to insert.  With no
    row for the pair the row is stored and the call succeeds; with a row
    already there the insert is refused as a duplicate key, the call fails
    with that message and the stored row stays. *)
Theorem updateProgress_inserts_after_a_failed_read (userId lessonId : string)
    (p : Z) (w : World) (fault : Fault) :
  faults w = [fault] -> fault <> Healthy ->
  let row := progressData userId lessonId p (now w) in
  exists r w',
    updateProgress userId lessonId p w = (Normal r, w')
    /\ (user_lesson_progress w !! (userId, lessonId) = None ->
          r = ok (Some row)
          /\ user_lesson_progress w'
             = <[(userId, lessonId) := row]> (user_lesson_progress w))
    /\ (is_Some (user_lesson_progress w !! (userId, lessonId)) ->
          r = failure (be_message duplicate_key)
          /\ user_lesson_progress w' = user_lesson_progress w).
Proof.
  intros F Hf row.
  unfold updateProgress, try_catch, bind, getUserProgress, try_catch, bind,
    select_progress, current_time, update_progress, insert_progress, backend.
  rewrite F. destruct fault as [|e|e]; [congruence | |].
  - cbn [reply_error reply_data].
    destruct (negb (String.eqb (be_code e) "PGRST116"));
      cbn [ret failure ok data with_faults faults now user_id lesson_id
           progressData user_lesson_progress];
      fold row;
      destruct (user_lesson_progress w !! (userId, lessonId)) as [old|] eqn:L;
      cbn [reply_error reply_data]; eexists _, _; (split; [reflexivity |]);
      split; first [discriminate | solve [intros [? [=]]] | intros _; split; reflexivity].
  - cbn [ret failure ok data with_faults faults now user_id lesson_id
         progressData user_lesson_progress].
    fold row.
    destruct (user_lesson_progress w !! (userId, lessonId)) as [old|] eqn:L;
      cbn [reply_error reply_data]; eexists _, _; (split; [reflexivity |]);
      split; first [discriminate | solve [intros [? [=]]] | intros _; split; reflexivity].
Qed.

Lemma updateProgress_inserts_after_a_failed_read_witness :
  fst (updateProgress "u1" "l6" 70
         (with_faults [Crashes (ErrorObject "Network request failed")] classroom))
  = Normal (failure "duplicate key value violates unique constraint")
  /\ fst (updateProgress "u3" "l1" 70
            (with_faults [Crashes (ErrorObject "Network request failed")] classroom))
     = Normal (ok (Some (mkProgress "u3" "l1" 70 false None))).
Proof.
  destruct (updateProgress_inserts_after_a_failed_read "u1" "l6" 70
              (with_faults [Crashes (ErrorObject "Network request failed")] classroom)
              _ eq_refl ltac:(discriminate)) as (r & w' & E & _ & H).
  destruct (updateProgress_inserts_after_a_failed_read "u3" "l1" 70
              (with_faults [Crashes (ErrorObject "Network request failed")] classroom)
              _ eq_refl ltac:(discriminate)) as (r2 & w2 & E2 & H2 & _).
  rewrite E, E2. cbn [fst]. split; f_equal.
  - apply H. vm_compute. eauto.
  - apply H2. vm_compute. reflexivity.
Defined.

End ProgressRows.

(** ** Statistics *)

Section Statistics.

(** X9: whenever [getUserStats] succeeds, its figures fit together:
    totalXP is 50 times the number of completed lessons, which is not
    negative; the level is at least 1 and totalXP lies in the bracket
    [200(level-1), 200 level); there is one badge per five completed
    lessons; and the streak is 0. *)
Theorem getUserStats_figures_fit (userId : string) (w w' : World)
    (r : ApiResponse UserStats) :
  getUserStats userId w = (Normal r, w') ->
  success r = true ->
  exists stats,
    data r = Some stats
    /\ 0 <= completedLessons stats
    /\ totalXP stats = 50 * completedLessons stats
    /\ 1 <= level stats
    /\ 200 * (level stats - 1) <= totalXP stats < 200 * level stats
    /\ 5 * badgesEarned stats <= completedLessons stats < 5 * badgesEarned stats + 5
    /\ streakDays stats = 0.
Proof.
  assert (Fit : forall c : Z, 0 <= c ->
            0 <= c /\ c * 50 = 50 * c /\ 1 <= c * 50 / 200 + 1
            /\ 200 * (c * 50 / 200 + 1 - 1) <= c * 50 < 200 * (c * 50 / 200 + 1)
            /\ 5 * (c / 5) <= c < 5 * (c / 5) + 5 /\ 0 = 0).
  { intros c Hc.
    pose proof (Z.div_mod (c * 50) 200 ltac:(lia)).
    pose proof (Z.mod_pos_bound (c * 50) 200 ltac:(lia)).
    pose proof (Z.div_mod c 5 ltac:(lia)).
    pose proof (Z.mod_pos_bound c 5 ltac:(lia)).
    assert (0 <= c * 50 / 200) by (apply Z.div_pos; lia).
    repeat split; lia. }
  unfold getUserStats, try_catch, bind at 1, getAllUserProgress, try_catch,
    bind at 1, select_all_progress, backend.
  destruct (faults w) as [|[|e|e] fs];
    cbn [reply_error reply_data ret ok failure success negb data default];
    unfold ret; intros [= <- _]; try discriminate; intros _;
    eexists; (split; [reflexivity |]);
    cbn [totalXP level completedLessons streakDays badgesEarned];
    apply Fit; lia.
Qed.

Lemma getUserStats_figures_fit_witness :
  exists r w' stats,
    getUserStats "u1" classroom = (Normal r, w')
    /\ data r = Some stats
    /\ totalXP stats = 250 /\ level stats = 2 /\ badgesEarned stats = 1.
Proof.
  assert (E : getUserStats "u1" classroom
              = (Normal (ok (Some (mkStats 250 2 5 0 1))), classroom))
    by reflexivity.
  destruct (getUserStats_figures_fit "u1" classroom _ _ E eq_refl)
    as (stats & Hd & _).
  eexists _, _, stats. split; [exact E |]. split; [exact Hd |].
  injection Hd as <-. repeat split.
Defined.

Lemma filter_length_permutation {A : Type} (f : A -> bool) (l l' : list A) :
  l ≡ₚ l' -> length (List.filter f l) = length (List.filter f l').
Proof.
  induction 1 as [|x l l' _ IH|x y l|l l' l'' _ IH1 _ IH2]; cbn [List.filter].
  - reflexivity.
  - destruct (f x); cbn [length]; now rewrite IH.
  - destruct (f x), (f y); reflexivity.
  - now rewrite IH1.
Qed.

Lemma filter_permutation {A : Type} (f : A -> bool) (l l' : list A) :
  l ≡ₚ l' -> List.filter f l ≡ₚ List.filter f l'.
Proof.
  induction 1 as [|x l l' _ IH|x y l|l l' l'' _ IH1 _ IH2]; cbn [List.filter].
  - reflexivity.
  - destruct (f x); [now constructor | exact IH].
  - destruct (f x), (f y); try reflexivity. apply perm_swap.
  - now rewrite IH1.
Qed.

(** The completed rows of a user, counted in a list of rows. *)
Lemma tally_permutation (userId : string) (rows rows' : list UserProgress) :
  rows ≡ₚ rows' ->
  length (List.filter completed
            (List.filter (fun p => String.eqb (user_id p) userId) rows))
  = length (List.filter completed
              (List.filter (fun p => String.eqb (user_id p) userId) rows')).
Proof.
  intros H. apply filter_length_permutation, filter_permutation, H.
Qed.

Lemma rows_after_insert (t : gmap (string * string) UserProgress)
    (k : string * string) (row : UserProgress) :
  rows_of (<[k := row]> t) ≡ₚ row :: rows_of (delete k t).
Proof.
  unfold rows_of. rewrite <- insert_delete_eq.
  rewrite map_to_list_insert by apply lookup_delete_eq. reflexivity.
Qed.

Lemma rows_with_old (t : gmap (string * string) UserProgress)
    (k : string * string) (old : UserProgress) :
  t !! k = Some old -> rows_of t ≡ₚ old :: rows_of (delete k t).
Proof.
  intros H. unfold rows_of. rewrite <- (map_to_list_delete t k old H). reflexivity.
Qed.

(** How an upsert of a row of [userId] changes the user's count of
    completed rows. *)
Lemma completedCount_after_upsert (userId lessonId : string) (row : UserProgress)
    (w : World) :
  consistent w ->
  user_id row = userId -> lesson_id row = lessonId ->
  completedCount userId
    (with_progress (<[(userId, lessonId) := row]> (user_lesson_progress w)) w)
  = completedCount userId w
    - (match user_lesson_progress w !! (userId, lessonId) with
       | Some old => if completed old then 1 else 0
       | None => 0
       end)
    + (if completed row then 1 else 0).
Proof.
  intros Hc Hu Hl. unfold completedCount, progress_of.
  cbn [with_progress user_lesson_progress].
  rewrite (tally_permutation userId _ _ (rows_after_insert _ _ row)).
  cbn [List.filter]. rewrite Hu, String.eqb_refl. cbn [List.filter].
  destruct (user_lesson_progress w !! (userId, lessonId)) as [old|] eqn:L.
  - rewrite (tally_permutation userId _ _ (rows_with_old _ _ old L)).
    cbn [List.filter].
    assert (Hold : user_id old = userId).
    { specialize (Hc _ _ L). now injection Hc as -> _. }
    rewrite Hold, String.eqb_refl. cbn [List.filter].
    destruct (completed row), (completed old); cbn [length]; lia.
  - rewrite (delete_id _ _ L).
    destruct (completed row); cbn [length]; lia.
Qed.

Lemma getUserStats_healthy (userId : string) (w : World) :
  faults w = [] ->
  getUserStats userId w
  = (Normal (ok (Some (mkStats (completedCount userId w * 50)
                               (completedCount userId w * 50 / 200 + 1)
                               (completedCount userId w) 0
                               (completedCount userId w / 5)))), w).
Proof.
  intros F. unfold getUserStats, try_catch, bind at 1, getAllUserProgress,
    try_catch, bind at 1, select_all_progress, backend.
  now rewrite F.
Qed.

Lemma completeLesson_healthy (userId lessonId : string) (lesson : Lesson)
    (w : World) :
  faults w = [] -> lessons w !! lessonId = Some lesson ->
  completeLesson userId lessonId w = updateProgress userId lessonId 100 w.
Proof.
  intros F L. unfold completeLesson, try_catch, bind at 1, getLesson, try_catch,
    bind at 1, select_lesson, backend.
  rewrite F, L. cbn [fmap option_fmap option_map single reply_error reply_data
                     ret ok success data negb orb].
  rewrite bool_decide_eq_true_2 by (now eexists). cbn [negb].
  unfold bind. rewrite (updateProgress_healthy _ _ _ _ F). reflexivity.
Qed.

(** X10: against a healthy backend, completing an existing lesson stores
    the row {100, completed, completion time now} for the pair and changes
    neither the lessons nor the profiles (no XP is written anywhere); the
    user's count of completed lessons grows by one when the lesson was not
    completed before and stays when it was; and [getUserStats] then reports
    50 XP per completed lesson, whatever the XP reward of the lesson. *)
Theorem completing_a_lesson_counts_once (userId lessonId : string)
    (lesson : Lesson) (w : World) :
  faults w = [] -> consistent w -> lessons w !! lessonId = Some lesson ->
  exists w' stats,
    completeLesson userId lessonId w
      = (Normal (ok (Some (mkProgress userId lessonId 100 true (Some (now w))))), w')
    /\ user_lesson_progress w' !! (userId, lessonId)
       = Some (mkProgress userId lessonId 100 true (Some (now w)))
    /\ lessons w' = lessons w /\ profiles w' = profiles w
    /\ consistent w'
    /\ completedCount userId w'
       = completedCount userId w
         + (match user_lesson_progress w !! (userId, lessonId) with
            | Some old => if completed old then 0 else 1
            | None => 1
            end)
    /\ getUserStats userId w' = (Normal (ok (Some stats)), w')
    /\ completedLessons stats = completedCount userId w'
    /\ totalXP stats = 50 * completedCount userId w'.
Proof.
  intros F Hc L.
  rewrite (completeLesson_healthy _ _ _ _ F L), (updateProgress_healthy _ _ _ _ F).
  change (progressData userId lessonId 100 (now w))
    with (mkProgress userId lessonId 100 true (Some (now w))).
  set (row := mkProgress userId lessonId 100 true (Some (now w))).
  eexists _, _. split; [reflexivity |].
  split; [cbn [with_progress user_lesson_progress]; apply lookup_insert_eq |].
  split; [reflexivity |]. split; [reflexivity |].
  split; [apply (consistent_insert w row Hc) |].
  split.
  { rewrite (completedCount_after_upsert userId lessonId row w Hc eq_refl eq_refl).
    cbn [completed row].
    destruct (user_lesson_progress w !! (userId, lessonId)) as [old|]; [| lia].
    destruct (completed old); lia. }
  split; [apply getUserStats_healthy; exact F |].
  cbn [completedLessons totalXP]. split; [reflexivity | lia].
Qed.

Lemma completing_a_lesson_counts_once_witness :
  exists w' stats,
    getUserStats "u2" w' = (Normal (ok (Some stats)), w')
    /\ user_lesson_progress w' !! ("u2", "l1")
       = Some (mkProgress "u2" "l1" 100 true (Some 9))
    /\ totalXP stats = 50.
Proof.
  assert (C : consistent classroom).
  { apply (map_Forall_to_list
             (fun k row => k = (user_id row, lesson_id row))
             (user_lesson_progress classroom)).
    vm_compute. repeat constructor. }
  destruct (completing_a_lesson_counts_once "u2" "l1" _ classroom eq_refl C eq_refl)
    as (w' & stats & _ & Hrow & _ & _ & _ & Hcount & Hstats & _ & Hxp).
  exists w', stats. split; [exact Hstats |]. split; [exact Hrow |].
  rewrite Hxp, Hcount. reflexivity.
Defined.

End Statistics.

(** ** Listing lessons *)

Section Listing.

Lemma published_empty_values (w : World) :
  published (Some (mkFilter (Some EmptyString) (Some EmptyString))) w = published None w.
Proof. reflexivity. Qed.

(** X11: [fetchLessons] asks for the lessons with their authors and, when
    that query is answered with an error, asks again without the authors:
    a served first query gives the lessons with authors; a refused first
    and a served second query give the same lessons without authors; two
    refusals give a failure with the message of the second error; a throw
    gives a failure with the message of the error.  Empty filter values
    add no condition, and no call changes the lessons. *)
Theorem fetchLessons_falls_back (filter : option LessonFilter) (w : World) :
  (served w ->
     fst (fetchLessons filter w)
     = Normal (ok (Some (map (with_author w) (published filter w)))))
  /\ (forall e fs,
        faults w = Refuses e :: fs -> served (with_faults fs w) ->
        fst (fetchLessons filter w)
        = Normal (ok (Some (map without_author (published filter w)))))
  /\ (forall e e' fs,
        faults w = Refuses e :: Refuses e' :: fs ->
        fst (fetchLessons filter w) = Normal (failure (be_message e')))
  /\ (forall e fs,
        faults w = Crashes e :: fs ->
        fst (fetchLessons filter w)
        = Normal (failure (messageOr e "Failed to fetch lessons")))
  /\ fst (fetchLessons (Some (mkFilter (Some EmptyString) (Some EmptyString))) w)
     = fst (fetchLessons None w)
  /\ lessons (snd (fetchLessons filter w)) = lessons w.
Proof.
  unfold fetchLessons, try_catch, bind, select_lessons_joined, select_lessons,
    backend, served.
  split; [| split; [| split; [| split; [| split]]]].
  - intros Hs. destruct (faults w) as [|[|e|e] fs]; try contradiction; reflexivity.
  - intros e fs F Hs. rewrite F. cbn [with_faults faults] in Hs.
    cbn [reply_error with_faults faults].
    destruct fs as [|[|e1|e1] fs]; try contradiction; reflexivity.
  - intros e e' fs F. rewrite F. reflexivity.
  - intros e fs F. rewrite F. reflexivity.
  - destruct (faults w) as [|[|e|e] [|[|e'|e'] fs]];
      cbn [reply_error reply_data with_faults faults ret fst lessons profiles];
      rewrite ?published_empty_values; reflexivity.
  - destruct (faults w) as [|[|e|e] [|[|e'|e'] fs]]; reflexivity.
Qed.

Lemma fetchLessons_falls_back_witness :
  fst (fetchLessons None
         (with_faults [Refuses (mkBackendError "relationship not found" "PGRST200")]
                      classroom))
  = Normal (ok (Some [mkLesson "l1" "Variables" "basics" "beginner" 50
                               "published" 1 "a1" None])).
Proof.
  destruct (fetchLessons_falls_back None
              (with_faults [Refuses (mkBackendError "relationship not found" "PGRST200")]
                           classroom)) as (_ & H & _).
  rewrite (H _ _ eq_refl I). reflexivity.
Defined.

Lemma distinct_spec (items : list string) :
  forall seen,
    NoDup (distinct seen items)
    /\ forall x, x ∈ distinct seen items <-> x ∈ items /\ x ∉ seen.
Proof.
  induction items as [|y items IH]; intros seen; cbn [distinct].
  - split; [constructor |]. intros x. rewrite elem_of_nil. tauto.
  - case_bool_decide as Hy.
    + destruct (IH seen) as [Hn Hx]. split; [exact Hn |].
      intros x. rewrite Hx, elem_of_cons. split; [tauto |].
      intros [[-> | H] Hs]; [contradiction | tauto].
    + destruct (IH (y :: seen)) as [Hn Hx]. split.
      * constructor; [| exact Hn]. rewrite Hx, elem_of_cons. tauto.
      * intros x. rewrite !elem_of_cons, Hx, elem_of_cons.
        destruct (decide (x = y)) as [-> | ne]; tauto.
Qed.

Lemma published_column (column : Lesson -> string) (w : World) (c : string) :
  c ∈ map column (List.filter (fun l => String.eqb (status l) "published")
                              (rows_of (lessons w)))
  <-> exists id lesson,
        lessons w !! id = Some lesson /\ status lesson = "published"
        /\ column lesson = c.
Proof.
  rewrite list_elem_of_In, in_map_iff. split.
  - intros (lesson & <- & [Hin Hs]%filter_In).
    apply String.eqb_eq in Hs. unfold rows_of in Hin.
    apply in_map_iff in Hin as ([id l] & <- & Hin).
    apply list_elem_of_In, elem_of_map_to_list in Hin. now exists id, l.
  - intros (id & lesson & Hl & Hs & <-). exists lesson. split; [reflexivity |].
    apply filter_In. split; [| now apply String.eqb_eq].
    unfold rows_of. apply in_map_iff. exists (id, lesson). split; [reflexivity |].
    now apply list_elem_of_In, elem_of_map_to_list.
Qed.

(** X12: when the query is served, [getCategories] returns every category
    of a published lesson exactly once (and nothing else), and
    [getDifficultyLevels] does the same for the difficulty levels. *)
Theorem getCategories_lists_each_once (w : World) :
  served w ->
  (exists categories w',
     getCategories w = (Normal (ok (Some categories)), w')
     /\ NoDup categories
     /\ forall c, c ∈ categories <->
          exists id lesson,
            lessons w !! id = Some lesson /\ status lesson = "published"
            /\ category lesson = c)
  /\ (exists levels w',
        getDifficultyLevels w = (Normal (ok (Some levels)), w')
        /\ NoDup levels
        /\ forall d, d ∈ levels <->
             exists id lesson,
               lessons w !! id = Some lesson /\ status lesson = "published"
               /\ difficulty lesson = d).
Proof.
  intros Hs. unfold served in Hs.
  unfold getCategories, getDifficultyLevels, try_catch, bind, select_column,
    backend, column_values.
  destruct (faults w) as [|[|e|e] fs]; try contradiction;
    cbn [reply_error reply_data ret with_faults lessons];
    (split; eexists _, _; (split; [reflexivity |]);
     (split; [apply distinct_spec |]); intros c;
     rewrite (proj2 (distinct_spec _ [])), <- published_column;
     rewrite elem_of_nil; tauto).
Qed.

Lemma getCategories_lists_each_once_witness :
  fst (getCategories classroom) = Normal (ok (Some ["basics"])).
Proof.
  destruct (getCategories_lists_each_once classroom I) as [(cats & w' & E & _) _].
  rewrite E. cbn [fst]. vm_compute in E. now injection E as <- _.
Defined.

End Listing.

(** ** Signing in, up and out *)

Section Accounts.

Lemma getProfile_run (userId : string) (w : World) :
  exists r w',
    getProfile userId w = (Normal r, w')
    /\ profiles w' = profiles w
    /\ (served w -> data r = profiles w !! userId)
    /\ (~ served w -> data r = None).
Proof.
  unfold getProfile, try_catch, bind, select_profile, backend, served.
  destruct (faults w) as [|[|e|e] fs]; cbn [with_faults profiles].
  - destruct (profiles w !! userId) as [p|]; cbn; eexists _, _;
      repeat split; tauto.
  - destruct (profiles w !! userId) as [p|]; cbn; eexists _, _;
      repeat split; tauto.
  - cbn. eexists _, _. repeat split; tauto.
  - cbn. eexists _, _. repeat split; tauto.
Qed.

(** X13: [signIn] succeeds as soon as the provider accepts the credentials
    and names a user: the profile is looked up afterwards, and a lookup
    that fails only leaves the profile out of the result.  With no user
    named the call fails with "Authentication failed", with an error of the
    provider it fails with the message of the error.  The profiles are
    never written. *)
Theorem signIn_does_not_need_the_profile (credentials : LoginForm) (w : World) :
  (forall user,
     served w -> provider_user w = Some user ->
     exists profile w',
       signIn credentials w
       = (Normal (ok (Some (mkAuthUser (user_id_of user)
                                       (orElse (user_email user) EmptyString)
                                       profile))), w')
       /\ (served (after_call w) -> profile = profiles w !! user_id_of user)
       /\ (~ served (after_call w) -> profile = None))
  /\ (served w -> provider_user w = None ->
        fst (signIn credentials w) = Normal (failure "Authentication failed"))
  /\ (forall e fs,
        faults w = Refuses e :: fs ->
        fst (signIn credentials w) = Normal (failure (be_message e)))
  /\ profiles (snd (signIn credentials w)) = profiles w.
Proof.
  split; [| split; [| split]];
    unfold signIn, try_catch, bind at 1, auth_signInWithPassword, backend, served,
      after_call.
  - intros user Hs Hu.
    destruct (faults w) as [|[|e|e] fs] eqn:F; try contradiction;
      cbn [reply_error reply_data with_faults provider_user]; rewrite Hu; unfold bind.
    + destruct (getProfile_run (user_id_of user) w) as (r & w' & -> & _ & H1 & H2).
      exists (data r), w'. split; [reflexivity |]. unfold served in H1, H2.
      cbn [faults]. rewrite F in *. split; [exact H1 | exact H2].
    + destruct (getProfile_run (user_id_of user) (with_faults fs w))
        as (r & w' & -> & _ & H1 & H2).
      exists (data r), w'. split; [reflexivity |]. split; [exact H1 | exact H2].
  - intros Hs Hu. destruct (faults w) as [|[|e|e] fs]; try contradiction;
      cbn [reply_error reply_data with_faults provider_user]; now rewrite Hu.
  - intros e fs ->. reflexivity.
  - destruct (faults w) as [|[|e|e] fs];
      cbn [reply_error reply_data with_faults provider_user]; try reflexivity.
    + destruct (provider_user w) as [user|]; [| reflexivity]. unfold bind.
      now destruct (getProfile_run (user_id_of user) w) as (r & w' & -> & Hp & _).
    + destruct (provider_user w) as [user|]; [| reflexivity]. unfold bind.
      now destruct (getProfile_run (user_id_of user) (with_faults fs w))
        as (r & w' & -> & Hp & _).
Qed.

Lemma signIn_does_not_need_the_profile_witness :
  fst (signIn (mkLogin "amina@example.org" "secret1")
         (mkWorld ∅ ∅ ∅ (Some (mkUser "u7" (Some "amina@example.org"))) ∅ 0
                  [Healthy; Crashes NotAnError] (wire quiet) []))
  = Normal (ok (Some (mkAuthUser "u7" "amina@example.org" None))).
Proof.
  destruct (signIn_does_not_need_the_profile
              (mkLogin "amina@example.org" "secret1")
              (mkWorld ∅ ∅ ∅ (Some (mkUser "u7" (Some "amina@example.org"))) ∅ 0
                       [Healthy; Crashes NotAnError] (wire quiet) []))
    as (H & _).
  destruct (H _ I eq_refl) as (profile & w' & E & _ & Hp).
  rewrite E. cbn [fst]. rewrite Hp; [reflexivity |]. intros S. exact S.
Defined.

(** X14: against a healthy backend, signing up a user the provider names
    always succeeds.  When the user has no profile yet, a profile with the
    role "student", the form's e-mail, names and organization is filed
    under the user's id and returned with the user; when a profile is
    already filed under that id, nothing is written and the profile is left
    out of the result. *)
Theorem signUp_files_a_student_profile (formData : SignUpForm) (user : User)
    (w : World) :
  faults w = [] -> provider_user w = Some user ->
  let profile :=
    mkProfile (user_id_of user) (signup_email formData) (firstName formData)
              (lastName formData) "student" (Some (signup_organization formData)) in
  (profiles w !! user_id_of user = None ->
     signUp formData w
     = (Normal (ok (Some (mkAuthUser (user_id_of user)
                                     (orElse (user_email user) EmptyString)
                                     (Some profile)))),
        with_profiles (<[user_id_of user := profile]> (profiles w)) w))
  /\ (is_Some (profiles w !! user_id_of user) ->
        signUp formData w
        = (Normal (ok (Some (mkAuthUser (user_id_of user)
                                        (orElse (user_email user) EmptyString)
                                        None))), w)).
Proof.
  intros F Hu profile. subst profile.
  assert (Run : forall stored,
            profiles w !! user_id_of user = stored ->
            signUp formData w
            = match stored with
              | Some _ =>
                  (Normal (ok (Some (mkAuthUser (user_id_of user)
                                       (orElse (user_email user) EmptyString) None))), w)
              | None =>
                  (Normal (ok (Some (mkAuthUser (user_id_of user)
                                       (orElse (user_email user) EmptyString)
                                       (Some (mkProfile (user_id_of user)
                                                (signup_email formData)
                                                (firstName formData)
                                                (lastName formData) "student"
                                                (Some (signup_organization formData))))))),
                   with_profiles
                     (<[user_id_of user :=
                          mkProfile (user_id_of user) (signup_email formData)
                                    (firstName formData) (lastName formData)
                                    "student" (Some (signup_organization formData))]>
                        (profiles w)) w)
              end).
  { intros stored Hst.
    unfold signUp, try_catch, bind at 1, auth_signUp, backend.
    rewrite F. cbn [reply_error reply_data]. rewrite Hu.
    unfold bind, createProfile, try_catch, bind, insert_profile, backend.
    rewrite F. cbn [profile_id]. rewrite Hst. now destruct stored. }
  split.
  - intros H. apply (Run None H).
  - intros [old H]. apply (Run (Some old) H).
Qed.

Lemma signUp_files_a_student_profile_witness :
  exists w',
    signUp (mkSignUp "amina@example.org" "secret1" "Amina" "Odera" "Moringa")
           (mkWorld ∅ ∅ ∅ (Some (mkUser "u7" None)) ∅ 0 [] (wire quiet) [])
    = (Normal (ok (Some (mkAuthUser "u7" ""
                           (Some (mkProfile "u7" "amina@example.org" "Amina"
                                            "Odera" "student" (Some "Moringa")))))),
       w')
    /\ role <$> profiles w' !! "u7" = Some "student".
Proof.
  destruct (signUp_files_a_student_profile
              (mkSignUp "amina@example.org" "secret1" "Amina" "Odera" "Moringa")
              (mkUser "u7" None)
              (mkWorld ∅ ∅ ∅ (Some (mkUser "u7" None)) ∅ 0 [] (wire quiet) [])
              eq_refl eq_refl) as [H _].
  eexists. split; [apply H; reflexivity | reflexivity].
Defined.

Lemma without_session_keeps (store : gmap string string) (key : string) :
  provider_entry key = false -> without_session store !! key = store !! key.
Proof.
  intros H. unfold without_session. apply option_eq. intros v.
  rewrite map_lookup_filter_Some. cbn [fst]. tauto.
Qed.

(** X15: [signOut] clears the local storage only after the provider has
    accepted the sign-out.  A success leaves the storage empty.  A sign-out
    the provider does not accept (it answers an error, or the call throws)
    fails and leaves the storage untouched.  When the provider has accepted
    and clearing the storage then fails, the call fails and the storage is
    what the provider left of it: its own session is gone, every other
    entry is where it was.  Against a healthy backend the call succeeds. *)
Theorem signOut_clears_the_storage_last (w w' : World) (r : ApiResponse unit) :
  signOut w = (Normal r, w') ->
  (success r = true -> storage w' = ∅)
  /\ (~ served w -> success r = false /\ storage w' = storage w)
  /\ (served w -> success r = false ->
        storage w' = without_session (storage w)
        /\ (forall key, provider_entry key = true -> storage w' !! key = None)
        /\ (forall key, provider_entry key = false ->
               storage w' !! key = storage w !! key))
  /\ (faults w = [] -> success r = true)
  /\ (forall e fs, faults w = Refuses e :: fs -> r = failure (be_message e)).
Proof.
  assert (Gone : forall key, provider_entry key = true ->
                   without_session (storage w) !! key = None).
  { intros key H. unfold without_session. apply map_lookup_filter_None.
    right. intros v _. cbn [fst]. congruence. }
  unfold signOut, try_catch, bind at 1, auth_signOut, backend, served.
  destruct (faults w) as [|[|e|e] fs] eqn:F; cbn [reply_error reply_data].
  - unfold bind, asyncStorage_clear, bind, backend.
    cbn [with_storage faults]. rewrite F.
    cbn [reply_error ret]. unfold ret. intros [= <- <-].
    repeat split; try discriminate; try tauto; try (now intros ? ? [=]).
  - unfold bind, asyncStorage_clear, bind, backend.
    cbn [with_faults with_storage faults storage].
    destruct fs as [|[|e|e] fs]; cbn [reply_error ret throw]; unfold ret, throw;
      intros [= <- <-];
      cbn [with_faults with_storage faults storage success ok failure];
      repeat split; try discriminate; try tauto; try (now intros ? ? [=]);
      try (intros; now apply Gone); try (intros; now apply without_session_keeps).
  - unfold ret. intros [= <- <-].
    repeat split; try discriminate; try tauto; try (now intros ? ? [= <- _]).
  - unfold ret. intros [= <- <-].
    repeat split; try discriminate; try tauto; try (now intros ? ? [=]).
Qed.

Lemma signOut_clears_the_storage_last_witness :
  exists r w',
    signOut (with_faults [Healthy; Crashes (ErrorObject "storage is full")]
               (with_storage {[ storageKey := "token"; "theme" := "dark" ]}
                             classroom))
    = (Normal r, w')
    /\ r = failure "storage is full"
    /\ storage w' !! storageKey = None
    /\ storage w' !! "theme" = Some "dark".
Proof.
  eexists _, _. split; [reflexivity |].
  split; [reflexivity |].
  destruct (signOut_clears_the_storage_last
              (with_faults [Healthy; Crashes (ErrorObject "storage is full")]
                 (with_storage {[ storageKey := "token"; "theme" := "dark" ]}
                               classroom))
              _ _ eq_refl) as (_ & _ & H & _).
  destruct (H I eq_refl) as (_ & Hgone & Hkept).
  split.
  - apply Hgone. reflexivity.
  - rewrite Hkept by reflexivity. reflexivity.
Defined.

(** X16: [getCurrentUser] reports a failure only when the provider call
    throws: an error answered by the provider is ignored and, like a
    missing session, gives a success without a user. *)
Theorem getCurrentUser_fails_only_on_a_throw (w : World) :
  exists r w',
    getCurrentUser w = (Normal r, w')
    /\ (success r = false <-> exists e fs, faults w = Crashes e :: fs)
    /\ (provider_user w = None -> success r = true -> data r = None)
    /\ (forall e fs, faults w = Refuses e :: fs -> r = ok None).
Proof.
  unfold getCurrentUser, try_catch, bind at 1, auth_getUser, backend.
  destruct (faults w) as [|[|e|e] fs] eqn:F;
    cbn [reply_error reply_data with_faults provider_user].
  - destruct (provider_user w) as [user|] eqn:U.
    + unfold bind.
      destruct (getProfile_run (user_id_of user) w) as (r & w' & -> & _).
      eexists _, _. split; [reflexivity |]. cbn [ret success ok].
      repeat split; try discriminate; try (now intros (? & ? & [=])).
    + eexists _, _. split; [reflexivity |]. cbn [ret success ok data].
      repeat split; try discriminate; try (now intros (? & ? & [=])).
  - destruct (provider_user w) as [user|] eqn:U.
    + unfold bind.
      destruct (getProfile_run (user_id_of user) (with_faults fs w))
        as (r & w' & -> & _).
      eexists _, _. split; [reflexivity |]. cbn [ret success ok].
      repeat split; try discriminate; try (now intros (? & ? & [=])).
    + eexists _, _. split; [reflexivity |]. cbn [ret success ok data].
      repeat split; try discriminate; try (now intros (? & ? & [=])).
  - eexists _, _. split; [reflexivity |]. cbn [ret success ok data].
    repeat split; try discriminate; try (now intros (? & ? & [=])).
  - eexists _, _. split; [reflexivity |]. cbn [ret success failure].
    repeat split; try discriminate. intros _. now exists e, fs.
Qed.

End Accounts.

(** ** The session state *)

Section Session.

Lemma signIn_carries_the_user (credentials : LoginForm) (w : World) :
  exists r w',
    signIn credentials w = (Normal r, w')
    /\ (success r = true -> is_Some (data r)).
Proof.
  unfold signIn, try_catch, bind at 1, auth_signInWithPassword, backend.
  destruct (faults w) as [|[|e|e] fs]; cbn [reply_error reply_data].
  - destruct (provider_user w) as [user|].
    + unfold bind. destruct (getProfile_returns (user_id_of user) w) as (r & w' & -> & _).
      eexists _, _. split; [reflexivity |]. intros _. now eexists.
    + eexists _, _. split; [reflexivity | discriminate].
  - cbn [with_faults provider_user]. destruct (provider_user w) as [user|].
    + unfold bind.
      destruct (getProfile_returns (user_id_of user) (with_faults fs w))
        as (r & w' & -> & _).
      eexists _, _. split; [reflexivity |]. intros _. now eexists.
    + eexists _, _. split; [reflexivity | discriminate].
  - eexists _, _. split; [reflexivity | discriminate].
  - eexists _, _. split; [reflexivity | discriminate].
Qed.

Lemma signUp_carries_the_user (formData : SignUpForm) (w : World) :
  exists r w',
    signUp formData w = (Normal r, w')
    /\ (success r = true -> is_Some (data r)).
Proof.
  unfold signUp, try_catch, bind at 1, auth_signUp, backend.
  destruct (faults w) as [|[|e|e] fs]; cbn [reply_error reply_data].
  - destruct (provider_user w) as [user|].
    + unfold bind.
      match goal with
      | |- context [createProfile ?p w] =>
          destruct (createProfile_returns p w) as (r & w' & -> & _)
      end.
      eexists _, _. split; [reflexivity |]. intros _. now eexists.
    + eexists _, _. split; [reflexivity | discriminate].
  - cbn [with_faults provider_user]. destruct (provider_user w) as [user|].
    + unfold bind.
      match goal with
      | |- context [createProfile ?p (with_faults fs w)] =>
          destruct (createProfile_returns p (with_faults fs w)) as (r & w' & -> & _)
      end.
      eexists _, _. split; [reflexivity |]. intros _. now eexists.
    + eexists _, _. split; [reflexivity | discriminate].
  - eexists _, _. split; [reflexivity | discriminate].
  - eexists _, _. split; [reflexivity | discriminate].
Qed.

Lemma orElse_some (a : option string) (b : string) : is_Some (Some (orElse a b)).
Proof. now eexists. Qed.

(** X17: the context's [signIn] and [signUp] always settle with
    [loading = false].  When they report success the state holds a user
    and no error; when they report failure the user that was signed in
    before is kept and an error message is set. *)
Theorem context_sign_in_and_up_settle (email password : string)
    (formData : SignUpForm) (st : AuthContext.AuthState) (w : World) :
  (exists outcome st' w',
     AuthContext.signIn email password st w = (Normal (outcome, st'), w')
     /\ AuthContext.state_loading st' = false
     /\ (AuthContext.outcome_success outcome = true ->
           is_Some (AuthContext.state_user st')
           /\ AuthContext.state_error st' = None)
     /\ (AuthContext.outcome_success outcome = false ->
           AuthContext.state_user st' = AuthContext.state_user st
           /\ is_Some (AuthContext.state_error st')))
  /\ (exists outcome st' w',
        AuthContext.signUp formData st w = (Normal (outcome, st'), w')
        /\ AuthContext.state_loading st' = false
        /\ (AuthContext.outcome_success outcome = true ->
              is_Some (AuthContext.state_user st')
              /\ AuthContext.state_error st' = None)
        /\ (AuthContext.outcome_success outcome = false ->
              AuthContext.state_user st' = AuthContext.state_user st
              /\ is_Some (AuthContext.state_error st'))).
Proof.
  split.
  - unfold AuthContext.signIn, try_catch, bind.
    destruct (signIn_carries_the_user (mkLogin email password) w)
      as (r & w' & -> & Hd).
    destruct (success r) eqn:S; eexists _, _, _; (split; [reflexivity |]);
      cbn; repeat split; try discriminate; auto using orElse_some.
  - unfold AuthContext.signUp, try_catch, bind.
    destruct (signUp_carries_the_user formData w) as (r & w' & -> & Hd).
    destruct (success r) eqn:S; eexists _, _, _; (split; [reflexivity |]);
      cbn; repeat split; try discriminate; auto using orElse_some.
Qed.

(** X18: the context's [signOut] ignores what the service answers: for
    every behaviour of the backend it ends signed out, not loading and
    without an error, also when the service reported a failure and the
    local storage was not cleared. *)
Theorem context_signOut_always_signs_out (st : AuthContext.AuthState) (w : World) :
  AuthContext.signOut st w
  = (Normal (AuthContext.mkAuthState None false None), snd (signOut w))
  /\ (forall e fs,
        faults w = Refuses e :: fs ->
        fst (signOut w) = Normal (failure (be_message e))
        /\ storage (snd (signOut w)) = storage w).
Proof.
  split.
  - unfold AuthContext.signOut, try_catch, bind.
    now destruct (signOut_returns w) as (r & w' & -> & _).
  - intros e fs F. unfold signOut, try_catch, bind, auth_signOut, backend.
    rewrite F. split; reflexivity.
Qed.

Lemma context_signOut_always_signs_out_witness :
  fst (AuthContext.signOut
         (AuthContext.mkAuthState (Some (mkAuthUser "u1" "a@b.c" None)) false None)
         (with_faults [Refuses (mkBackendError "session missing" "400")] classroom))
  = Normal (AuthContext.mkAuthState None false None)
  /\ fst (signOut (with_faults [Refuses (mkBackendError "session missing" "400")]
                               classroom))
     = Normal (failure "session missing").
Proof.
  destruct (context_signOut_always_signs_out
              (AuthContext.mkAuthState (Some (mkAuthUser "u1" "a@b.c" None)) false None)
              (with_faults [Refuses (mkBackendError "session missing" "400")] classroom))
    as [H1 H2].
  split; [now rewrite H1 |]. now apply (H2 _ _ eq_refl).
Defined.

(** X19: [refreshUser] never signs a user out and never touches [loading]
    or [error]: without a user it calls nothing and changes nothing; with
    a user it keeps a user, whatever the backend does. *)
Theorem refreshUser_keeps_the_session (st : AuthContext.AuthState) (w : World) :
  exists st' w',
    AuthContext.refreshUser st w = (Normal st', w')
    /\ AuthContext.state_loading st' = AuthContext.state_loading st
    /\ AuthContext.state_error st' = AuthContext.state_error st
    /\ (is_Some (AuthContext.state_user st') <-> is_Some (AuthContext.state_user st))
    /\ (AuthContext.state_user st = None -> st' = st /\ w' = w).
Proof.
  unfold AuthContext.refreshUser.
  destruct (AuthContext.state_user st) as [user|] eqn:U.
  - unfold try_catch, bind.
    destruct (getCurrentUser_returns w) as (r & w' & -> & _).
    destruct (success r); [destruct (data r) |]; eexists _, _;
      (split; [reflexivity |]); cbn; rewrite ?U; repeat split;
      try discriminate; eauto.
  - exists st, w. rewrite U. repeat split; auto.
Qed.

End Session.

(** ** The search screen *)

Section SearchScreen.
Import DomainsScreen.

Lemma first_page_of_twenty : registrars (getRegistrarsPaginated 1 20) = kenicRegistrars.
Proof. reflexivity. Qed.

(** X20: [handleSearch] sends nothing for a name that [validateDomainName]
    rejects: the world is untouched and the message of the validation is
    shown.  For an accepted name it issues exactly one lookup, for the
    cleaned name and the selected extension, and ends with
    [loading = false]: a failed lookup shows its message and keeps the
    previous result; a successful one stores the result, shows no error,
    and lists the whole directory from page 1 exactly when the name is
    available. *)
Theorem handleSearch_validates_first (st : Screen) (w : World) :
  (isValid (validateDomainName (searchTerm st)) = false ->
     exists text,
       handleSearch st w = (Normal (setError (Some text) st), w)
       /\ invalid_error (validateDomainName (searchTerm st)) = Some text)
  /\ (isValid (validateDomainName (searchTerm st)) = true ->
      exists r st' w',
        searchDomain (searchTerm st) (selectedExtension st) w = (Normal r, w')
        /\ handleSearch st w = (Normal st', w')
        /\ log w' = log w ++ [EvFetch (mkLookup (cleaned (searchTerm st))
                                                (selectedExtension st))]
        /\ loading st' = false
        /\ (success r = false ->
              message st' = Some (orElse (error r) "Search failed")
              /\ searchResult st' = searchResult st
              /\ listed st' = listed st)
        /\ (success r = true ->
              exists found,
                data r = Some found
                /\ searchResult st' = Some found
                /\ message st' = None
                /\ showRegistrars st' = res_available found
                /\ (res_available found = true ->
                      listed st' = kenicRegistrars /\ registrarPage st' = 1)
                /\ (res_available found = false ->
                      listed st' = listed st /\ registrarPage st' = registrarPage st))).
Proof.
  split; intros V; unfold handleSearch; rewrite V; cbn [negb].
  - unfold validateDomainName in *. fold (cleaned (searchTerm st)) in *.
    destruct (Js.is_empty (cleaned (searchTerm st)));
      [eexists; split; reflexivity |].
    destruct (Js.length (cleaned (searchTerm st)) <? 1);
      [eexists; split; reflexivity |].
    destruct (63 <? Js.length (cleaned (searchTerm st)));
      [eexists; split; reflexivity |].
    destruct (negb (Js.test domainRegex (cleaned (searchTerm st))));
      [eexists; split; reflexivity |].
    destruct (Js.startsWith "-" (cleaned (searchTerm st))
              || Js.endsWith "-" (cleaned (searchTerm st)));
      [eexists; split; reflexivity | discriminate].
  - unfold try_catch, bind at 1, searched, bind at 1.
    cbn [searchTerm selectedExtension setError setLoading].
    fold (cleaned (searchTerm st)).
    rewrite !searchDomain_run. unfold lookup_request, answer.
    rewrite !cleaned_idempotent.
    destruct (wire w _ _) as [e | rsp].
    { eexists _, _, _. split; [reflexivity |]. split; [reflexivity |].
      cbn. repeat split; discriminate. }
    destruct (response_ok rsp).
    2:{ eexists _, _, _. split; [reflexivity |]. split; [reflexivity |].
        cbn. repeat split; discriminate. }
    destruct (body rsp) as [e | available].
    { eexists _, _, _. split; [reflexivity |]. split; [reflexivity |].
      cbn. repeat split; discriminate. }
    destruct available; eexists _, _, _; (split; [reflexivity |]);
      (split; [reflexivity |]); cbn; (split; [reflexivity |]);
      (split; [reflexivity |]); (split; [discriminate |]); intros _;
      eexists; (split; [reflexivity |]); cbn; repeat split; discriminate.
Qed.

Lemma handleSearch_validates_first_witness :
  handleSearch (mkScreen "-bad" ext_me_ke None [] false None false 1) classroom
  = (Normal (mkScreen "-bad" ext_me_ke None [] false
                      (Some "Domain name contains invalid characters") false 1),
     classroom)
  /\ listed (match fst (handleSearch (mkScreen " Shop " ext_me_ke None [] false None false 1)
                                     classroom) with
             | Normal st' => st'
             | _ => mkScreen "" ext_me_ke None [] false None false 1
             end) = kenicRegistrars.
Proof.
  destruct (handleSearch_validates_first
              (mkScreen "-bad" ext_me_ke None [] false None false 1) classroom)
    as [H _].
  destruct (handleSearch_validates_first
              (mkScreen " Shop " ext_me_ke None [] false None false 1) classroom)
    as [_ H'].
  split.
  - destruct (H eq_refl) as (text & E & Ht). rewrite E.
    vm_compute in Ht. now injection Ht as <-.
  - destruct (H' eq_refl) as (r & st' & w' & Er & E & _ & _ & _ & Hs).
    rewrite E. cbn [fst]. vm_compute in Er. injection Er as <- _.
    destruct (Hs eq_refl) as (found & Hf & _ & _ & _ & Ha & _).
    injection Hf as <-. now apply Ha.
Defined.

(** X21: once the listing stands at page 1 or later, [loadMoreRegistrars]
    changes nothing: with pages of 10 the next page is never followed by
    another, so it is never appended, and the listing [handleSearch]
    filled with the whole directory stays free of repetitions.  Only from
    page 0 does it append the first ten registrars and move to page 1. *)
Theorem loadMoreRegistrars_stops_at_page_one (st : Screen) :
  (1 <= registrarPage st -> loadMoreRegistrars st = st)
  /\ (registrarPage st = 0 ->
        loadMoreRegistrars st
        = setRegistrarPage 1 (setRegistrars (listed st ++ take 10 kenicRegistrars) st)).
Proof.
  unfold loadMoreRegistrars. split.
  - intros H.
    assert (E : hasMore (getRegistrarsPaginated (registrarPage st + 1) 10) = false).
    { apply not_true_is_false. rewrite hasMore_iff, directory_size. lia. }
    now rewrite E.
  - intros ->. reflexivity.
Qed.

Lemma loadMoreRegistrars_stops_at_page_one_witness :
  loadMoreRegistrars (mkScreen "shop" ext_me_ke None kenicRegistrars false None true 1)
  = mkScreen "shop" ext_me_ke None kenicRegistrars false None true 1.
Proof.
  apply (proj1 (loadMoreRegistrars_stops_at_page_one
                  (mkScreen "shop" ext_me_ke None kenicRegistrars false None true 1))).
  vm_compute. discriminate.
Defined.

End SearchScreen.

(** ** The lesson screen *)

Section LessonScreen.
Import LessonDetailScreen.

(** X22: [handleContinueLesson] does nothing, and calls nothing, unless a
    user is signed in, the lesson is loaded and progress has been started.
    Otherwise, against a healthy backend and from a shown progress p >= 0,
    it stores and shows the row with progress min(p+20, 100), which is
    completed exactly when p >= 80, ends with [updating = false], and
    announces "Congratulations!" when the lesson is thereby completed and
    "Progress Updated" when it is not. *)
Theorem handleContinueLesson_adds_twenty (user : option AuthUser) (st : Screen)
    (w : World) :
  (user = None \/ lesson st = None \/ shown st = None ->
     handleContinueLesson user st w = (Normal (st, None), w))
  /\ (forall u l current,
        user = Some u -> lesson st = Some l -> shown st = Some current ->
        faults w = [] -> 0 <= progress current ->
        exists row alert w',
          handleContinueLesson user st w
          = (Normal (mkScreen (Some l) (Some row) false, Some alert), w')
          /\ user_lesson_progress w' !! (auth_id u, lesson_key l) = Some row
          /\ progress row = Z.min (progress current + 20) 100
          /\ (completed row = true <-> 80 <= progress current)
          /\ alert_title alert
             = (if 80 <=? progress current then "Congratulations!"
                else "Progress Updated")).
Proof.
  split.
  - unfold handleContinueLesson.
    intros [-> | [H | H]]; [reflexivity | |].
    + rewrite H. now destruct user.
    + rewrite H. destruct user; [destruct (lesson st) |]; reflexivity.
  - intros u l current -> Hl Hc F Hp. unfold handleContinueLesson.
    rewrite Hl, Hc. unfold try_catch, bind.
    rewrite (updateProgress_healthy _ _ _ _ F). cbn [ok success data fst snd ret].
    unfold ret, setUpdating, setProgress. cbn [lesson shown updating].
    rewrite Hl. eexists _, _, _. split; [reflexivity |].
    split; [cbn [with_progress user_lesson_progress]; apply lookup_insert_eq |].
    unfold progressData. cbn [progress completed]. split; [lia |]. split.
    + rewrite Z.leb_le. lia.
    + destruct (Z.leb_spec 100 (Z.min (progress current + 20) 100)),
        (Z.leb_spec 80 (progress current)); try lia; reflexivity.
Qed.

Lemma handleContinueLesson_adds_twenty_witness :
  exists row alert w',
    handleContinueLesson (Some (mkAuthUser "u1" "a@b.c" None))
      (mkScreen (Some (mkLesson "l6" "Loops" "basics" "beginner" 75 "published" 2 "a1" None))
                (Some (mkProgress "u1" "l6" 90 false None)) false)
      classroom
    = (Normal (mkScreen (Some (mkLesson "l6" "Loops" "basics" "beginner" 75
                                        "published" 2 "a1" None))
                        (Some row) false, Some alert), w')
    /\ progress row = 100 /\ alert_title alert = "Congratulations!".
Proof.
  destruct (handleContinueLesson_adds_twenty
              (Some (mkAuthUser "u1" "a@b.c" None))
              (mkScreen (Some (mkLesson "l6" "Loops" "basics" "beginner" 75
                                        "published" 2 "a1" None))
                        (Some (mkProgress "u1" "l6" 90 false None)) false)
              classroom) as [_ H].
  destruct (H _ _ _ eq_refl eq_refl eq_refl eq_refl ltac:(cbn; lia))
    as (row & alert & w' & E & _ & Hp & _ & Ha).
  exists row, alert, w'. split; [exact E |]. split; [exact Hp | exact Ha].
Defined.

End LessonScreen.

(** ** Display names *)

Section Names.

Lemma orElse_not_empty (a : option string) (b : string) :
  b <> EmptyString -> orElse a b <> EmptyString.
Proof.
  intros Hb. unfold orElse. destruct a as [s|]; [| exact Hb].
  destruct s; [exact Hb | discriminate].
Qed.

Lemma not_empty_string (s : string) : Js.is_empty s = false -> s <> EmptyString.
Proof. destruct s; [discriminate | discriminate]. Qed.

(** X23: the display names of the dashboard and of the profile screen are
    never empty: without a usable name they fall back to the e-mail
    address (the dashboard to what stands before the first "@") and then
    to "Student".  The dashboard shows the first name whenever the profile
    has one. *)
Theorem display_names_are_never_empty (user : option AuthUser) :
  DashboardScreen.getDisplayName user <> EmptyString
  /\ ProfileScreen.getDisplayName user <> EmptyString
  /\ (forall u p,
        user = Some u -> auth_profile u = Some p -> first_name p <> EmptyString ->
        DashboardScreen.getDisplayName user = first_name p)
  /\ (forall u local rest,
        user = Some u -> auth_profile u = None ->
        auth_email u = local +:+ "@" +:+ rest ->
        local <> EmptyString -> "@"%char ∉ Js.chars local ->
        DashboardScreen.getDisplayName user = local)
  /\ DashboardScreen.getDisplayName None = "Student".
Proof.
  assert (S : "Student" <> EmptyString) by discriminate.
  split; [| split; [| split; [| split]]].
  - unfold DashboardScreen.getDisplayName.
    destruct (user ≫= auth_profile) as [p|]; [| now apply orElse_not_empty].
    destruct (Js.is_empty (first_name p)) eqn:E; cbn [negb];
      [now apply orElse_not_empty | now apply not_empty_string].
  - unfold ProfileScreen.getDisplayName.
    destruct (user ≫= auth_profile) as [p|]; [| now apply orElse_not_empty].
    destruct (Js.is_empty (first_name p)) eqn:E; cbn [negb andb];
      [now apply orElse_not_empty |].
    destruct (Js.is_empty (last_name p)); cbn [negb];
      [now apply orElse_not_empty |].
    destruct (first_name p); [discriminate |]. rewrite append_cons. discriminate.
  - intros u p -> Hp Hn. unfold DashboardScreen.getDisplayName.
    cbn [mbind option_bind]. rewrite Hp.
    destruct (first_name p); [contradiction | reflexivity].
  - intros u local rest -> Hp He Hl Hat. unfold DashboardScreen.getDisplayName.
    cbn [mbind option_bind fmap option_fmap option_map]. rewrite Hp, He.
    change ("@" +:+ rest) with (String "@" rest).
    rewrite (split_at_first _ _ _ Hat). cbn [lookup list_lookup default orElse].
    destruct local; [contradiction | reflexivity].
  - reflexivity.
Qed.

Lemma display_names_are_never_empty_witness :
  DashboardScreen.getDisplayName (Some (mkAuthUser "u1" "amina@example.org" None))
  = "amina".
Proof.
  destruct (display_names_are_never_empty
              (Some (mkAuthUser "u1" "amina@example.org" None)))
    as (_ & _ & _ & H & _).
  apply (H _ "amina" "example.org" eq_refl eq_refl eq_refl); [discriminate |].
  apply (proj1 (bool_decide_eq_false _)). reflexivity.
Defined.

End Names.

(** ** Edges of the directory and of the validation *)

Section Edges.

Lemma slice_nothing {A : Type} (l : list A) (a : Z) : Js.slice l a a = [].
Proof. unfold Js.slice. now rewrite Z.sub_diag. Qed.

(** X24: outside the pages of the directory on the low side nothing is
    checked: for a page size of at least 1 every page below 1 is reported
    with [hasMore = true], and page 0 is empty; with a page size of 0 every
    page is empty and reported with [hasMore = true].  The total is always
    the length of the directory. *)
Theorem getRegistrarsPaginated_below_the_first_page (page limit : Z) :
  (1 <= limit -> page <= 0 ->
     hasMore (getRegistrarsPaginated page limit) = true)
  /\ (1 <= limit -> page = 0 ->
        registrars (getRegistrarsPaginated page limit) = [])
  /\ (limit = 0 ->
        registrars (getRegistrarsPaginated page limit) = []
        /\ hasMore (getRegistrarsPaginated page limit) = true)
  /\ total (getRegistrarsPaginated page limit) = Z.of_nat (length kenicRegistrars).
Proof.
  split; [| split; [| split; [| reflexivity]]].
  - intros Hl Hp. apply hasMore_iff. rewrite directory_size. nia.
  - intros Hl ->. unfold getRegistrarsPaginated. cbn [registrars].
    unfold Js.slice, Js.relative. rewrite directory_size.
    replace (Z.to_nat (_ - _)) with 0%nat; [reflexivity |].
    destruct (Z.ltb_spec ((0 - 1) * limit) 0),
      (Z.ltb_spec ((0 - 1) * limit + limit) 0); cbv iota; lia.
  - intros ->. split.
    + unfold getRegistrarsPaginated. cbn [registrars].
      rewrite Z.add_0_r. apply slice_nothing.
    + apply hasMore_iff. rewrite directory_size. lia.
Qed.

Lemma getRegistrarsPaginated_below_the_first_page_witness :
  hasMore (getRegistrarsPaginated (-3) 7) = true
  /\ registrars (getRegistrarsPaginated 0 7) = []
  /\ registrars (getRegistrarsPaginated 2 0) = [].
Proof.
  destruct (getRegistrarsPaginated_below_the_first_page (-3) 7) as (H1 & _).
  destruct (getRegistrarsPaginated_below_the_first_page 0 7) as (_ & H2 & _).
  destruct (getRegistrarsPaginated_below_the_first_page 2 0) as (_ & _ & H3 & _).
  split; [apply H1; lia |]. split; [apply H2; lia | now apply H3].
Defined.

(** X25: [validateDomainName] never answers "Domain name is too short":
    a cleaned name of length below 1 is empty and is reported as empty
    before.  An error message is present exactly when the name is
    rejected, and it is then one of "Domain name cannot be empty",
    "Domain name is too long" and "Domain name contains invalid
    characters", the first defect in that order deciding. *)
Theorem validateDomainName_messages (s : string) :
  invalid_error (validateDomainName s) <> Some "Domain name is too short"
  /\ (isValid (validateDomainName s) = true <->
        invalid_error (validateDomainName s) = None)
  /\ (cleaned s = EmptyString ->
        invalid_error (validateDomainName s) = Some "Domain name cannot be empty")
  /\ (cleaned s <> EmptyString -> 63 < Js.length (cleaned s) ->
        invalid_error (validateDomainName s) = Some "Domain name is too long")
  /\ (cleaned s <> EmptyString -> Js.length (cleaned s) <= 63 ->
      ~ Js.Matches domainRegex (cleaned s) ->
        invalid_error (validateDomainName s)
        = Some "Domain name contains invalid characters").
Proof.
  unfold validateDomainName. fold (cleaned s).
  destruct (cleaned s) as [|c t] eqn:E.
  { cbn. repeat split; try discriminate; try congruence; try (intros; lia). }
  cbn [Js.is_empty].
  assert (L : (Js.length (String c t) <? 1) = false).
  { apply Z.ltb_ge. unfold Js.length. cbn [String.length]. lia. }
  rewrite L.
  destruct (Z.ltb_spec 63 (Js.length (String c t))) as [H | H].
  { cbn. repeat split; try discriminate; try congruence; try (intros; lia). }
  destruct (Js.test domainRegex (String c t)) eqn:T; cbn [negb].
  - apply test_matches in T. rewrite (label_no_hyphen_ends _ T). cbn.
    repeat split; try discriminate; try congruence; try (intros; lia);
      try (intros; contradiction).
  - cbn. repeat split; try discriminate; try congruence; try (intros; lia).
Qed.

Lemma validateDomainName_messages_witness :
  invalid_error (validateDomainName "   ") = Some "Domain name cannot be empty"
  /\ invalid_error (validateDomainName "my shop")
     = Some "Domain name contains invalid characters".
Proof.
  destruct (validateDomainName_messages "   ") as (_ & _ & H1 & _).
  destruct (validateDomainName_messages "my shop") as (_ & _ & _ & _ & H2).
  split; [apply H1; reflexivity |].
  apply H2; [discriminate | vm_compute; discriminate |].
  intros M%test_matches. vm_compute in M. discriminate.
Defined.

End Edges.

(** ** A batch and its single lookups *)

Section BatchAndSingle.

(** X26: when the answer of the network to a request does not depend on
    when the request is issued, [checkMultipleDomains] returns, label by
    label, what a single [searchDomain] of the label gives from the same
    world: its data when it succeeds, the entry
    {domain: label, extension, available: false} when it fails.  For no
    label it returns the empty list and issues no request. *)
Theorem checkMultipleDomains_agrees_with_searchDomain (domains : list string)
    (extension : DomainExtension) (w : World) :
  (forall n m request, wire w n request = wire w m request) ->
  (exists results w',
     checkMultipleDomains domains extension w = (Normal (ok (Some results)), w')
     /\ results
        = map (fun label =>
                 match fst (searchDomain label extension w) with
                 | Normal r =>
                     if success r then default (unavailable label extension) (data r)
                     else unavailable label extension
                 | _ => unavailable label extension
                 end) domains)
  /\ checkMultipleDomains [] extension w = (Normal (ok (Some [])), w).
Proof.
  intros Hw. split; [| reflexivity].
  destruct (checkMultipleDomains_run extension domains w)
    as (results & w' & E & _ & Hlen & Hentry).
  exists results, w'. split; [exact E |].
  apply list_eq. intros j. rewrite list_lookup_fmap.
  destruct (domains !! j) as [label|] eqn:D.
  - rewrite (Hentry j label D). cbn [fmap option_fmap option_map].
    rewrite searchDomain_run. cbn [fst].
    unfold entry_for. now rewrite (Hw (issued_at w j) (length (log w))).
  - cbn. apply lookup_ge_None. apply lookup_ge_None in D. lia.
Qed.

Lemma checkMultipleDomains_agrees_with_searchDomain_witness :
  exists results w',
    checkMultipleDomains ["abc"; "de-f"] ext_ke quiet
      = (Normal (ok (Some results)), w')
    /\ results = [mkResult "abc" ext_ke false None; mkResult "de-f" ext_ke false None].
Proof.
  destruct (checkMultipleDomains_agrees_with_searchDomain ["abc"; "de-f"] ext_ke quiet)
    as [(results & w' & E & H) _]; [reflexivity |].
  exists results, w'. split; [exact E |]. rewrite H. reflexivity.
Defined.

End BatchAndSingle.

(** ** Starting a lesson, starting the application *)

Section Starting.
Import LessonDetailScreen.

(** X27: [handleStartLesson] does nothing, and calls nothing, unless a
    user is signed in and the lesson is loaded.  Otherwise, against a
    healthy backend, it stores and shows the row {progress 10, not
    completed, no completion time} for the pair, whatever row was stored
    for it before, ends with [updating = false] and announces
    "Lesson Started". *)
Theorem handleStartLesson_sets_ten (user : option AuthUser) (st : Screen)
    (w : World) :
  (user = None \/ lesson st = None ->
     handleStartLesson user st w = (Normal (st, None), w))
  /\ (forall u l,
        user = Some u -> lesson st = Some l -> faults w = [] ->
        exists w',
          handleStartLesson user st w
          = (Normal (mkScreen (Some l)
                       (Some (mkProgress (auth_id u) (lesson_key l) 10 false None))
                       false,
                     Some (mkAlert "Lesson Started"
                                   "You have started this lesson. Good luck!")), w')
          /\ user_lesson_progress w' !! (auth_id u, lesson_key l)
             = Some (mkProgress (auth_id u) (lesson_key l) 10 false None)).
Proof.
  split.
  - unfold handleStartLesson. intros [-> | H]; [reflexivity |].
    rewrite H. now destruct user.
  - intros u l -> Hl F. unfold handleStartLesson. rewrite Hl.
    unfold try_catch, bind. rewrite (updateProgress_healthy _ _ _ _ F).
    cbn [ok success data fst snd ret]. unfold ret, setUpdating, setProgress.
    cbn [lesson shown updating]. rewrite Hl. eexists. split; [reflexivity |].
    cbn [with_progress user_lesson_progress]. apply lookup_insert_eq.
Qed.

Lemma handleStartLesson_sets_ten_witness :
  exists w',
    handleStartLesson (Some (mkAuthUser "u1" "a@b.c" None))
      (mkScreen (Some (mkLesson "l1" "Variables" "basics" "beginner" 50
                                "published" 1 "a1" None)) None false)
      classroom
    = (Normal (mkScreen (Some (mkLesson "l1" "Variables" "basics" "beginner" 50
                                        "published" 1 "a1" None))
                 (Some (mkProgress "u1" "l1" 10 false None)) false,
               Some (mkAlert "Lesson Started"
                             "You have started this lesson. Good luck!")), w')
    /\ user_lesson_progress w' !! ("u1", "l1")
       = Some (mkProgress "u1" "l1" 10 false None).
Proof.
  destruct (handleStartLesson_sets_ten (Some (mkAuthUser "u1" "a@b.c" None))
              (mkScreen (Some (mkLesson "l1" "Variables" "basics" "beginner" 50
                                        "published" 1 "a1" None)) None false)
              classroom) as [_ H].
  exact (H _ _ eq_refl eq_refl eq_refl).
Defined.

(** X28: the start-up check of the session always ends with
    [loading = false]; it shows an error, and then no user, exactly when
    the call of the provider throws; an error answered by the provider and
    a missing session both end without a user and without an error. *)
Theorem checkAuthState_settles (w : World) :
  exists st' w',
    AuthContext.checkAuthState w = (Normal st', w')
    /\ AuthContext.state_loading st' = false
    /\ (is_Some (AuthContext.state_error st') <->
          exists e fs, faults w = Crashes e :: fs)
    /\ (is_Some (AuthContext.state_error st') -> AuthContext.state_user st' = None)
    /\ (provider_user w = None -> AuthContext.state_user st' = None)
    /\ (forall e fs, faults w = Refuses e :: fs -> AuthContext.state_user st' = None).
Proof.
  unfold AuthContext.checkAuthState, try_catch, bind at 1, getCurrentUser,
    try_catch, bind at 1, auth_getUser, backend.
  destruct (faults w) as [|[|e|e] fs] eqn:F;
    cbn [reply_error reply_data with_faults provider_user].
  - destruct (provider_user w) as [user|] eqn:U.
    + unfold bind.
      destruct (getProfile_run (user_id_of user) w) as (r & w' & -> & _).
      eexists _, _. split; [reflexivity |]. cbn.
      repeat split; try discriminate; try (now intros [? [=]]);
        try (now intros (? & ? & [=])); try (now intros ? ? [=]).
    + eexists _, _. split; [reflexivity |]. cbn.
      repeat split; try discriminate; try (now intros [? [=]]);
        try (now intros (? & ? & [=])); try (now intros ? ? [=]).
  - destruct (provider_user w) as [user|] eqn:U.
    + unfold bind.
      destruct (getProfile_run (user_id_of user) (with_faults fs w))
        as (r & w' & -> & _).
      eexists _, _. split; [reflexivity |]. cbn.
      repeat split; try discriminate; try (now intros [? [=]]);
        try (now intros (? & ? & [=])); try (now intros ? ? [=]).
    + eexists _, _. split; [reflexivity |]. cbn.
      repeat split; try discriminate; try (now intros [? [=]]);
        try (now intros (? & ? & [=])); try (now intros ? ? [=]).
  - eexists _, _. split; [reflexivity |]. cbn.
    repeat split; try discriminate; try (now intros [? [=]]);
      try (now intros (? & ? & [=])); try (now intros ? ? [=]).
  - eexists _, _. split; [reflexivity |]. cbn.
    repeat split; try discriminate; try (now eexists); try (now eexists _, _);
      try (now intros ? ? [=]).
Qed.

End Starting.
